(** * JazzHR resume downloader: the browser-automation engine

    A shallow embedding of [download_resumes_browser.py]
    (class [JazzHRBrowserDownloader]) and of the status decision of
    [api_server.py] ([download_with_progress]).

    Conventions of the embedding.
    - Python [str] values are Rocq [string]s (byte strings; the patterns the
      code looks for are ASCII, [\d] is taken as the ASCII digits and
      [str.lower] as ASCII lower-casing).
    - A call into Selenium, the file system or the clock is an observation
      supplied by the environment.  An observation that can raise has type
      [result A].
    - [try]/[except] blocks are written with [try_except]; which exception
      classes a handler catches is spelled out at each handler.
    - Python sets of candidate identifiers are [gset string]; the
      insertion-ordered [dict] of [get_candidate_links] is an association
      list. *)

From stdpp Require Import base option list gmap sets strings.
From Stdlib Require Import ZArith Lia Ascii String Floats Sorted.

Local Open Scope string_scope.
Local Open Scope list_scope.

(** ** Exceptions and fallible observations *)

(** The exception classes the code distinguishes.  [PyException msg] is a
    plain [Exception(msg)], as raised by [navigate_to_candidate_list]. *)
Inductive exn : Type :=
  | NoSuchElementException
  | TimeoutException
  | StaleElementReferenceException
  | WebDriverException
  | AttributeError
  | OSError
  | PyException (msg : string).

Inductive result (A : Type) : Type :=
  | Ok (a : A)
  | Raise (e : exn).
Arguments Ok {A} a.
Arguments Raise {A} e.

Definition is_no_such_element (e : exn) : bool :=
  match e with NoSuchElementException => true | _ => false end.

Definition rbind {A B} (c : result A) (k : A -> result B) : result B :=
  match c with
  | Ok a => k a
  | Raise e => Raise e
  end.

(** [try: c  except <classes picked by catches> : h] *)
Definition try_except {A} (catches : exn -> bool) (c : result A)
    (h : exn -> result A) : result A :=
  match c with
  | Ok a => Ok a
  | Raise e => if catches e then h e else Raise e
  end.

(** [except Exception] and a bare [except:] catch every class above. *)
Definition any_exception (_ : exn) : bool := true.

(** Sequencing of fallible steps: the first exception ends the block. *)
Notation "'let!' x ':=' c 'in' k" := (rbind c (fun x => k))
  (at level 10, x name, c at level 100, k at level 200,
   format "'[' 'let!'  x  ':='  c  'in'  '/' k ']'").

(** ** Python string operations used by the code *)

Module Str.

Definition startswith (s p : string) : bool := String.prefix p s.

(** [needle in hay] *)
Fixpoint contains (needle hay : string) : bool :=
  String.prefix needle hay ||
  match hay with
  | EmptyString => false
  | String _ rest => contains needle rest
  end.

Definition is_upper (c : ascii) : bool :=
  let n := nat_of_ascii c in (65 <=? n)%nat && (n <=? 90)%nat.

Definition lower_char (c : ascii) : ascii :=
  if is_upper c then ascii_of_nat (nat_of_ascii c + 32) else c.

Fixpoint lower (s : string) : string :=
  match s with
  | EmptyString => EmptyString
  | String c rest => String (lower_char c) (lower rest)
  end.

Definition is_digit (c : ascii) : bool :=
  let n := nat_of_ascii c in (48 <=? n)%nat && (n <=? 57)%nat.

Definition is_empty (s : string) : bool :=
  match s with EmptyString => true | _ => false end.

Fixpoint all_digits (s : string) : bool :=
  match s with
  | EmptyString => true
  | String c rest => is_digit c && all_digits rest
  end.

(** [s.endswith(p)]: some suffix of [s] is [p]. *)
Fixpoint endswith (s p : string) : bool :=
  String.eqb s p ||
  match s with
  | EmptyString => false
  | String _ rest => endswith rest p
  end.

End Str.

(** ** Login-state detection: [check_login_required] *)

Module Login.

Section WithElements.
(** The type of WebElement handles. *)
Context {elem : Type}.

(** What the driver shows when [check_login_required] runs. *)
Record page : Type := Page {
  current_url : result string;               (* driver.current_url *)
  find_element : string -> result elem;      (* driver.find_element(By.XPATH, xpath) *)
  is_displayed : elem -> result bool         (* element.is_displayed() *)
}.

Definition login_indicators : list string :=
  [ "//input[@type='email']";
    "//input[@type='password']";
    "//button[contains(text(), 'Sign in')]";
    "//button[contains(text(), 'Log in')]";
    "//a[contains(text(), 'Sign in')]";
    "//a[contains(text(), 'Log in')]" ].

(** One iteration of the [for xpath in login_indicators] body, inside its
    [try] / [except NoSuchElementException: continue].  [Ok true] stands
    for [return True], [Ok false] for falling through to the next
    indicator. *)
Definition probe_indicator (p : page) (xpath : string) : result bool :=
  try_except is_no_such_element
    (let! element := find_element p xpath in
     is_displayed p element)
    (fun _ => Ok false).

Fixpoint scan_indicators (p : page) (xpaths : list string) : result bool :=
  match xpaths with
  | [] => Ok false
  | xpath :: rest =>
      let! found := probe_indicator p xpath in
      if found then Ok true else scan_indicators p rest
  end.

(** The body of the outer [try] of [check_login_required]. *)
Definition classify (job_id : string) (p : page) : result bool :=
  let! url := current_url p in
  if Str.contains ("/job/" +:+ job_id +:+ "/candidate") url then Ok false
  else if Str.contains "login" (Str.lower url)
          || Str.contains "signin" (Str.lower url) then Ok true
  else scan_indicators p login_indicators.

Definition check_login_required (job_id : string) (p : page) : bool :=
  match try_except any_exception (classify job_id p) (fun _ => Ok false) with
  | Ok b => b
  | Raise _ => false
  end.

(** The URL tests did not decide: the code goes on to the indicators. *)
Definition url_undecided (job_id url : string) : Prop :=
  Str.contains ("/job/" +:+ job_id +:+ "/candidate") url = false /\
  Str.contains "login" (Str.lower url) = false /\
  Str.contains "signin" (Str.lower url) = false.

(** An indicator that neither reports a login control nor fails
    unexpectedly: the loop continues past it. *)
Definition indicator_skipped (p : page) (xpath : string) : Prop :=
  find_element p xpath = Raise NoSuchElementException \/
  exists el, find_element p xpath = Ok el /\
    (is_displayed p el = Ok false \/
     is_displayed p el = Raise NoSuchElementException).

(** An exception other than the expected [NoSuchElementException] comes
    out of the probe of [xpath]. *)
Definition indicator_fails (p : page) (xpath : string) (e : exn) : Prop :=
  is_no_such_element e = false /\
  (find_element p xpath = Raise e \/
   exists el, find_element p xpath = Ok el /\ is_displayed p el = Raise e).

(** The ways an unexpected exception can arise while the page is being
    classified: reading the URL fails, or the URL tests are undecided
    and, after some indicators have been skipped, the probe of the next
    one fails with a class the inner handler does not catch. *)
Inductive unexpected_exception (job_id : string) (p : page) (e : exn) : Prop :=
  | url_read_fails :
      current_url p = Raise e ->
      unexpected_exception job_id p e
  | probe_fails url skipped xpath later :
      current_url p = Ok url ->
      url_undecided job_id url ->
      login_indicators = skipped ++ xpath :: later ->
      Forall (indicator_skipped p) skipped ->
      indicator_fails p xpath e ->
      unexpected_exception job_id p e.

End WithElements.
Arguments page : clear implicits.

End Login.

(** ** The two regular expressions of the code *)

Module Re.

(** [strip_prefix p s]: the rest of [s] after the literal [p], if [s]
    starts with it. *)
Fixpoint strip_prefix (p s : string) : option string :=
  match p with
  | EmptyString => Some s
  | String a p' =>
      match s with
      | EmptyString => None
      | String b s' => if Ascii.eqb a b then strip_prefix p' s' else None
      end
  end.

(** The longest run of digits at the start of [s] (greedy [\d+]), and what
    follows it. *)
Fixpoint take_digits (s : string) : string :=
  match s with
  | EmptyString => EmptyString
  | String c rest =>
      if Str.is_digit c then String c (take_digits rest) else EmptyString
  end.

Fixpoint drop_digits (s : string) : string :=
  match s with
  | EmptyString => EmptyString
  | String c rest => if Str.is_digit c then drop_digits rest else s
  end.

(** [r'/candidate/(\d+)'] anchored at the start of [s]: group 1. *)
Definition match_candidate_here (s : string) : option string :=
  match strip_prefix "/candidate/" s with
  | Some rest =>
      let digits := take_digits rest in
      if Str.is_empty digits then None else Some digits
  | None => None
  end.

(** [re.search(r'/candidate/(\d+)', s)]: the leftmost match; [None] when
    there is no match, otherwise [match.group(1)]. *)
Fixpoint search_candidate (s : string) : option string :=
  match match_candidate_here s with
  | Some digits => Some digits
  | None =>
      match s with
      | EmptyString => None
      | String _ rest => search_candidate rest
      end
  end.

Definition newline : ascii := ascii_of_nat 10.

(** [.*$] at the start of [s]: [.] does not match a newline and [$]
    matches at the end of the string or just before a final newline.
    Returns what is left unmatched (nothing, or that final newline). *)
Fixpoint match_rest_of_line (s : string) : option string :=
  match s with
  | EmptyString => Some EmptyString
  | String c rest =>
      if Ascii.eqb c newline then
        (if Str.is_empty rest then Some s else None)
      else match_rest_of_line rest
  end.

(** [r'/candidate/(\d+)/.*$'] anchored at the start of [s], with the
    replacement [r'/candidate/\1/profile'] already applied. *)
Definition sub_profile_here (s : string) : option string :=
  match strip_prefix "/candidate/" s with
  | Some rest =>
      let digits := take_digits rest in
      if Str.is_empty digits then None
      else
        match strip_prefix "/" (drop_digits rest) with
        | Some tail =>
            match match_rest_of_line tail with
            | Some unmatched =>
                Some ("/candidate/" +:+ digits +:+ "/profile" +:+ unmatched)
            | None => None
            end
        | None => None
        end
  | None => None
  end.

(** [re.sub(r'/candidate/(\d+)/.*$', r'/candidate/\1/profile', s)].  A match
    runs to the end of the string, so at most one replacement happens. *)
Fixpoint sub_profile (s : string) : string :=
  match sub_profile_here s with
  | Some replaced => replaced
  | None =>
      match s with
      | EmptyString => EmptyString
      | String c rest => String c (sub_profile rest)
      end
  end.

End Re.

(** ** Not-hired detection: [is_candidate_not_hired] *)

Module Dom.

Definition sel_not_hired : string := ".is-workflow-not-hired".
Definition sel_not_hired_quick : string :=
  ".is-workflow-not-hired, .jz-tag.is-workflow-not-hired".
Definition sel_workflow_tags : string :=
  ".jz-tag.is-workflow-not-hired, .jz-tag[class*='workflow']".

(** What Selenium answers about elements of the candidate list. *)
Record driver (elem : Type) : Type := Driver {
  get_attribute_class : elem -> result (option string);  (* e.get_attribute("class") *)
  get_attribute_href : elem -> result (option string);   (* e.get_attribute("href") *)
  parent : elem -> result elem;                          (* e.find_element(By.XPATH, "./..") *)
  find_elements_css : elem -> string -> result (list elem);
                                                         (* e.find_elements(By.CSS_SELECTOR, s) *)
  text : elem -> result string                           (* e.text *)
}.
Arguments get_attribute_class {elem}.
Arguments get_attribute_href {elem}.
Arguments parent {elem}.
Arguments find_elements_css {elem}.
Arguments text {elem}.

Section WithDriver.
Context {elem : Type} (d : driver elem).

(** [x or ""] *)
Definition or_empty (x : option string) : string := default "" x.

Definition nonempty {A} (l : list A) : bool :=
  match l with [] => false | _ => true end.

(** The inner [try] of the quick check: the immediate parent.  [Ok true]
    is [return True]; [Ok false] falls out of the block. *)
Definition quick_check_parent (element : elem) : result bool :=
  let! parent := parent d element in
  let! parent_class := get_attribute_class d parent in
  if Str.contains "is-workflow-not-hired" (or_empty parent_class) then Ok true
  else
    let! not_hired_tags := find_elements_css d parent sel_not_hired_quick in
    Ok (nonempty not_hired_tags).

(** The quick check, with both of its [except: pass] handlers. *)
Definition quick_check (element : elem) : result bool :=
  try_except any_exception
    (let! class := get_attribute_class d element in
     let classes := or_empty class in
     if Str.contains "is-workflow-not-hired" classes
        || Str.contains "not-hired" (Str.lower classes)
     then Ok true
     else try_except any_exception (quick_check_parent element)
            (fun _ => Ok false))
    (fun _ => Ok false).

(** [for tag in workflow_tags: if "not hired" in tag.text.lower(): return True] *)
Fixpoint some_tag_says_not_hired (workflow_tags : list elem) : result bool :=
  match workflow_tags with
  | [] => Ok false
  | tag :: rest =>
      let! tag_text := text d tag in
      if Str.contains "not hired" (Str.lower tag_text) then Ok true
      else some_tag_says_not_hired rest
  end.

Inductive level_outcome : Type :=
  | ReturnTrue
  | MoveTo (next : elem).

(** The body of the [try] inside [for level in range(3)]. *)
Definition inspect_level (parent_ : elem) : result level_outcome :=
  let! not_hired_elements := find_elements_css d parent_ sel_not_hired in
  if nonempty not_hired_elements then Ok ReturnTrue
  else
    let! workflow_tags := find_elements_css d parent_ sel_workflow_tags in
    let! said := some_tag_says_not_hired workflow_tags in
    if said then Ok ReturnTrue
    else
      let! up := parent d parent_ in
      Ok (MoveTo up).

(** [for level in range(levels)], with [except: break]. *)
Fixpoint climb (levels : nat) (parent_ : elem) : bool :=
  match levels with
  | O => false
  | S levels' =>
      match inspect_level parent_ with
      | Ok ReturnTrue => true
      | Ok (MoveTo up) => climb levels' up
      | Raise _ => false
      end
  end.

(** No exception escapes the inner handlers, so the outermost
    [except Exception: return False] never fires. *)
Definition is_candidate_not_hired (element : elem) : bool :=
  match quick_check element with
  | Ok true => true
  | _ => climb 3 element
  end.

(** *** What the inspections can see

    The same classification, read off the observations level by level: an
    observation that raises shows nothing. *)

Definition is_ok {A} (r : result A) : bool :=
  match r with Ok _ => true | Raise _ => false end.

(** The element's own [class] attribute carries a marker. *)
Definition own_marker (element : elem) : bool :=
  match get_attribute_class d element with
  | Ok class =>
      Str.contains "is-workflow-not-hired" (or_empty class)
      || Str.contains "not-hired" (Str.lower (or_empty class))
  | Raise _ => false
  end.

(** The immediate parent's [class] attribute carries the marker, or the
    parent has a descendant matching the quick selector. *)
Definition parent_marker (element : elem) : bool :=
  match parent d element with
  | Ok up =>
      match get_attribute_class d up with
      | Ok class => Str.contains "is-workflow-not-hired" (or_empty class)
      | Raise _ => false
      end
      || match find_elements_css d up sel_not_hired_quick with
         | Ok found => nonempty found
         | Raise _ => false
         end
  | Raise _ => false
  end.

(** A descendant of [x] has the class [is-workflow-not-hired]. *)
Definition marked_subtree (x : elem) : bool :=
  match find_elements_css d x sel_not_hired with
  | Ok found => nonempty found
  | Raise _ => false
  end.

Definition says_not_hired (tag : elem) : bool :=
  match text d tag with
  | Ok tag_text => Str.contains "not hired" (Str.lower tag_text)
  | Raise _ => false
  end.

(** A workflow tag below [x] reads "not hired". *)
Definition tagged_subtree (x : elem) : bool :=
  match find_elements_css d x sel_workflow_tags with
  | Ok workflow_tags => existsb says_not_hired workflow_tags
  | Raise _ => false
  end.

Definition level_marker (x : elem) : bool :=
  marked_subtree x || tagged_subtree x.

(** A marker below [x] or below one of the next [levels - 1] ancestors. *)
Fixpoint levels_marker (levels : nat) (x : elem) : bool :=
  match levels with
  | O => false
  | S levels' =>
      level_marker x
      || match parent d x with
         | Ok up => levels_marker levels' up
         | Raise _ => false
         end
  end.

Definition marker_seen (element : elem) : bool :=
  own_marker element || parent_marker element || levels_marker 3 element.

(** Every observation the loop makes at [x] succeeds. *)
Definition level_ok (x : elem) : bool :=
  match find_elements_css d x sel_not_hired,
        find_elements_css d x sel_workflow_tags with
  | Ok _, Ok workflow_tags => forallb (fun tag => is_ok (text d tag)) workflow_tags
  | _, _ => false
  end.

(** No inspection of the element, its parent and its grandparent raises. *)
Definition error_free (element : elem) : bool :=
  is_ok (get_attribute_class d element)
  && level_ok element
  && match parent d element with
     | Ok up =>
         is_ok (get_attribute_class d up)
         && is_ok (find_elements_css d up sel_not_hired_quick)
         && level_ok up
         && match parent d up with
            | Ok up2 => level_ok up2
            | Raise _ => false
            end
     | Raise _ => false
     end.

End WithDriver.

End Dom.

(** A concrete document: a tree of nodes, for stating where a marker sits
    relative to a candidate element. *)
Module Tree.

#[warnings="-register-all"] Inductive node : Type :=
  | Node (class : option string) (href : option string) (text : string)
         (children : list node).

Definition node_class (n : node) : option string :=
  match n with Node c _ _ _ => c end.
Definition node_href (n : node) : option string :=
  match n with Node _ h _ _ => h end.
Definition node_text (n : node) : string :=
  match n with Node _ _ t _ => t end.
Definition node_children (n : node) : list node :=
  match n with Node _ _ _ cs => cs end.

(** An element handle is the path of child indices leading to it, the
    innermost index first, so that the tail of a path is the parent. *)
Definition elem : Type := list nat.

Fixpoint walk (n : node) (down : list nat) : option node :=
  match down with
  | [] => Some n
  | i :: down' =>
      match node_children n !! i with
      | Some child => walk child down'
      | None => None
      end
  end.

Definition resolve (root : node) (e : elem) : option node :=
  walk root (rev e).

(** The paths, relative to [n], of its proper descendants in document
    order: what [querySelectorAll] ranges over. *)
Fixpoint descendants (n : node) : list (list nat) :=
  match n with
  | Node _ _ _ children =>
      (fix over (cs : list node) (i : nat) : list (list nat) :=
         match cs with
         | [] => []
         | c :: cs' =>
             ([i] :: map (cons i) (descendants c)) ++ over cs' (S i)
         end) children O
  end.

Definition class_attr (n : node) : string := Dom.or_empty (node_class n).

Definition has_class (token : string) (n : node) : bool :=
  bool_decide (token ∈ String.words (class_attr n)).

(** The three CSS selectors [is_candidate_not_hired] uses. *)
Definition matches (selector : string) (n : node) : bool :=
  if String.eqb selector Dom.sel_not_hired then
    has_class "is-workflow-not-hired" n
  else if String.eqb selector Dom.sel_not_hired_quick then
    has_class "is-workflow-not-hired" n
  else if String.eqb selector Dom.sel_workflow_tags then
    has_class "jz-tag" n &&
    (has_class "is-workflow-not-hired" n || Str.contains "workflow" (class_attr n))
  else false.

Definition on_node {A} (root : node) (e : elem) (f : node -> A) : result A :=
  match resolve root e with
  | Some n => Ok (f n)
  | None => Raise StaleElementReferenceException
  end.

Definition select (root : node) (e : elem) (selector : string)
    (n : node) : list elem :=
  List.filter (fun q => match resolve root q with
                    | Some m => matches selector m
                    | None => false
                    end)
         (map (fun down => rev down ++ e) (descendants n)).

(** The Selenium view of the document rooted at [root]. *)
Definition driver (root : node) : Dom.driver elem :=
  {| Dom.get_attribute_class e := on_node root e node_class;
     Dom.get_attribute_href e := on_node root e node_href;
     Dom.parent e :=
       match e with
       | [] => Raise NoSuchElementException
       | _ :: up => on_node root e (fun _ => up)
       end;
     Dom.find_elements_css e selector :=
       on_node root e (select root e selector);
     Dom.text e := on_node root e node_text |}.

(** The ancestor chain: level 0 is the element, level 1 its parent, ... *)
Definition ancestor (level : nat) (e : elem) : elem := drop level e.

(** The element at [level] of the chain of [e] carries the class marker. *)
Definition carries_marker (root : node) (e : elem) (level : nat) : Prop :=
  exists n, (level <= List.length e)%nat /\ resolve root (ancestor level e) = Some n /\
            has_class "is-workflow-not-hired" n = true.

End Tree.

(** ** What the automation does, as a trace *)

Inductive log_line : Type :=
  | LoginRequiredHeadless        (* "LOGIN REQUIRED IN HEADLESS MODE" *)
  | CancelledDuringLoginWait     (* "Download cancelled during login wait" *)
  | LoginTimeout                 (* "Login timeout after 10 minutes. ..." *)
  | NoCandidatesRetrying         (* "No candidate links found. ..." / "Waiting 10 seconds and retrying..." *)
  | NoCandidatesAfterRetry       (* "Still no candidate links found after retry. ..." / "Exiting." *)
  | CancelledByUser              (* "Download cancelled by user" *)
  | ProcessingCandidate (i n : nat)      (* "Processing candidate {i}/{n}" *)
  | DownloadedResume (i n : nat)         (* "Successfully downloaded resume {i}/{n}" *)
  | FailedResume (i n : nat)             (* "Failed to download resume {i}/{n}" *)
  | ErrorProcessingCandidate (i : nat)   (* "Error processing candidate {i}: ..." *)
  | Summary (found unique_found downloaded unique_downloaded failed : nat)
  | ErrorInDownloadProcess.      (* "Error in download process: ..." *)

Inductive event : Type :=
  | DriverStart                       (* webdriver.Chrome(...) *)
  | AddCookie (name : string)         (* driver.add_cookie *)
  | DriverGet (url : string)          (* driver.get(url) *)
  | DriverQuit                        (* driver.quit() *)
  | Sleep (ms : Z)                    (* time.sleep, in milliseconds *)
  | ScrollToBottom                    (* window.scrollTo(0, document.body.scrollHeight) *)
  | ScrollToTop                       (* window.scrollTo(0, 0) *)
  | FindElements (selector : string)  (* driver.find_elements on the candidate list *)
  | ClickResume                       (* the click on the located file element *)
  | MoveFile (name : string)          (* shutil.move into the output directory *)
  | Log (line : log_line).

Definition trace : Type := list event.

(** Virtual time: only [time.sleep] lets time pass. *)
Definition duration (ev : event) : Z :=
  match ev with Sleep ms => ms | _ => 0 end.

Definition elapsed (t : trace) : Z := foldr (fun ev acc => duration ev + acc)%Z 0%Z t.

Definition is_scroll_to_bottom (ev : event) : bool :=
  match ev with ScrollToBottom => true | _ => false end.
Definition is_find_elements (ev : event) : bool :=
  match ev with FindElements _ => true | _ => false end.

(** Whether the viewport is at the top of the page when the first
    extraction query is made, following the scroll events of the trace;
    [at_top] says where it is before the trace starts.  A trace without
    extraction passes. *)
Fixpoint at_top_when_extracting (at_top : bool) (t : trace) : bool :=
  match t with
  | [] => true
  | ScrollToBottom :: rest => at_top_when_extracting false rest
  | ScrollToTop :: rest => at_top_when_extracting true rest
  | FindElements _ :: _ => at_top
  | _ :: rest => at_top_when_extracting at_top rest
  end.

(** The scroll events: the loop only scrolls down and sleeps. *)
Definition scroll_down_only (t : trace) : Prop :=
  Forall (fun ev => ev = ScrollToBottom \/ exists ms, ev = Sleep ms) t.

(** ** Scrolling: [scroll_to_load_all_candidates] *)

Module Scroll.

Record page : Type := Page {
  (** [document.body.scrollHeight] at its [j]-th reading: reading 0 is
      the one before the loop, reading [j+1] the one of iteration [j]. *)
  scroll_height : nat -> result Z;
  (** [self.cancelled] as read at the top of iteration [j]. *)
  cancelled : nat -> bool
}.

Definition max_scroll_attempts : nat := 50.

Inductive loop_exit : Type :=
  | LoopEnded (scroll_attempts : nat)   (* the condition failed, or [break] *)
  | LoopReturned                        (* [return] on cancellation *)
  | LoopRaised (e : exn).

(** The [while scroll_attempts < max_scroll_attempts] loop.  [remaining]
    is [max_scroll_attempts - scroll_attempts]; it goes down by one
    with every iteration that does not leave the loop. *)
Fixpoint scroll_loop (p : page) (remaining scroll_attempts : nat)
    (last_height : Z) (no_change_count : nat) (done : trace)
    : loop_exit * trace :=
  match remaining with
  | O => (LoopEnded scroll_attempts, done)
  | S remaining' =>
      if cancelled p scroll_attempts then (LoopReturned, done)
      else
        let done := done ++ [ScrollToBottom; Sleep 2000] in
        match scroll_height p (S scroll_attempts) with
        | Raise e => (LoopRaised e, done)
        | Ok new_height =>
            if (new_height =? last_height)%Z then
              let no_change_count := S no_change_count in
              if (3 <=? no_change_count)%nat
              then (LoopEnded scroll_attempts, done)
              else scroll_loop p remaining' (S scroll_attempts)
                     new_height no_change_count done
            else scroll_loop p remaining' (S scroll_attempts)
                   new_height O done
        end
  end.

Definition scroll_to_load_all_candidates (p : page) : result unit * trace :=
  match scroll_height p O with
  | Raise e => (Raise e, [])
  | Ok last_height =>
      match scroll_loop p max_scroll_attempts O last_height O [] with
      | (LoopEnded _, done) => (Ok tt, done ++ [ScrollToTop; Sleep 1000])
      | (LoopReturned, done) => (Ok tt, done)
      | (LoopRaised e, done) => (Raise e, done)
      end
  end.

(** The number of times the loop body ran: one scroll to the bottom each. *)
Definition iterations (t : trace) : nat :=
  List.length (List.filter is_scroll_to_bottom t).

(** Iteration [j] reads the same height as the reading before it. *)
Definition unchanged (p : page) (j : nat) : Prop :=
  exists h, scroll_height p j = Ok h /\ scroll_height p (S j) = Ok h.

(** The height stops changing after [k] scrolls. *)
Definition stable_after (p : page) (k : nat) : Prop :=
  forall j, (k <= j)%nat -> unchanged p j.

(** The cancellation flag is not seen set inside the loop. *)
Definition never_cancelled (p : page) : Prop :=
  forall j, cancelled p j = false.

End Scroll.

(** ** Enumeration: [get_candidate_links] *)

Module Enumerate.

(** The candidate list page as Selenium shows it once scrolling is over. *)
Record list_page (elem : Type) : Type := ListPage {
  dom : Dom.driver elem;
  find_elements : string -> result (list elem);  (* driver.find_elements(By.CSS_SELECTOR, s) *)
  row_link : elem -> result elem;                (* row.find_element(By.TAG_NAME, "a") *)
  row_is_clickable : elem -> result bool
    (* row.get_attribute("onclick") or row.get_attribute("data-href") *)
}.
Arguments dom {elem}.
Arguments find_elements {elem}.
Arguments row_link {elem}.
Arguments row_is_clickable {elem}.

Definition selectors : list string :=
  [ "a[href*='/candidate/']";
    "a[href*='/applicant/']";
    ".candidate-link";
    ".applicant-link";
    "[data-candidate-id]";
    "tr[data-candidate-id] a";
    ".candidate-row a";
    ".applicant-row a" ].

Definition rows_selector : string := "tr, .candidate-row, .applicant-row".

Definition base_url : string := "https://app.jazz.co/app/v2".

(** [f"https://app.jazz.co/app/v2/job/{self.job_id}/candidate/{candidate_id}/profile"] *)
Definition profile_url (job_id candidate_id : string) : string :=
  base_url +:+ "/job/" +:+ job_id +:+ "/candidate/" +:+ candidate_id +:+ "/profile".

(** A job identifier that brings no [/candidate/<digits>] of its own into
    the profile URLs built from it; an identifier without a slash, such as
    the numeric ones of the platform, is of this kind. *)
Definition job_id_plain (job_id : string) : bool :=
  match Re.search_candidate ("/" +:+ job_id +:+ "/candidate/") with
  | None => true
  | Some _ => false
  end.

(** [link] is not opened as a URL, or it is the profile URL of one of the
    candidates in [ids]. *)
Definition tracked (job_id : string) (ids : gset string) (link : string) : Prop :=
  Str.startswith link "http" = true ->
  exists candidate_id,
    candidate_id ∈ ids /\ Str.all_digits candidate_id = true /\
    Str.is_empty candidate_id = false /\ link = profile_url job_id candidate_id.

(** The insertion-ordered [candidate_dict]: candidate id -> href. *)
Definition candidate_dict : Type := list (string * string).

Definition dict_keys (dict : candidate_dict) : list string := fst <$> dict.
Definition dict_values (dict : candidate_dict) : list string := snd <$> dict.

(** [candidate_id in candidate_dict] *)
Definition in_dict (candidate_id : string) (dict : candidate_dict) : bool :=
  bool_decide (candidate_id ∈ dict_keys dict).

Section WithPage.
Context {elem : Type} (page : list_page elem).

(** [for selector in selectors]: the first selector whose query returns a
    non-empty list supplies [candidate_elements] and ends the loop; a query
    that raises or matches nothing moves on to the next selector. *)
Fixpoint first_matching (sels : list string) : list elem * trace :=
  match sels with
  | [] => ([], [])
  | selector :: rest =>
      match find_elements page selector with
      | Ok (e :: es) => (e :: es, [FindElements selector])
      | _ =>
          let '(found, queried) := first_matching rest in
          (found, FindElements selector :: queried)
      end
  end.

(** [for row in rows], inside the [try] of the row fallback: an exception
    while asking whether a row is clickable ends the loop with what has been
    collected so far. *)
Fixpoint collect_rows (rows : list elem) (candidate_elements : list elem)
    : list elem :=
  match rows with
  | [] => candidate_elements
  | row :: rest =>
      match row_link page row with
      | Ok link => collect_rows rest (candidate_elements ++ [link])
      | Raise _ =>
          match row_is_clickable page row with
          | Ok true => collect_rows rest (candidate_elements ++ [row])
          | Ok false => collect_rows rest candidate_elements
          | Raise _ => candidate_elements
          end
      end
  end.

Definition rows_fallback : list elem * trace :=
  match find_elements page rows_selector with
  | Ok rows => (collect_rows rows [], [FindElements rows_selector])
  | Raise _ => ([], [FindElements rows_selector])
  end.

Definition candidate_elements : list elem * trace :=
  let '(found, queried) := first_matching selectors in
  match found with
  | [] => let '(rows, queried') := rows_fallback in (rows, queried ++ queried')
  | _ => (found, queried)
  end.

(** The body of [for idx, elem in enumerate(candidate_elements)], on the
    pair ([candidate_dict], [excluded_count]). *)
Definition process_element (acc : candidate_dict * nat) (element : elem)
    : candidate_dict * nat :=
  let '(dict, excluded_count) := acc in
  match Dom.get_attribute_href (dom page) element with
  | Raise _ => acc
  | Ok None => acc
  | Ok (Some href) =>
      if Str.is_empty href
         || (negb (Str.contains "candidate" href)
             && negb (Str.contains "applicant" href))
      then acc
      else
        match Re.search_candidate href with
        | None => acc
        | Some candidate_id =>
            if in_dict candidate_id dict then acc
            else if Dom.is_candidate_not_hired (dom page) element
            then (dict, S excluded_count)
            else (dict ++ [(candidate_id, href)], excluded_count)
        end
  end.

Definition process_elements (elements : list elem) : candidate_dict * nat :=
  foldl process_element ([], O) elements.

(** The candidate an element stands for: its id and href, when the href
    passes the tests that come before the duplicate check. *)
Definition candidate_of (element : elem) : option (string * string) :=
  match Dom.get_attribute_href (dom page) element with
  | Ok (Some href) =>
      if Str.is_empty href
         || (negb (Str.contains "candidate" href)
             && negb (Str.contains "applicant" href))
      then None
      else
        match Re.search_candidate href with
        | Some candidate_id => Some (candidate_id, href)
        | None => None
        end
  | _ => None
  end.

(** A selector the cascade passes over: its query matches nothing or
    raises. *)
Definition yields_nothing (selector : string) : Prop :=
  find_elements page selector = Ok [] \/ exists e, find_elements page selector = Raise e.

End WithPage.

(** One step of the normalisation loop; every link is a [str] here. *)
Definition normalize_link (job_id link : string) : string :=
  if Str.startswith link "http" then
    match Re.search_candidate link with
    | Some candidate_id => profile_url job_id candidate_id
    | None => link
    end
  else link.

(** What [get_candidate_links] hands back: the list it returns and, unless an
    exception cut it short, the value it stores in [self.all_candidate_ids]. *)
Record enumeration : Type := Enumeration {
  links : list string;
  candidate_ids : option (gset string);
  excluded : nat
}.

Definition get_candidate_links {elem : Type} (job_id : string)
    (scroll : Scroll.page) (page : list_page elem) : enumeration * trace :=
  match Scroll.scroll_to_load_all_candidates scroll with
  | (Raise _, scrolled) =>
      (Enumeration [] None O, Sleep 3000 :: scrolled)
  | (Ok _, scrolled) =>
      let '(elements, queried) := candidate_elements page in
      let '(dict, excluded_count) := process_elements page elements in
      (Enumeration (normalize_link job_id <$> dict_values dict)
                   (Some (list_to_set (dict_keys dict)))
                   excluded_count,
       Sleep 3000 :: scrolled ++ queried)
  end.

End Enumerate.

(** ** Download verification: [verify_download] *)

Module Verify.

(** A directory entry with what [stat] says about it; [stat] on a listed
    entry is taken to succeed.  Times are in milliseconds. *)
Record entry : Type := Entry {
  name : string;
  is_file : bool;
  st_size : Z;
  st_mtime : Z
}.

(** What the file system shows while one call of [verify_download] runs. *)
Record view : Type := View {
  (** How many times the clock lets the [while time.time() - start_time <
      wait_time] condition hold. *)
  polls : nat;
  (** [self.output_dir] at the [c]-th call of [get_downloaded_files]: call 0
      is the initial snapshot, calls [1 .. polls] are the polls, the two
      calls after that are the count check and the search for the newest
      file.  [None]: the directory does not exist. *)
  output_dir : nat -> option (list entry);
  (** [~/Downloads] when [check_chrome_downloads_folder] runs. *)
  downloads_dir : option (list entry);
  (** [time.time()] at that moment. *)
  current_time : Z;
  (** [shutil.move(target, output_dir / name)] *)
  move : string -> result unit
}.

Definition check_interval : Z := 500.
Definition recent_window : Z := 120000.

(** [get_downloaded_files] on one listing. *)
Definition get_downloaded_files (listing : option (list entry)) : list entry :=
  match listing with
  | None => []
  | Some entries =>
      List.filter (fun f => is_file f && negb (Str.startswith (name f) ".")) entries
  end.

(** [current_files - initial_files], paths compared by name. *)
Definition new_files (initial current : list entry) : list entry :=
  List.filter (fun f => negb (bool_decide (name f ∈ map name initial))) current.

(** [for new_file in new_files: if new_file.stat().st_size > 0: ...] *)
Definition first_nonempty (files : list entry) : option entry :=
  List.find (fun f => (0 <? st_size f)%Z) files.

(** The polling loop: [left] iterations are still allowed by the clock,
    [call] counts the calls of [get_downloaded_files] made so far. *)
Fixpoint poll (v : view) (initial : list entry) (left call : nat)
    : option entry * trace :=
  match left with
  | O => (None, [])
  | S left' =>
      let current := get_downloaded_files (output_dir v call) in
      match first_nonempty (new_files initial current) with
      | Some new_file => (Some new_file, [])
      | None =>
          let '(found, slept) := poll v initial left' (S call) in
          (found, Sleep check_interval :: slept)
      end
  end.

(** [sorted(files, key=lambda f: f.stat().st_mtime, reverse=True)[0]]: the
    sort is stable, so among the files with the latest modification time
    the first listed one comes first. *)
Definition newest (files : list entry) : option entry :=
  foldl (fun best f =>
           match best with
           | None => Some f
           | Some b => if (st_mtime b <? st_mtime f)%Z then Some f else Some b
           end) None files.

(** [check_chrome_downloads_folder] *)
Definition check_chrome_downloads_folder (v : view) : list entry :=
  match downloads_dir v with
  | None => []
  | Some entries =>
      List.filter (fun f => Str.endswith (name f) ".pdf"
                            && (current_time v - st_mtime f <? recent_window)%Z)
                  entries
  end.

(** The result of [verify_download] and the path it appends to
    [self.downloaded_files], if any. *)
Record verdict : Type := Verdict {
  verified : bool;
  recorded : option string
}.

Definition count_check (v : view) (initial : list entry) : option entry :=
  let initial_count := size (list_to_set (map name initial) : gset string) in
  let final_count := List.length (get_downloaded_files (output_dir v (S (polls v)))) in
  if (initial_count <? final_count)%nat then
    match newest (get_downloaded_files (output_dir v (S (S (polls v))))) with
    | Some f => if (0 <? st_size f)%Z then Some f else None
    | None => None
    end
  else None.

Definition downloads_fallback (v : view) : verdict * trace :=
  match check_chrome_downloads_folder v with
  | target_file :: _ =>
      match move v (name target_file) with
      | Ok _ => (Verdict true (Some (name target_file)), [MoveFile (name target_file)])
      | Raise _ => (Verdict false None, [])
      end
  | [] => (Verdict false None, [])
  end.

Definition verify_download (v : view) : verdict * trace :=
  let initial_files := get_downloaded_files (output_dir v O) in
  match poll v initial_files (polls v) 1 with
  | (Some new_file, slept) => (Verdict true (Some (name new_file)), slept)
  | (None, slept) =>
      match count_check v initial_files with
      | Some newest_file => (Verdict true (Some (name newest_file)), slept)
      | None =>
          let '(verdict, moved) := downloads_fallback v in
          (verdict, slept ++ moved)
      end
  end.

(** The two outcomes of a verification. *)
Inductive outcome : Type := Verified | VerificationFailed.

Definition outcome_of (v : view) : outcome :=
  if verified (fst (verify_download v)) then Verified else VerificationFailed.

(** A download produced only a zero-byte file: every file that is new in the
    output directory, and every recent PDF of the default download location,
    has size zero, and there is at least one such file. *)
Definition only_zero_byte_files (v : view) : Prop :=
  (forall c f, f ∈ new_files (get_downloaded_files (output_dir v O))
                            (get_downloaded_files (output_dir v c)) ->
               st_size f = 0%Z) /\
  (forall f, f ∈ check_chrome_downloads_folder v -> st_size f = 0%Z) /\
  ((exists c f, f ∈ new_files (get_downloaded_files (output_dir v O))
                             (get_downloaded_files (output_dir v c))) \/
   (exists f, f ∈ check_chrome_downloads_folder v)).

End Verify.

(** ** The downloader object *)

Record downloader : Type := Downloader {
  driver : bool;                             (* [self.driver] is not [None] *)
  downloaded_count : nat;
  failed_count : nat;
  downloaded_files : list string;
  downloaded_candidate_ids : gset string;
  all_candidate_ids : gset string
}.

(** [__init__] *)
Definition new_downloader : downloader :=
  Downloader false 0 0 [] ∅ ∅.

Definition count_failure (self : downloader) : downloader :=
  Downloader (driver self) (downloaded_count self) (S (failed_count self))
    (downloaded_files self) (downloaded_candidate_ids self) (all_candidate_ids self).

Definition record_file (file : option string) (self : downloader) : downloader :=
  Downloader (driver self) (downloaded_count self) (failed_count self)
    (downloaded_files self ++ option_list file)
    (downloaded_candidate_ids self) (all_candidate_ids self).

(** [self.downloaded_count += 1] and, when an id was extracted,
    [self.downloaded_candidate_ids.add(candidate_id)] *)
Definition count_download (candidate_id : option string) (self : downloader)
    : downloader :=
  Downloader (driver self) (S (downloaded_count self)) (failed_count self)
    (downloaded_files self)
    (match candidate_id with
     | Some id => {[ id ]} ∪ downloaded_candidate_ids self
     | None => downloaded_candidate_ids self
     end)
    (all_candidate_ids self).

Definition set_all_candidate_ids (ids : gset string) (self : downloader)
    : downloader :=
  Downloader (driver self) (downloaded_count self) (failed_count self)
    (downloaded_files self) (downloaded_candidate_ids self) ids.

Definition set_driver (open : bool) (self : downloader) : downloader :=
  Downloader open (downloaded_count self) (failed_count self)
    (downloaded_files self) (downloaded_candidate_ids self) (all_candidate_ids self).

(** ** The per-candidate fetch: [download_resume_from_profile] *)

Module Fetch.

(** What happens on a candidate's profile page.  The search for the
    Documents section and the cascade of document locators are taken by
    their result. *)
Record profile : Type := Profile {
  (** [driver.get(candidate_url)], the waits and the locator cascade:
      [Raise e] when an exception reaches one of the handlers of the
      function, [Ok false] when no file element is found, [Ok true] when
      one is. *)
  located : result bool;
  scroll_into_view : result unit;   (* execute_script("arguments[0].scrollIntoView(true);", ...) *)
  click : result unit;              (* file_element.click() *)
  js_click : result unit;           (* execute_script("arguments[0].click();", ...) *)
  files : Verify.view
}.

(** The URL the profile is opened at: [candidate_url] unless it does not
    end with [/profile], in which case the [re.sub] rewrites it. *)
Definition profile_target (candidate_url : string) : string :=
  if Str.endswith candidate_url "/profile" then candidate_url
  else Re.sub_profile candidate_url.

(** From "Found resume file" on. *)
Definition trigger_and_verify (self : downloader) (candidate_url : string)
    (p : profile) : (bool * downloader) * trace :=
  match scroll_into_view p with
  | Raise _ => ((false, count_failure self), [])
  | Ok _ =>
      match try_except any_exception (click p) (fun _ => js_click p) with
      | Raise _ => ((false, count_failure self), [Sleep 1000; ClickResume])
      | Ok _ =>
          let candidate_id := Re.search_candidate candidate_url in
          let '(verdict, waited) := Verify.verify_download (files p) in
          let self := record_file (Verify.recorded verdict) self in
          if Verify.verified verdict
          then ((true, count_download candidate_id self),
                Sleep 1000 :: ClickResume :: waited)
          else ((false, count_failure self),
                Sleep 1000 :: ClickResume :: waited)
      end
  end.

(** [candidate_url] is always a [str] in a run.  One that does not start
    with [http] is taken for a WebElement: it has neither [get_attribute]
    nor [click], the [AttributeError] of [candidate_url.click()] reaches the
    outermost handler. *)
Definition download_resume_from_profile (self : downloader)
    (candidate_url : string) (p : profile) : (bool * downloader) * trace :=
  if Str.startswith candidate_url "http" then
    let candidate_url := profile_target candidate_url in
    match located p with
    | Raise _ => ((false, count_failure self), [DriverGet candidate_url])
    | Ok false =>
        ((false, count_failure self), [DriverGet candidate_url; Sleep 3000])
    | Ok true =>
        let '(r, t) := trigger_and_verify self candidate_url p in
        (r, DriverGet candidate_url :: Sleep 3000 :: t)
    end
  else ((false, count_failure self), []).

End Fetch.

(** ** Waiting for an interactive login: [wait_for_login] *)

Module LoginWait.

Record view : Type := View {
  cancelled : nat -> bool;        (* [self.cancelled] at the top of iteration [j] *)
  login_required : nat -> bool    (* [self.check_login_required()] in iteration [j] *)
}.

Definition max_wait : Z := 600.
Definition check_interval : Z := 3.

(** [max_wait / check_interval] iterations at most. *)
Definition max_iterations : nat := 200.

(** The [while wait_time < max_wait] loop: [remaining] iterations are left
    before [wait_time] reaches [max_wait]. *)
Fixpoint wait_loop (v : view) (remaining iteration : nat) : bool * trace :=
  match remaining with
  | O => (false, [Log LoginTimeout])
  | S remaining' =>
      if cancelled v iteration then (false, [Log CancelledDuringLoginWait])
      else if negb (login_required v iteration)
      then (true, [Sleep (check_interval * 1000); Sleep 3000])
      else
        let '(r, t) := wait_loop v remaining' (S iteration) in
        (r, Sleep (check_interval * 1000) :: t)
  end.

Definition wait_for_login (v : view) : bool * trace :=
  wait_loop v max_iterations O.

End LoginWait.

(** ** The run: [download_all_resumes] *)

Module Run.

Record cookie : Type := Cookie {
  cookie_name : option string;
  cookie_value : option string;
  cookie_domain : option string;
  cookie_path : option string;
  cookie_secure : option bool;
  cookie_httpOnly : option bool
}.

(** The arguments of a run and the environment variables it reads. *)
Record config : Type := Config {
  job_id : string;
  cookies : option (list cookie);
  HEADLESS : option string;
  DISPLAY : option string
}.

(** [os.getenv("HEADLESS", "false").lower() == "true" or
     os.getenv("DISPLAY") is not None] *)
Definition use_headless (cfg : config) : bool :=
  String.eqb (Str.lower (default "false" (HEADLESS cfg))) "true"
  || bool_decide (is_Some (DISPLAY cfg)).

(** [not self.cookies] *)
Definition no_cookies (cfg : config) : bool :=
  match cookies cfg with
  | None | Some [] => true
  | Some (_ :: _) => false
  end.

(** The environment of a run, by virtual time (milliseconds since the run
    started). *)
Record world (elem : Type) : Type := World {
  chrome_starts : result unit;                 (* webdriver.Chrome(...) *)
  driver_get : Z -> string -> result unit;     (* driver.get(url) *)
  cancelled_at : Z -> bool;                    (* self.cancelled, set by cancel_download *)
  login_page_at : Z -> Login.page elem;
  scroll_height_at : Z -> result Z;
  list_page_at : Z -> Enumerate.list_page elem;
  profile_at : Z -> Fetch.profile              (* the profile opened at that time *)
}.
Arguments chrome_starts {elem}.
Arguments driver_get {elem}.
Arguments cancelled_at {elem}.
Arguments login_page_at {elem}.
Arguments scroll_height_at {elem}.
Arguments list_page_at {elem}.
Arguments profile_at {elem}.

Record state : Type := State {
  self : downloader;
  history : trace
}.

Definition now (st : state) : Z := elapsed (history st).

Definition initial_state : state := State new_downloader [].

(** Stateful, fallible steps.  The object and the history survive an
    exception. *)
Definition M (A : Type) : Type := state -> result A * state.

Definition ret {A} (a : A) : M A := fun st => (Ok a, st).
Definition raise {A} (e : exn) : M A := fun st => (Raise e, st).
Definition bind {A B} (c : M A) (k : A -> M B) : M B :=
  fun st =>
    match c st with
    | (Ok a, st') => k a st'
    | (Raise e, st') => (Raise e, st')
    end.
Definition try_catch {A} (c : M A) (h : exn -> M A) : M A :=
  fun st =>
    match c st with
    | (Ok a, st') => (Ok a, st')
    | (Raise e, st') => h e st'
    end.

Notation "'do!' x ':=' c 'in' k" := (bind c (fun x => k))
  (at level 10, x name, c at level 100, k at level 200,
   format "'[' 'do!'  x  ':='  c  'in'  '/' k ']'").

Definition emit (evs : trace) : M unit :=
  fun st => (Ok tt, State (self st) (history st ++ evs)).
Definition update (f : downloader -> downloader) : M unit :=
  fun st => (Ok tt, State (f (self st)) (history st)).
Definition clock : M Z := fun st => (Ok (now st), st).
Definition lift {A} (r : result A) : M A := fun st => (r, st).
(** A step that is a function of what it sees when it starts. *)
Definition observe {A} (f : Z -> downloader -> (A * downloader) * trace) : M A :=
  fun st =>
    let '((a, self'), t) := f (now st) (self st) in
    (Ok a, State self' (history st ++ t)).

(** [respects R c]: whatever [c] does to the object is within [R]. *)
Definition respects {A} (R : relation downloader) (c : M A) : Prop :=
  forall st r st', c st = (r, st') -> R (self st) (self st').

Section WithWorld.
Context {elem : Type} (cfg : config) (w : world elem).

Definition candidate_list_url : string :=
  "https://app.jazz.co/app/v2/job/" +:+ job_id cfg +:+ "/candidate?workflowStep=1".

(** [self.driver.get(url)] *)
Definition get (url : string) : M unit :=
  do! t := clock in
  do! _ := emit [DriverGet url] in
  lift (driver_get w t url).

(** [self.driver.get(url); time.sleep(5)] *)
Definition get_and_settle (url : string) : M unit :=
  do! _ := get url in
  emit [Sleep 5000].

Definition check_login_required : M bool :=
  do! t := clock in
  ret (Login.check_login_required (job_id cfg) (login_page_at w t)).

Definition read_cancelled : M bool :=
  do! t := clock in
  ret (cancelled_at w t).

(** The cookies that carry both a name and a value are added. *)
Definition cookie_events (cs : list cookie) : trace :=
  omap (fun c => match cookie_name c, cookie_value c with
                 | Some n, Some _ => Some (AddCookie n)
                 | _, _ => None
                 end) cs.

Definition load_cookies : M unit :=
  match cookies cfg with
  | None | Some [] => ret tt
  | Some cs =>
      do! _ := get "https://app.jazz.co" in
      emit (Sleep 2000 :: cookie_events cs)
  end.

Definition setup_driver : M unit :=
  do! _ := lift (chrome_starts w) in
  do! _ := update (set_driver true) in
  do! _ := emit [DriverStart] in
  if no_cookies cfg then ret tt else load_cookies.

(** [wait_for_login], started at time [t]: iteration [j] reads the flag at
    [t + 3 j] seconds and checks the login state three seconds later. *)
Definition login_wait_view (t : Z) : LoginWait.view :=
  {| LoginWait.cancelled j := cancelled_at w (t + 3000 * Z.of_nat j);
     LoginWait.login_required j :=
       Login.check_login_required (job_id cfg)
         (login_page_at w (t + 3000 * Z.of_nat (S j))) |}.

Definition wait_for_login : M bool :=
  observe (fun t self_ =>
    let '(r, waited) := LoginWait.wait_for_login (login_wait_view t) in
    ((r, self_), waited)).

Definition credentials_required : exn :=
  PyException "Login required but no cookies provided for headless mode".
Definition login_failed_or_timed_out : exn :=
  PyException "Login failed or timed out".
Definition authentication_failed : exn :=
  PyException "Authentication failed: Invalid or expired cookies".
Definition login_verification_failed : exn :=
  PyException "Login verification failed".

Definition navigate_to_candidate_list : M unit :=
  do! _ := get_and_settle candidate_list_url in
  do! login_required := check_login_required in
  if login_required then
    if use_headless cfg && no_cookies cfg then
      do! _ := emit [Log LoginRequiredHeadless] in
      raise credentials_required
    else
      do! _ := (if negb (use_headless cfg) then
                  do! login_success := wait_for_login in
                  if login_success then ret tt
                  else raise login_failed_or_timed_out
                else
                  do! _ := get_and_settle candidate_list_url in
                  do! still_required := check_login_required in
                  if still_required then raise authentication_failed
                  else ret tt) in
      do! _ := get_and_settle candidate_list_url in
      do! still_required := check_login_required in
      if still_required then raise login_verification_failed else ret tt
  else ret tt.

(** [get_candidate_links], started at time [t]: three seconds later the
    scrolling starts, one height reading every two seconds; the page is
    extracted when the scrolling is over. *)
Definition scroll_view (t : Z) : Scroll.page :=
  {| Scroll.scroll_height j := scroll_height_at w (t + 3000 + 2000 * Z.of_nat j);
     Scroll.cancelled j := cancelled_at w (t + 3000 + 2000 * Z.of_nat j) |}.

Definition extraction_time (t : Z) : Z :=
  t + 3000 + elapsed (snd (Scroll.scroll_to_load_all_candidates (scroll_view t))).

Definition get_candidate_links : M (list string) :=
  observe (fun t self_ =>
    let '(found, done) :=
      Enumerate.get_candidate_links (job_id cfg) (scroll_view t)
        (list_page_at w (extraction_time t)) in
    ((Enumerate.links found,
      match Enumerate.candidate_ids found with
      | Some ids => set_all_candidate_ids ids self_
      | None => self_
      end), done)).

Definition download_resume_from_profile (candidate_url : string) : M bool :=
  observe (fun t self_ =>
    Fetch.download_resume_from_profile self_ candidate_url (profile_at w t)).

(** The [try] block of the per-candidate loop, after the fetch. *)
Definition after_fetch (success : bool) (i n : nat) : M unit :=
  do! _ := emit [Log (if success then DownloadedResume i n else FailedResume i n)] in
  do! _ := (if (i <? n)%nat then
              do! _ := navigate_to_candidate_list in
              emit [Sleep 2000]
            else ret tt) in
  emit [Sleep 2000].

(** The [try] block of the per-candidate loop. *)
Definition process_candidate (candidate_url : string) (i n : nat) : M unit :=
  do! success := download_resume_from_profile candidate_url in
  after_fetch success i n.

(** Its [except Exception] handler. *)
Definition recover (i : nat) (_ : exn) : M unit :=
  do! _ := emit [Log (ErrorProcessingCandidate i)] in
  do! _ := update count_failure in
  try_catch navigate_to_candidate_list (fun _ => ret tt).

Inductive loop_exit : Type :=
  | LoopCompleted      (* the [for] loop ran out of candidates *)
  | LoopCancelled.     (* [return] at the top of an iteration *)

(** [for i, candidate_url in enumerate(candidate_links, 1)], with
    [n = len(candidate_links)]. *)
Fixpoint candidate_loop (candidate_links : list string) (i n : nat)
    : M loop_exit :=
  match candidate_links with
  | [] => ret LoopCompleted
  | candidate_url :: rest =>
      do! cancelled := read_cancelled in
      if cancelled then
        do! _ := emit [Log CancelledByUser] in
        ret LoopCancelled
      else
        do! _ := emit [Log (ProcessingCandidate i n)] in
        do! _ := try_catch (process_candidate candidate_url i n) (recover i) in
        candidate_loop rest (S i) n
  end.

Definition is_nil {A} (l : list A) : bool :=
  match l with [] => true | _ => false end.

Definition log_summary (n : nat) : M unit :=
  fun st =>
    emit [Log (Summary n (size (all_candidate_ids (self st)))
                       (downloaded_count (self st))
                       (size (downloaded_candidate_ids (self st)))
                       (failed_count (self st)))] st.

(** The first part of the [try] block of [download_all_resumes], up to the
    second [if not candidate_links]: set up, navigate, enumerate, and
    enumerate once more after ten seconds when nothing was found. *)
Definition find_candidates : M (list string) :=
  do! _ := setup_driver in
  do! _ := navigate_to_candidate_list in
  do! candidate_links := get_candidate_links in
  if is_nil candidate_links then
    do! _ := emit [Log NoCandidatesRetrying; Sleep 10000] in
    do! _ := navigate_to_candidate_list in
    get_candidate_links
  else ret candidate_links.

(** The [try] block of [download_all_resumes]. *)
Definition run_body : M unit :=
  do! candidate_links := find_candidates in
  if is_nil candidate_links then emit [Log NoCandidatesAfterRetry]
  else
    do! exit := candidate_loop candidate_links 1 (List.length candidate_links) in
    match exit with
    | LoopCancelled => ret tt
    | LoopCompleted => log_summary (List.length candidate_links)
    end.

(** [finally: if self.driver: self.driver.quit()] *)
Definition release (st : state) : state :=
  if driver (self st) then State (self st) (history st ++ [DriverQuit]) else st.

Definition download_all_resumes : M unit :=
  fun st =>
    let '(r, st') :=
      try_catch run_body
        (fun e => do! _ := emit [Log ErrorInDownloadProcess] in raise e) st in
    (r, release st').

(** The state [download_with_progress] of the API server leaves the
    download in, from the way [download_all_resumes] ended. *)
Inductive status : Type := COMPLETED | FAILED | CANCELLED | LOGIN_REQUIRED.

Definition exn_message (e : exn) : string :=
  match e with
  | PyException msg => msg
  | NoSuchElementException => "NoSuchElementException"
  | TimeoutException => "TimeoutException"
  | StaleElementReferenceException => "StaleElementReferenceException"
  | WebDriverException => "WebDriverException"
  | AttributeError => "AttributeError"
  | OSError => "OSError"
  end.

Definition download_status (outcome : result unit * state) : status :=
  let '(r, st) := outcome in
  if cancelled_at w (now st) then CANCELLED
  else
    match r with
    | Ok _ => COMPLETED
    | Raise e =>
        if Str.contains "LOGIN_REQUIRED" (exn_message e) then LOGIN_REQUIRED
        else FAILED
    end.

End WithWorld.

End Run.

(** ** Auxiliary notions *)

(** Two states of the object agree on a field. *)
Definition same {A} (field : downloader -> A) : relation downloader :=
  fun a b => field a = field b.

(** Every entry of the dictionary is keyed by the id its href holds. *)
Definition keyed_by_href (dict : Enumerate.candidate_dict) : Prop :=
  forall candidate_id href,
    (candidate_id, href) ∈ dict -> Re.search_candidate href = Some candidate_id.

(** [settled_on page dict element]: processing [element] leaves [dict] as it
    is. *)
Definition settled_on {elem : Type} (page : Enumerate.list_page elem)
    (dict : Enumerate.candidate_dict) (element : elem) : Prop :=
  forall excluded,
    fst (Enumerate.process_element page (dict, excluded) element) = dict.

#[global] Instance same_preorder {A} (field : downloader -> A) : PreOrder (same field).
Proof.
  split.
  - intros a. reflexivity.
  - intros a b c Hab Hbc. unfold same in *. congruence.
Qed.

(** A field of the object that the counters and the file list do not
    touch. *)
Definition untouched_by_fetch {A} (field : downloader -> A) : Prop :=
  (forall self_, field (count_failure self_) = field self_) /\
  (forall file self_, field (record_file file self_) = field self_) /\
  (forall id self_, field (count_download id self_) = field self_).

(** What one fetch can do to the two sets of ids: the found ids stay, and
    the downloaded ids stay or gain the id read from the URL that was
    opened. *)
Definition fetch_step (candidate_url : string) : relation downloader :=
  fun before after =>
    all_candidate_ids after = all_candidate_ids before /\
    (downloaded_candidate_ids after = downloaded_candidate_ids before \/
     exists id,
       Str.startswith candidate_url "http" = true /\
       Re.search_candidate (Fetch.profile_target candidate_url) = Some id /\
       downloaded_candidate_ids after = {[ id ]} ∪ downloaded_candidate_ids before).

Definition both_id_sets (self_ : downloader) : gset string * gset string :=
  (downloaded_candidate_ids self_, all_candidate_ids self_).

(** The line the run logs last when the loop stops after the candidates
    [done], with [rest] still to go: the cancellation notice, or the summary
    when none is left. *)
Definition closing_line (rest : list string) (n : nat) (self_ : downloader)
    : log_line :=
  match rest with
  | [] =>
      Summary n (size (all_candidate_ids self_)) (downloaded_count self_)
        (size (downloaded_candidate_ids self_)) (failed_count self_)
  | _ :: _ => CancelledByUser
  end.

(** * Concrete pages, documents and worlds *)

(** A dashboard page on which the driver fails while the second login
    indicator is probed. *)
Definition broken_dashboard : Login.page nat :=
  {| Login.current_url := Ok "https://app.jazz.co/app/v2/dashboard";
     Login.find_element xpath :=
       if String.eqb xpath "//input[@type='email']"
       then Raise NoSuchElementException
       else Raise WebDriverException;
     Login.is_displayed _ := Ok true |}.

(** A document about which Selenium answers nothing. *)
Definition silent_dom : Dom.driver nat :=
  {| Dom.get_attribute_class _ := Raise StaleElementReferenceException;
     Dom.get_attribute_href _ := Raise StaleElementReferenceException;
     Dom.parent _ := Raise NoSuchElementException;
     Dom.find_elements_css _ _ := Raise StaleElementReferenceException;
     Dom.text _ := Raise StaleElementReferenceException |}.

(** A candidate list on which no selector matches anything. *)
Definition empty_list_page : Enumerate.list_page nat :=
  {| Enumerate.dom := silent_dom;
     Enumerate.find_elements _ := Ok [];
     Enumerate.row_link _ := Raise NoSuchElementException;
     Enumerate.row_is_clickable _ := Ok false |}.

(** A candidate list on which only the third selector, [.candidate-link],
    matches: elements 7 and 8. *)
Definition third_selector_page : Enumerate.list_page nat :=
  {| Enumerate.dom := silent_dom;
     Enumerate.find_elements selector :=
       if String.eqb selector ".candidate-link" then Ok [7; 8]%nat else Ok [];
     Enumerate.row_link _ := Raise NoSuchElementException;
     Enumerate.row_is_clickable _ := Ok false |}.

(** A page that grows by 100 pixels with each of the first two scrolls
    and then stays as it is; nobody cancels. *)
Definition settling_page : Scroll.page :=
  {| Scroll.scroll_height j := Ok (1000 + 100 * Z.of_nat (Nat.min j 2))%Z;
     Scroll.cancelled _ := false |}.

(** A page that keeps growing, with the cancellation flag set during the
    first scroll. *)
Definition cancelled_while_scrolling : Scroll.page :=
  {| Scroll.scroll_height j := Ok (1000 + 100 * Z.of_nat j)%Z;
     Scroll.cancelled j := (1 <=? j)%nat |}.

(** A table whose row carries the marker class: the candidate link sits two
    levels below the row.

    <table><tr class="candidate-row is-workflow-not-hired">
      <td><a class="candidate-link" href=".../candidate/5">Ann</a></td>
    </tr></table> *)
Definition marked_row_table : Tree.node :=
  Tree.Node None None ""
    [ Tree.Node (Some "candidate-row is-workflow-not-hired") None "Ann"
        [ Tree.Node None None "Ann"
            [ Tree.Node (Some "candidate-link")
                (Some "https://app.jazz.co/app/v2/job/10545457/candidate/5")
                "Ann" [] ] ] ].

(** The link of [marked_row_table]: child 0 of child 0 of child 0. *)
Definition ann : Tree.elem := [0; 0; 0]%nat.

(** A list whose second item holds a not-hired tag; the first candidate is
    not marked at all.

    <ul><li><a href=".../candidate/5">Ann</a></li>
        <li><a href=".../candidate/6">Bob</a>
            <span class="jz-tag is-workflow-not-hired">Not Hired</span></li></ul> *)
Definition shared_list : Tree.node :=
  Tree.Node None None "Ann Bob Not Hired"
    [ Tree.Node None None "Ann"
        [ Tree.Node None (Some "https://app.jazz.co/app/v2/job/10545457/candidate/5")
            "Ann" [] ];
      Tree.Node None None "Bob Not Hired"
        [ Tree.Node None (Some "https://app.jazz.co/app/v2/job/10545457/candidate/6")
            "Bob" [];
          Tree.Node (Some "jz-tag is-workflow-not-hired") None "Not Hired" [] ] ].

(** The first link of [shared_list]: child 0 of child 0. *)
Definition ann_in_list : Tree.elem := [0; 0]%nat.

(** A candidate list with one link that is not an [http] URL. *)
Definition ftp_dom : Dom.driver nat :=
  {| Dom.get_attribute_class _ := Ok None;
     Dom.get_attribute_href _ := Ok (Some "ftp://files.example/candidate/5");
     Dom.parent _ := Raise NoSuchElementException;
     Dom.find_elements_css _ _ := Ok [];
     Dom.text _ := Ok "" |}.

Definition ftp_link_page : Enumerate.list_page nat :=
  {| Enumerate.dom := ftp_dom;
     Enumerate.find_elements selector :=
       if String.eqb selector "a[href*='/candidate/']" then Ok [1]%nat else Ok [];
     Enumerate.row_link _ := Raise NoSuchElementException;
     Enumerate.row_is_clickable _ := Ok false |}.

(** The login page. *)
Definition login_page : Login.page nat :=
  {| Login.current_url := Ok "https://app.jazz.co/app/v2/login";
     Login.find_element _ := Ok 1%nat;
     Login.is_displayed _ := Ok true |}.

(** The candidate list of job 10545457, reached while logged in. *)
Definition candidate_list_page : Login.page nat :=
  {| Login.current_url :=
       Ok "https://app.jazz.co/app/v2/job/10545457/candidate?workflowStep=1";
     Login.find_element _ := Raise NoSuchElementException;
     Login.is_displayed _ := Ok false |}.

(** An output directory that stays empty, and no default download
    directory. *)
Definition nothing_arrives : Verify.view :=
  {| Verify.polls := 20;
     Verify.output_dir _ := Some [];
     Verify.downloads_dir := None;
     Verify.current_time := 0;
     Verify.move _ := Ok tt |}.

(** A profile without any document. *)
Definition profile_without_documents : Fetch.profile :=
  {| Fetch.located := Ok false;
     Fetch.scroll_into_view := Ok tt;
     Fetch.click := Ok tt;
     Fetch.js_click := Ok tt;
     Fetch.files := nothing_arrives |}.

(** An unattended run without cookies. *)
Definition headless_without_cookies : Run.config :=
  {| Run.job_id := "10545457";
     Run.cookies := None;
     Run.HEADLESS := Some "true";
     Run.DISPLAY := None |}.

(** A platform that answers every navigation with its login page. *)
Definition login_wall : Run.world nat :=
  {| Run.chrome_starts := Ok tt;
     Run.driver_get _ _ := Ok tt;
     Run.cancelled_at _ := false;
     Run.login_page_at _ := login_page;
     Run.scroll_height_at _ := Ok 1000%Z;
     Run.list_page_at _ := empty_list_page;
     Run.profile_at _ := profile_without_documents |}.

(** Job 10545457 seen logged in, with an empty candidate list whose height
    never changes. *)
Definition empty_job : Run.world nat :=
  {| Run.chrome_starts := Ok tt;
     Run.driver_get _ _ := Ok tt;
     Run.cancelled_at _ := false;
     Run.login_page_at _ := candidate_list_page;
     Run.scroll_height_at _ := Ok 1000%Z;
     Run.list_page_at _ := empty_list_page;
     Run.profile_at _ := profile_without_documents |}.

(** The download lands as an empty [resume.pdf] in the default download
    directory; the output directory stays empty, and the move succeeds. *)
Definition zero_byte_in_downloads : Verify.view :=
  {| Verify.polls := 20;
     Verify.output_dir _ := Some [];
     Verify.downloads_dir := Some [Verify.Entry "resume.pdf" true 0 9000];
     Verify.current_time := 10000;
     Verify.move _ := Ok tt |}.

(** The download is complete, with 1234 bytes, before [verify_download]
    takes its snapshot; nothing else changes. *)
Definition finished_before_snapshot : Verify.view :=
  {| Verify.polls := 20;
     Verify.output_dir _ := Some [Verify.Entry "resume.pdf" true 1234 0];
     Verify.downloads_dir := None;
     Verify.current_time := 10000;
     Verify.move _ := Ok tt |}.

(** A one-byte [resume.pdf] shows up in the output directory at the first
    poll. *)
Definition one_byte_arrives : Verify.view :=
  {| Verify.polls := 20;
     Verify.output_dir c :=
       match c with
       | O => Some []
       | S _ => Some [Verify.Entry "resume.pdf" true 1 0]
       end;
     Verify.downloads_dir := None;
     Verify.current_time := 10000;
     Verify.move _ := Ok tt |}.

(** A profile whose resume link works. *)
Definition profile_with_resume : Fetch.profile :=
  {| Fetch.located := Ok true;
     Fetch.scroll_into_view := Ok tt;
     Fetch.click := Ok tt;
     Fetch.js_click := Ok tt;
     Fetch.files := one_byte_arrives |}.

(** An attended run for job 10545457, no cookies. *)
Definition job_10545457 : Run.config :=
  {| Run.job_id := "10545457";
     Run.cookies := None;
     Run.HEADLESS := None;
     Run.DISPLAY := None |}.

(** Five candidate links, 101 to 105, none marked. *)
Definition five_links_dom : Dom.driver nat :=
  {| Dom.get_attribute_class _ := Ok None;
     Dom.get_attribute_href e :=
       Ok (match e with
           | 1 => Some "https://app.jazz.co/app/v2/job/10545457/candidate/101"
           | 2 => Some "https://app.jazz.co/app/v2/job/10545457/candidate/102/scorecard"
           | 3 => Some "https://app.jazz.co/app/v2/job/10545457/candidate/103"
           | 4 => Some "https://app.jazz.co/app/v2/job/10545457/candidate/104"
           | 5 => Some "https://app.jazz.co/app/v2/job/10545457/candidate/105"
           | _ => None
           end%nat);
     Dom.parent _ := Raise NoSuchElementException;
     Dom.find_elements_css _ _ := Ok [];
     Dom.text _ := Ok "" |}.

Definition five_links_page : Enumerate.list_page nat :=
  {| Enumerate.dom := five_links_dom;
     Enumerate.find_elements selector :=
       if String.eqb selector "a[href*='/candidate/']"
       then Ok [1; 2; 3; 4; 5]%nat else Ok [];
     Enumerate.row_link _ := Raise NoSuchElementException;
     Enumerate.row_is_clickable _ := Ok false |}.

(** Job 10545457 with five candidates whose resumes all download, seen
    logged in; [cancelled] is the cancellation flag over time. *)
Definition five_candidates (cancelled : Z -> bool) : Run.world nat :=
  {| Run.chrome_starts := Ok tt;
     Run.driver_get _ _ := Ok tt;
     Run.cancelled_at := cancelled;
     Run.login_page_at _ := candidate_list_page;
     Run.scroll_height_at _ := Ok 1000%Z;
     Run.list_page_at _ := five_links_page;
     Run.profile_at _ := profile_with_resume |}.

Definition never : Z -> bool := fun _ => false.

(** The flag is set twenty seconds into the run: the first candidate is
    done after nineteen, the second would start after twenty-eight. *)
Definition after_first_candidate : Z -> bool := fun t => (20000 <=? t)%Z.

Definition five_links : list string :=
  [ "https://app.jazz.co/app/v2/job/10545457/candidate/101/profile";
    "https://app.jazz.co/app/v2/job/10545457/candidate/102/profile";
    "https://app.jazz.co/app/v2/job/10545457/candidate/103/profile";
    "https://app.jazz.co/app/v2/job/10545457/candidate/104/profile";
    "https://app.jazz.co/app/v2/job/10545457/candidate/105/profile" ].

(** The states the two runs go through. *)
Definition five_found (cancelled : Z -> bool) : Run.state :=
  snd (Run.find_candidates job_10545457 (five_candidates cancelled) Run.initial_state).

Definition five_after (cancelled : Z -> bool) (k : nat) : Run.state :=
  snd (Run.candidate_loop job_10545457 (five_candidates cancelled)
         (take k five_links) 1 5 (five_found cancelled)).

(** The states of the run on the empty job. *)
Definition empty_job_set_up : Run.state :=
  snd (Run.setup_driver job_10545457 empty_job Run.initial_state).
Definition empty_job_navigated : Run.state :=
  snd (Run.navigate_to_candidate_list job_10545457 empty_job empty_job_set_up).
Definition empty_job_enumerated : Run.state :=
  snd (Run.get_candidate_links job_10545457 empty_job empty_job_navigated).
Definition empty_job_renavigated : Run.state :=
  snd (Run.navigate_to_candidate_list job_10545457 empty_job
         (Run.State (Run.self empty_job_enumerated)
            (Run.history empty_job_enumerated ++ [Log NoCandidatesRetrying; Sleep 10000]))).
Definition empty_job_reenumerated : Run.state :=
  snd (Run.get_candidate_links job_10545457 empty_job empty_job_renavigated).

(** A job identifier with a candidate segment of its own: the "job" page
    is the page of candidate 9 of job 1, which links to candidate 5. *)
Definition stray_job : Run.config :=
  {| Run.job_id := "1/candidate/9";
     Run.cookies := None;
     Run.HEADLESS := None;
     Run.DISPLAY := None |}.

Definition stray_dom : Dom.driver nat :=
  {| Dom.get_attribute_class _ := Ok None;
     Dom.get_attribute_href _ :=
       Ok (Some "https://app.jazz.co/app/v2/job/1/candidate/5/profile");
     Dom.parent _ := Raise NoSuchElementException;
     Dom.find_elements_css _ _ := Ok [];
     Dom.text _ := Ok "" |}.

Definition stray_page : Enumerate.list_page nat :=
  {| Enumerate.dom := stray_dom;
     Enumerate.find_elements selector :=
       if String.eqb selector "a[href*='/candidate/']" then Ok [1]%nat else Ok [];
     Enumerate.row_link _ := Raise NoSuchElementException;
     Enumerate.row_is_clickable _ := Ok false |}.

Definition stray_world : Run.world nat :=
  {| Run.chrome_starts := Ok tt;
     Run.driver_get _ _ := Ok tt;
     Run.cancelled_at _ := false;
     Run.login_page_at _ :=
       {| Login.current_url :=
            Ok "https://app.jazz.co/app/v2/job/1/candidate/9/candidate?workflowStep=1";
          Login.find_element _ := Raise NoSuchElementException;
          Login.is_displayed _ := Ok false |};
     Run.scroll_height_at _ := Ok 1000%Z;
     Run.list_page_at _ := stray_page;
     Run.profile_at _ := profile_with_resume |}.

(** A login wait during which the login stays pending and the flag is
    found set at the third poll. *)
Definition cancelled_at_third_poll : LoginWait.view :=
  {| LoginWait.cancelled j := (2 <=? j)%nat;
     LoginWait.login_required _ := true |}.

(** Three candidate links, the second one carrying the not-hired class. *)
Definition three_links_dom : Dom.driver nat :=
  {| Dom.get_attribute_class e :=
       Ok (match e with
           | 2%nat => Some "candidate-link is-workflow-not-hired"
           | _ => Some "candidate-link"
           end);
     Dom.get_attribute_href e :=
       Ok (match e with
           | 1 => Some "https://app.jazz.co/app/v2/job/10545457/candidate/101"
           | 2 => Some "https://app.jazz.co/app/v2/job/10545457/candidate/102"
           | 3 => Some "https://app.jazz.co/app/v2/job/10545457/candidate/103"
           | _ => None
           end%nat);
     Dom.parent _ := Raise NoSuchElementException;
     Dom.find_elements_css _ _ := Ok [];
     Dom.text _ := Ok "" |}.

Definition three_links_page : Enumerate.list_page nat :=
  {| Enumerate.dom := three_links_dom;
     Enumerate.find_elements selector :=
       if String.eqb selector "a[href*='/candidate/']"
       then Ok [1; 2; 3]%nat else Ok [];
     Enumerate.row_link _ := Raise NoSuchElementException;
     Enumerate.row_is_clickable _ := Ok false |}.

(** Job 10545457 with three candidates discovered, one of them not hired;
    the resumes of the other two download. *)
Definition one_of_three_not_hired : Run.world nat :=
  {| Run.chrome_starts := Ok tt;
     Run.driver_get _ _ := Ok tt;
     Run.cancelled_at _ := false;
     Run.login_page_at _ := candidate_list_page;
     Run.scroll_height_at _ := Ok 1000%Z;
     Run.list_page_at _ := three_links_page;
     Run.profile_at _ := profile_with_resume |}.

(** ** Auxiliary notions for whole runs *)

(** [steps R c]: whatever [c] does to the object and the history is within
    [R]. *)
Definition steps {A} (R : relation Run.state) (c : Run.M A) : Prop :=
  forall st r st', c st = (r, st') -> R st st'.

(** [raises_within P c]: an exception that leaves [c] is one of [P]. *)
Definition raises_within {A} (P : exn -> Prop) (c : Run.M A) : Prop :=
  forall st e st', c st = (Raise e, st') -> P e.

(** An event that neither opens nor closes the browser. *)
Definition inside_session (ev : event) : Prop :=
  ev <> DriverStart /\ ev <> DriverQuit.

(** The browser stays as it is, and what is added to the history are
    events inside the session. *)
Definition session_kept : relation Run.state :=
  fun st st' =>
    driver (Run.self st') = driver (Run.self st) /\
    exists t, Run.history st' = Run.history st ++ t /\ Forall inside_session t.

#[global] Instance session_kept_preorder : PreOrder session_kept.
Proof.
  split.
  - intros st. split; [reflexivity |]. exists []. rewrite app_nil_r. split; [reflexivity | constructor].
  - intros a b c [Hab (t1 & H1 & F1)] [Hbc (t2 & H2 & F2)]. split; [congruence |].
    exists (t1 ++ t2). rewrite H2, H1, <- app_assoc. split; [reflexivity |].
    apply Forall_app. split; assumption.
Qed.

(** The exceptions [navigate_to_candidate_list] raises of its own. *)
Definition login_errors : list exn :=
  [ Run.credentials_required; Run.login_failed_or_timed_out;
    Run.authentication_failed; Run.login_verification_failed ].

(** The candidates the two counters account for. *)
Definition counted (self_ : downloader) : nat :=
  downloaded_count self_ + failed_count self_.

(** [keeps P]: a step that starts with [P] ends with [P]. *)
Definition keeps (P : downloader -> Prop) : relation downloader :=
  fun before after => P before -> P after.

#[global] Instance keeps_preorder (P : downloader -> Prop) : PreOrder (keeps P).
Proof. split; unfold keeps; [intros a; auto | intros a b c; auto]. Qed.

(** One recorded file per counted download, and no more distinct
    downloaded ids than counted downloads. *)
Definition files_match_count (self_ : downloader) : Prop :=
  List.length (downloaded_files self_) = downloaded_count self_ /\
  size (downloaded_candidate_ids self_) <= downloaded_count self_.

(** * The REST scripts: [download_resumes.py], [download_job_description.py]

    The two scripts share the API client [JazzHRAPI] ([_rate_limit],
    [_make_request]) and [sanitize_filename] word for word. *)

(** ** More Python string operations *)

Module Text.

Definition chars (s : string) : list ascii := list_ascii_of_string s.

(** [c in chars], for a string of single characters *)
Definition among (cs : list ascii) (c : ascii) : bool := existsb (Ascii.eqb c) cs.

(** [s.replace(old, new)] for one-character [old] and [new] *)
Fixpoint replace_char (old new : ascii) (s : string) : string :=
  match s with
  | EmptyString => EmptyString
  | String c rest => String (if Ascii.eqb c old then new else c) (replace_char old new rest)
  end.

(** [s.lstrip(cs)], [s.rstrip(cs)], [s.strip(cs)] *)
Fixpoint lstrip (cs : list ascii) (s : string) : string :=
  match s with
  | EmptyString => EmptyString
  | String c rest => if among cs c then lstrip cs rest else s
  end.

Fixpoint rstrip (cs : list ascii) (s : string) : string :=
  match s with
  | EmptyString => EmptyString
  | String c rest =>
      let kept := rstrip cs rest in
      if Str.is_empty kept && among cs c then EmptyString else String c kept
  end.

Definition strip (cs : list ascii) (s : string) : string := rstrip cs (lstrip cs s).

(** The characters of a [str], each by its UTF-8 bytes: a byte that is not a
    continuation byte starts a character. *)
Definition is_continuation (c : ascii) : bool :=
  let n := nat_of_ascii c in (128 <=? n)%nat && (n <=? 191)%nat.

Fixpoint split_code_points (s : string) : string * list string :=
  match s with
  | EmptyString => (EmptyString, [])
  | String c rest =>
      let '(pending, points) := split_code_points rest in
      if is_continuation c then (String c pending, points)
      else (EmptyString, String c pending :: points)
  end.

Definition code_points (s : string) : list string :=
  let '(pending, points) := split_code_points s in
  if Str.is_empty pending then points else pending :: points.

(** A string from the values of its bytes. *)
Definition of_bytes (values : list nat) : string :=
  string_of_list_ascii (map ascii_of_nat values).

(** The characters [str.isspace] holds of, which [str.strip()] removes:
    U+0009 to U+000D, U+001C to U+0020, U+0085, U+00A0, U+1680, U+2000 to
    U+200A, U+2028, U+2029, U+202F, U+205F and U+3000, in UTF-8. *)
Definition whitespace : list string :=
  map (fun value => of_bytes [value]) [9; 10; 11; 12; 13; 28; 29; 30; 31; 32]%nat
  ++ [ of_bytes [194; 133]; of_bytes [194; 160]; of_bytes [225; 154; 128] ]
  ++ map (fun value => of_bytes [226; 128; value]) (seq 128 11)
  ++ [ of_bytes [226; 128; 168]; of_bytes [226; 128; 169]; of_bytes [226; 128; 175];
       of_bytes [226; 129; 159]; of_bytes [227; 128; 128] ].

Definition is_space (point : string) : bool :=
  existsb (String.eqb point) whitespace.

Fixpoint drop_spaces (points : list string) : list string :=
  match points with
  | [] => []
  | point :: rest => if is_space point then drop_spaces rest else points
  end.

(** [s.strip()] *)
Definition strip_space (s : string) : string :=
  String.concat EmptyString (rev (drop_spaces (rev (drop_spaces (code_points s))))).

End Text.

(** ** [sanitize_filename] *)

Module Filename.

(** [invalid_chars]: the less-than and greater-than signs, the colon, the
    double quote (character 34), the slash, the backslash, the bar, the
    question mark and the star. *)
Definition invalid_chars : list ascii :=
  [ "<"; ">"; ":"; "034"; "/"; "\"; "|"; "?"; "*" ]%char.

Definition sanitize_filename (filename : string) : string :=
  let filename :=
    foldl (fun filename char => Text.replace_char char "_" filename)
      filename invalid_chars in
  Text.strip [" "; "."]%char filename.

(** The name has no character of [invalid_chars] (no path separator among
    them) and neither starts nor ends with a space or a dot. *)
Definition safe (name : string) : Prop :=
  (forall c, c ∈ Text.chars name -> c ∉ invalid_chars) /\
  (forall c rest, name = String c rest -> c <> " "%char /\ c <> "."%char) /\
  (forall front c, name = front +:+ String c EmptyString -> c <> " "%char /\ c <> "."%char).

End Filename.

(** ** Decimal numerals: [str(n)] and [int(s)] for a natural number *)

Module Decimal.

Definition digit_char (d : N) : ascii := ascii_of_N (48 + d).
Definition digit_value (c : ascii) : N := N_of_ascii c - 48.

(** The decimal digits of [n], least significant first; [fuel] bounds their
    number. *)
Fixpoint digits_rev (fuel : nat) (n : N) : list N :=
  (n mod 10)%N ::
  match fuel with
  | O => []
  | S fuel' => if (n <? 10)%N then [] else digits_rev fuel' (n / 10)
  end.

(** [str(n)], [f"{n}"] *)
Definition str (n : N) : string :=
  string_of_list_ascii (map digit_char (rev (digits_rev (N.to_nat (N.log2 n)) n))).

(** [int(s)] for a string of decimal digits *)
Definition int (s : string) : N :=
  fold_left (fun acc c => acc * 10 + digit_value c)%N (list_ascii_of_string s) 0%N.

End Decimal.

(** ** JSON values, as [response.json()] returns them *)

#[warnings="-register-all"] Inductive json : Type :=
  | JNull
  | JBool (b : bool)
  | JInt (n : Z)
  | JFloat (f : float)
  | JStr (s : string)
  | JList (items : list json)
  | JDict (entries : list (string * json)).

Module Json.

(** The truth value of a Python object: [if v:], [not v], [a or b]. *)
Definition truthy (v : json) : bool :=
  match v with
  | JNull => false
  | JBool b => b
  | JInt n => negb (n =? 0)%Z
  | JFloat f => negb (PrimFloat.eqb f 0%float)
  | JStr s => negb (Str.is_empty s)
  | JList items => negb (Run.is_nil items)
  | JDict entries => negb (Run.is_nil entries)
  end.

(** [key in d] and [d.get(key)] on the entries of a dict *)
Fixpoint lookup (key : string) (entries : list (string * json)) : option json :=
  match entries with
  | [] => None
  | (k, v) :: rest => if String.eqb k key then Some v else lookup key rest
  end.

(** [d.get(key, default)] *)
Definition get (key : string) (fallback : json) (entries : list (string * json)) : json :=
  default fallback (lookup key entries).

(** [a or b] *)
Definition or_else (a b : json) : json := if truthy a then a else b.

End Json.

(** ** The API client: class [JazzHRAPI]

    Times are in milliseconds of a virtual clock that advances in
    [time.sleep], by the time asked for, and while a request is on its way,
    by the latency the environment decides.  Log records are not part of
    the history. *)

Module Rest.

(** The exception classes the client and its callers tell apart. *)
Inductive error : Type :=
  | Timeout              (* requests.exceptions.Timeout *)
  | RequestException     (* any other requests.exceptions.RequestException *)
  | IndexError
  | TypeError
  | AttributeError
  | OtherException.

(** [except requests.exceptions.RequestException], which [Timeout] is a
    subclass of. *)
Definition is_request_exception (e : error) : bool :=
  match e with
  | Timeout | RequestException => true
  | _ => false
  end.

Inductive reply (A : Type) : Type :=
  | Returned (a : A)
  | Raised (e : error).
Arguments Returned {A} a.
Arguments Raised {A} e.

Inductive event : Type :=
  | Get (sent : Z) (endpoint : string) (params : gmap string string)
      (* self.session.get(url, params=params, timeout=120), sent at that time *)
  | Waited (ms : Z)       (* time.sleep in _rate_limit *)
  | BackedOff (ms : Z).   (* time.sleep in _make_request *)

Definition is_get (ev : event) : bool :=
  match ev with Get _ _ _ => true | _ => false end.

(** The number of requests sent so far. *)
Definition gets (h : list event) : nat := List.length (List.filter is_get h).

(** The server and the network: what the [n]-th request of the run is
    answered with ([raise_for_status] and [response.json()] included), and
    how long it takes. *)
Record world : Type := World {
  respond : nat -> string -> gmap string string -> reply json;
  latency : nat -> Z
}.

Record state : Type := State {
  call_times : list Z;     (* self.call_times *)
  now : Z;                 (* time.time() *)
  history : list event
}.

(** [JazzHRAPI(api_key)] at time [t] *)
Definition initial_state (t : Z) : state := State [] t [].

Definition M (A : Type) : Type := state -> reply A * state.

Definition ret {A} (a : A) : M A := fun st => (Returned a, st).
Definition raise {A} (e : error) : M A := fun st => (Raised e, st).
Definition bind {A B} (c : M A) (k : A -> M B) : M B :=
  fun st =>
    match c st with
    | (Returned a, st') => k a st'
    | (Raised e, st') => (Raised e, st')
    end.
Definition try_catch {A} (c : M A) (h : error -> M A) : M A :=
  fun st =>
    match c st with
    | (Returned a, st') => (Returned a, st')
    | (Raised e, st') => h e st'
    end.
Definition lift {A} (r : reply A) : M A := fun st => (r, st).

Notation "'do!' x ':=' c 'in' k" := (bind c (fun x => k))
  (at level 10, x name, c at level 100, k at level 200,
   format "'[' 'do!'  x  ':='  c  'in'  '/' k ']'").

Definition time : M Z := fun st => (Returned (now st), st).

Definition sleep (kind : Z -> event) (ms : Z) : M unit :=
  fun st => (Returned tt, State (call_times st) (now st + ms) (history st ++ [kind ms])).

Definition get_call_times : M (list Z) := fun st => (Returned (call_times st), st).

Definition set_call_times (f : list Z -> list Z) : M unit :=
  fun st => (Returned tt, State (f (call_times st)) (now st) (history st)).

Definition RATE_LIMIT_CALLS : nat := 80.
Definition RATE_LIMIT_WINDOW : Z := 60000.

(** [[t for t in self.call_times if now - t < self.RATE_LIMIT_WINDOW]] *)
Definition recent (now_ : Z) (times : list Z) : list Z :=
  List.filter (fun t => (now_ - t <? RATE_LIMIT_WINDOW)%Z) times.

(** [_rate_limit] *)
Definition rate_limit : M unit :=
  do! now_ := time in
  do! _ := set_call_times (recent now_) in
  do! times := get_call_times in
  do! _ := (if (RATE_LIMIT_CALLS <=? List.length times)%nat then
              match times with
              | [] => raise IndexError      (* self.call_times[0] *)
              | oldest :: _ =>
                  let sleep_time := (RATE_LIMIT_WINDOW - (now_ - oldest) + 1000)%Z in
                  if (0 <? sleep_time)%Z then
                    do! _ := sleep Waited sleep_time in
                    do! later := time in
                    set_call_times (recent later)
                  else ret tt
              end
            else ret tt) in
  do! stamp := time in
  set_call_times (fun times => times ++ [stamp]).

Section WithWorld.
Context (api_key : string) (w : world).

(** [self.session.get(...)], [response.raise_for_status()] and
    [response.json()] *)
Definition send (endpoint : string) (params : gmap string string) : M json :=
  fun st =>
    let n := gets (history st) in
    (respond w n endpoint params,
     State (call_times st) (now st + latency w n)
       (history st ++ [Get (now st) endpoint params])).

(** The [for attempt in range(max_retries)] loop of [_make_request]:
    [remaining] attempts are left.  The two handlers, for [Timeout] and for
    [RequestException], do the same.  Falling out of the loop returns
    [None]. *)
Fixpoint attempts (endpoint : string) (params : gmap string string)
    (max_retries : Z) (remaining attempt : nat) : M (option json) :=
  match remaining with
  | O => ret None
  | S remaining' =>
      do! _ := rate_limit in
      try_catch
        (do! response := send endpoint params in
         ret (Some response))
        (fun e =>
           if is_request_exception e then
             if (Z.of_nat attempt <? max_retries - 1)%Z then
               do! _ := sleep BackedOff (1000 * 2 ^ Z.of_nat attempt) in
               attempts endpoint params max_retries remaining' (S attempt)
             else raise e
           else raise e)
  end.

(** [_make_request(endpoint, params, max_retries)] *)
Definition make_request (endpoint : string) (params : gmap string string)
    (max_retries : Z) : M (option json) :=
  attempts endpoint (<["apikey" := api_key]> params) max_retries
    (Z.to_nat max_retries) 0.

(** What [_paginate_request] takes for the results of a page. *)
Definition results_of (response : option json) : json :=
  match response with
  | Some (JList items) => JList items
  | Some (JDict entries) =>
      match Json.lookup "data" entries with
      | Some data => data
      | None => if Json.truthy (JDict entries) then JList [JDict entries] else JList []
      end
  | _ => JList []
  end.

(** The items [all_results.extend(results)] adds, which [len(results)]
    counts: the elements of a list, the keys of a dict, the characters of a
    string; anything else is not iterable. *)
Definition iterate (results : json) : reply (list json) :=
  match results with
  | JList items => Returned items
  | JDict entries => Returned (map (fun entry => JStr (fst entry)) entries)
  | JStr s => Returned (map JStr (Text.code_points s))
  | _ => Raised TypeError
  end.

Inductive page_exit : Type :=
  | Break (all_results : list json)
  | NextPage (all_results : list json).

(** [f"{endpoint}/page/{page}" if page > 1 else endpoint] *)
Definition page_endpoint (endpoint : string) (page : N) : string :=
  if (1 <? page)%N then endpoint +:+ "/page/" +:+ Decimal.str page else endpoint.

(** The body of the [while True] loop of [_paginate_request]. *)
Definition page_body (endpoint : string) (params : gmap string string)
    (page : N) (all_results : list json) : M page_exit :=
  let paginated_endpoint := page_endpoint endpoint page in
  try_catch
    (do! response := make_request paginated_endpoint params 3 in
     let results := results_of response in
     if negb (Json.truthy results) then ret (Break all_results)
     else
       do! items := lift (iterate results) in
       let all_results := all_results ++ items in
       if (List.length items <? 100)%nat then ret (Break all_results)
       else ret (NextPage all_results))
    (fun e => if is_request_exception e then ret (Break all_results) else raise e).

(** The loop, which need not end: [None] when [fuel] pages were not
    enough. *)
Fixpoint pages (fuel : nat) (endpoint : string) (params : gmap string string)
    (page : N) (all_results : list json) : M (option (list json)) :=
  match fuel with
  | O => ret None
  | S fuel' =>
      do! exit := page_body endpoint params page all_results in
      match exit with
      | Break all_results => ret (Some all_results)
      | NextPage all_results => pages fuel' endpoint params (page + 1) all_results
      end
  end.

(** [_paginate_request(endpoint, params)] *)
Definition paginate_request (fuel : nat) (endpoint : string)
    (params : gmap string string) : M (option (list json)) :=
  pages fuel endpoint params 1 [].

(** [get_applicants_for_job], [get_files_for_applicant] *)
Definition get_applicants_for_job (fuel : nat) (job_id : string) :=
  paginate_request fuel "/applicants2jobs" {[ "job_id" := job_id ]}.
Definition get_files_for_applicant (fuel : nat) (applicant_id : string) :=
  paginate_request fuel "/files" {[ "applicant_id" := applicant_id ]}.

End WithWorld.

(** The times at which the requests were sent. *)
Definition get_times (h : list event) : list Z :=
  omap (fun ev => match ev with Get t _ _ => Some t | _ => None end) h.

(** The pauses between the attempts of [_make_request]. *)
Definition backoffs (h : list event) : list Z :=
  omap (fun ev => match ev with BackedOff ms => Some ms | _ => None end) h.

(** No more than [RATE_LIMIT_CALLS] requests are sent within
    [RATE_LIMIT_WINDOW]: a request and the 80th after it are at least 60
    seconds apart. *)
Definition within_rate_limit (h : list event) : Prop :=
  forall k t t',
    get_times h !! k = Some t ->
    get_times h !! (k + RATE_LIMIT_CALLS)%nat = Some t' ->
    (t + RATE_LIMIT_WINDOW <= t')%Z.

(** [self.call_times] is in step with the requests sent, [pending] being
    the stamps recorded for requests about to be sent: the recorded times
    are the latest requests, in order, at most 80 of them, and the requests
    that were dropped from the record are at least 60 seconds old. *)
Definition in_step (pending : list Z) (st : state) : Prop :=
  exists old,
    get_times (history st) ++ pending = old ++ call_times st /\
    (forall t, t ∈ old -> (t + RATE_LIMIT_WINDOW <= now st)%Z) /\
    StronglySorted Z.le (call_times st) /\
    (forall t, t ∈ call_times st -> (t <= now st)%Z) /\
    (List.length (call_times st) <= RATE_LIMIT_CALLS)%nat.

Definition limited (st : state) : Prop :=
  within_rate_limit (history st) /\ in_step [] st.

End Rest.

(** ** A server for the examples *)

(** A hundred items. *)
Definition full_page (tag : Z) : list json := repeat (JInt tag) 100.

(** The applicants of a job on two pages, whatever is asked for the
    second time. *)
Definition applicants_server : Rest.world :=
  {| Rest.respond _ endpoint _ :=
       if String.eqb endpoint "/applicants2jobs" then Rest.Returned (JList (full_page 1))
       else if String.eqb endpoint "/applicants2jobs/page/2"
       then Rest.Returned (JList [JInt 2; JInt 3])
       else Rest.Raised Rest.RequestException;
     Rest.latency _ := 200%Z |}.

(** The same server with its second page timing out. *)
Definition second_page_times_out : Rest.world :=
  {| Rest.respond _ endpoint _ :=
       if String.eqb endpoint "/applicants2jobs" then Rest.Returned (JList (full_page 1))
       else Rest.Raised Rest.Timeout;
     Rest.latency _ := 200%Z |}.

(** A server that times out, then refuses the connection, then answers. *)
Definition flaky_server : Rest.world :=
  {| Rest.respond n _ _ :=
       match n with
       | 0%nat => Rest.Raised Rest.Timeout
       | 1%nat => Rest.Raised Rest.RequestException
       | _ => Rest.Returned (JDict [("id", JStr "job_1")])
       end;
     Rest.latency _ := 200%Z |}.

(** A server with full pages only that answers at once. *)
Definition endless_server : Rest.world :=
  {| Rest.respond _ _ _ := Rest.Returned (JList (full_page 0));
     Rest.latency _ := 0%Z |}.

(** * Properties *)

(** ** Strings and the candidate pattern *)

Section StringFacts.
Implicit Types (s t p rest : string).

Lemma append_nil_l s : "" +:+ s = s.
Proof. reflexivity. Qed.

Lemma append_cons c s t : String c s +:+ t = String c (s +:+ t).
Proof. reflexivity. Qed.

Lemma append_assoc s t u : (s +:+ t) +:+ u = s +:+ (t +:+ u).
Proof.
  induction s as [| c s IH]; [reflexivity |].
  rewrite !append_cons, IH. reflexivity.
Qed.

Lemma length_append s t : String.length (s +:+ t) = (String.length s + String.length t)%nat.
Proof.
  induction s as [| c s IH]; [reflexivity |].
  rewrite append_cons. cbn [String.length]. rewrite IH. reflexivity.
Qed.

Lemma endswith_self p : Str.endswith p p = true.
Proof. destruct p; cbn [Str.endswith]; rewrite String.eqb_refl; reflexivity. Qed.

Lemma endswith_append s t p : Str.endswith t p = true -> Str.endswith (s +:+ t) p = true.
Proof.
  intros Ht. induction s as [| c s IH]; [exact Ht |].
  rewrite append_cons. cbn [Str.endswith]. rewrite IH. apply orb_true_r.
Qed.

Lemma strip_prefix_append p s rest t :
  Re.strip_prefix p s = Some rest -> Re.strip_prefix p (s +:+ t) = Some (rest +:+ t).
Proof.
  revert s. induction p as [| a p IH]; intros s; cbn [Re.strip_prefix].
  - intros [= ->]. reflexivity.
  - destruct s as [| b s]; [discriminate |]. rewrite append_cons.
    destruct (Ascii.eqb a b); [apply IH | discriminate].
Qed.

Lemma strip_prefix_append_none p s t :
  Re.strip_prefix p s = None -> (String.length p <= String.length s)%nat ->
  Re.strip_prefix p (s +:+ t) = None.
Proof.
  revert s. induction p as [| a p IH]; intros s; cbn [Re.strip_prefix String.length].
  - discriminate.
  - destruct s as [| b s]; cbn [String.length]; [lia |]. rewrite append_cons.
    destruct (Ascii.eqb a b); [| reflexivity].
    intros Hnone Hlen. apply IH; [exact Hnone | lia].
Qed.

Lemma strip_prefix_length p s rest :
  Re.strip_prefix p s = Some rest ->
  String.length s = (String.length p + String.length rest)%nat.
Proof.
  revert s. induction p as [| a p IH]; intros s; cbn [Re.strip_prefix String.length].
  - intros [= ->]. reflexivity.
  - destruct s as [| b s]; [discriminate |].
    destruct (Ascii.eqb a b); [| discriminate].
    intros H. cbn [String.length]. rewrite (IH _ H). reflexivity.
Qed.

(** Whether the pattern matches at the start of a string is decided by its
    first twelve characters. *)
Lemma no_match_here_append s t :
  Re.match_candidate_here s = None -> (12 <= String.length s)%nat ->
  Re.match_candidate_here (s +:+ t) = None.
Proof.
  unfold Re.match_candidate_here. intros Hnone Hlen.
  destruct (Re.strip_prefix "/candidate/" s) as [rest |] eqn:Hstrip.
  - rewrite (strip_prefix_append _ _ _ t Hstrip).
    apply strip_prefix_length in Hstrip. cbn [String.length] in Hstrip.
    destruct rest as [| d rest]; [cbn [String.length] in Hstrip; lia |].
    rewrite append_cons. cbn [Re.take_digits] in *.
    destruct (Str.is_digit d); [discriminate | reflexivity].
  - rewrite (strip_prefix_append_none _ _ t Hstrip); [reflexivity |].
    cbn [String.length]. lia.
Qed.

Lemma search_candidate_none_inv c s :
  Re.search_candidate (String c s) = None ->
  Re.match_candidate_here (String c s) = None /\ Re.search_candidate s = None.
Proof.
  cbn [Re.search_candidate].
  destruct (Re.match_candidate_here (String c s)); [discriminate | auto].
Qed.

(** A stretch of text in which the pattern does not occur, not even
    running into the [/candidate/] that follows it, is skipped. *)
Lemma search_candidate_skips s tail :
  Re.search_candidate (s +:+ "/candidate/") = None ->
  Re.search_candidate (s +:+ ("/candidate/" +:+ tail))
  = Re.search_candidate ("/candidate/" +:+ tail).
Proof.
  induction s as [| c s IH]; [reflexivity |].
  intros Hnone.
  change (String c s +:+ "/candidate/") with (String c (s +:+ "/candidate/")) in Hnone.
  change (String c s +:+ ("/candidate/" +:+ tail))
    with (String c (s +:+ ("/candidate/" +:+ tail))).
  apply search_candidate_none_inv in Hnone as [Hhere Hlater].
  cbn [Re.search_candidate].
  assert (Re.match_candidate_here (String c (s +:+ ("/candidate/" +:+ tail))) = None) as ->.
  { rewrite <- (append_assoc s "/candidate/" tail).
    change (String c ((s +:+ "/candidate/") +:+ tail))
      with (String c (s +:+ "/candidate/") +:+ tail).
    apply no_match_here_append; [exact Hhere |].
    cbn [String.length]. rewrite length_append. cbn [String.length]. lia. }
  apply IH. exact Hlater.
Qed.

Lemma take_digits_all s t :
  Str.all_digits s = true ->
  Re.take_digits (s +:+ String "/" t) = s.
Proof.
  induction s as [| c s IH]; [reflexivity |].
  cbn [Str.all_digits]. intros [Hc Hs]%andb_prop.
  rewrite append_cons. cbn [Re.take_digits]. rewrite Hc, (IH Hs). reflexivity.
Qed.

Lemma take_digits_are_digits s : Str.all_digits (Re.take_digits s) = true.
Proof.
  induction s as [| c s IH]; [reflexivity |].
  cbn [Re.take_digits]. destruct (Str.is_digit c) eqn:Hc; [| reflexivity].
  cbn [Str.all_digits]. rewrite Hc, IH. reflexivity.
Qed.

Lemma search_candidate_digits s candidate_id :
  Re.search_candidate s = Some candidate_id ->
  Str.all_digits candidate_id = true /\ Str.is_empty candidate_id = false.
Proof.
  assert (forall u, Re.match_candidate_here u = Some candidate_id ->
                    Str.all_digits candidate_id = true
                    /\ Str.is_empty candidate_id = false) as Hhere.
  { intros u. unfold Re.match_candidate_here.
    destruct (Re.strip_prefix "/candidate/" u) as [rest |]; [| discriminate].
    destruct (Str.is_empty (Re.take_digits rest)) eqn:Hempty; [discriminate |].
    intros [= <-]. split; [apply take_digits_are_digits | exact Hempty]. }
  induction s as [| c s IH]; cbn [Re.search_candidate].
  - destruct (Re.match_candidate_here "") eqn:H0; [| discriminate].
    intros [= <-]. apply (Hhere _ H0).
  - destruct (Re.match_candidate_here (String c s)) eqn:H0; [| exact IH].
    intros [= <-]. apply (Hhere _ H0).
Qed.

Lemma search_candidate_at_start candidate_id tail :
  Str.all_digits candidate_id = true -> Str.is_empty candidate_id = false ->
  Re.search_candidate ("/candidate/" +:+ (candidate_id +:+ String "/" tail))
  = Some candidate_id.
Proof.
  intros Hdigits Hnonempty.
  change ("/candidate/" +:+ (candidate_id +:+ String "/" tail))
    with (String "/" ("candidate/" +:+ (candidate_id +:+ String "/" tail))).
  cbn [Re.search_candidate]. unfold Re.match_candidate_here.
  change (Re.strip_prefix "/candidate/"
            (String "/" ("candidate/" +:+ (candidate_id +:+ String "/" tail))))
    with (Some (candidate_id +:+ String "/" tail)).
  cbv beta iota. rewrite (take_digits_all _ _ Hdigits), Hnonempty. reflexivity.
Qed.

(** The candidate id is read back from a profile URL built with a plain
    job identifier. *)
Lemma search_candidate_profile_url job_id candidate_id :
  Enumerate.job_id_plain job_id = true ->
  Str.all_digits candidate_id = true -> Str.is_empty candidate_id = false ->
  Re.search_candidate (Enumerate.profile_url job_id candidate_id) = Some candidate_id.
Proof.
  unfold Enumerate.job_id_plain. intros Hplain Hdigits Hnonempty.
  destruct (Re.search_candidate ("/" +:+ job_id +:+ "/candidate/")) eqn:Hjob;
    [discriminate |].
  transitivity (Re.search_candidate
                  (String "/" job_id +:+ ("/candidate/" +:+ (candidate_id +:+ "/profile")))).
  { reflexivity. }
  rewrite search_candidate_skips by exact Hjob.
  apply search_candidate_at_start; assumption.
Qed.

Lemma profile_url_ends_with_profile job_id candidate_id :
  Str.endswith (Enumerate.profile_url job_id candidate_id) "/profile" = true.
Proof.
  unfold Enumerate.profile_url. repeat apply endswith_append. apply endswith_self.
Qed.

End StringFacts.

(** ** Login-state detection *)

Section LoginFacts.
Context {elem : Type}.
Implicit Types (p : Login.page elem) (e : exn).

Lemma probe_skipped p xpath :
  Login.indicator_skipped p xpath -> Login.probe_indicator p xpath = Ok false.
Proof.
  unfold Login.probe_indicator.
  intros [Hfind | (el & Hfind & [Hshown | Hshown])]; rewrite Hfind; simpl;
    [reflexivity | rewrite Hshown; reflexivity ..].
Qed.

Lemma probe_failed p xpath e :
  Login.indicator_fails p xpath e -> Login.probe_indicator p xpath = Raise e.
Proof.
  unfold Login.probe_indicator.
  intros [Hclass [Hfind | (el & Hfind & Hshown)]]; rewrite Hfind; simpl;
    [| rewrite Hshown; simpl]; rewrite Hclass; reflexivity.
Qed.

Lemma scan_reaches_failure p skipped xpath later e :
  Forall (Login.indicator_skipped p) skipped ->
  Login.indicator_fails p xpath e ->
  Login.scan_indicators p (skipped ++ xpath :: later) = Raise e.
Proof.
  intros Hskipped Hfails.
  induction Hskipped as [| x xs Hx _ IH]; simpl.
  - rewrite (probe_failed _ _ _ Hfails). reflexivity.
  - rewrite (probe_skipped _ _ Hx). simpl. exact IH.
Qed.

Lemma unexpected_exception_escapes job_id p e :
  Login.unexpected_exception job_id p e -> Login.classify job_id p = Raise e.
Proof.
  unfold Login.classify.
  intros [Hurl | url skipped xpath later Hurl (Hlist & Hlogin & Hsignin) Hsplit Hskipped Hfails];
    rewrite Hurl; cbv beta iota delta [rbind]; [reflexivity |].
  rewrite Hlist, Hlogin, Hsignin, Hsplit. cbv beta iota delta [orb].
  apply scan_reaches_failure; assumption.
Qed.

(** C10. If an unexpected exception is raised while the login state of the
    current page is being classified (reading the URL fails, or probing a
    login indicator fails with anything but [NoSuchElementException]),
    [check_login_required] returns [False]: the session is treated as
    authenticated. *)
Theorem check_login_required_false_on_unexpected_exception job_id p e :
  Login.unexpected_exception job_id p e ->
  Login.check_login_required job_id p = false.
Proof.
  intros H. unfold Login.check_login_required.
  rewrite (unexpected_exception_escapes _ _ _ H). reflexivity.
Qed.

End LoginFacts.

Lemma check_login_required_false_on_unexpected_exception_witness :
  Login.check_login_required "10545457" broken_dashboard = false.
Proof.
  apply (check_login_required_false_on_unexpected_exception
           "10545457" broken_dashboard WebDriverException).
  apply (Login.probe_fails _ _ _ "https://app.jazz.co/app/v2/dashboard"
           ["//input[@type='email']"] "//input[@type='password']"
           (drop 2 Login.login_indicators)).
  - reflexivity.
  - repeat split; vm_compute; reflexivity.
  - reflexivity.
  - repeat constructor.
  - split; [reflexivity | left; reflexivity].
Defined.

(** ** Scrolling *)

Section ScrollFacts.
Implicit Types (p : Scroll.page) (t done : trace).

Lemma iterations_app t1 t2 :
  Scroll.iterations (t1 ++ t2) = (Scroll.iterations t1 + Scroll.iterations t2)%nat.
Proof.
  unfold Scroll.iterations. rewrite List.filter_app, List.length_app. reflexivity.
Qed.

Lemma iterations_scrolled done :
  Scroll.iterations (done ++ [ScrollToBottom; Sleep 2000]) = S (Scroll.iterations done).
Proof. rewrite iterations_app. cbn. lia. Qed.

(** The loop body runs at most [remaining] more times. *)
Lemma scroll_loop_bounded p remaining attempts last no_change done :
  (Scroll.iterations (snd (Scroll.scroll_loop p remaining attempts last no_change done))
   <= Scroll.iterations done + remaining)%nat.
Proof.
  revert attempts last no_change done.
  induction remaining as [| remaining IH]; intros attempts last no_change done; cbn [Scroll.scroll_loop snd fst].
  - lia.
  - destruct (Scroll.cancelled p attempts); cbn [Scroll.scroll_loop snd fst]; [lia |].
    destruct (Scroll.scroll_height p (S attempts)) as [new_height | e]; cbn [Scroll.scroll_loop snd fst].
    + destruct (new_height =? last)%Z.
      * destruct (3 <=? S no_change)%nat; cbn [Scroll.scroll_loop snd fst].
        -- rewrite iterations_scrolled. lia.
        -- etransitivity; [apply IH |]. rewrite iterations_scrolled. lia.
      * etransitivity; [apply IH |]. rewrite iterations_scrolled. lia.
    + rewrite iterations_scrolled. lia.
Qed.

(** Once the remaining readings that complete a run of three unchanged
    heights are known to be unchanged, the loop stops within them. *)
Lemma scroll_loop_countdown p remaining attempts last no_change done :
  Scroll.scroll_height p attempts = Ok last ->
  (no_change < 3)%nat ->
  (forall j, (attempts <= j < attempts + (3 - no_change))%nat -> Scroll.unchanged p j) ->
  (Scroll.iterations (snd (Scroll.scroll_loop p remaining attempts last no_change done))
   <= Scroll.iterations done + (3 - no_change))%nat.
Proof.
  revert attempts last no_change done.
  induction remaining as [| remaining IH];
    intros attempts last no_change done Hlast Hcount Hsame; cbn [Scroll.scroll_loop snd fst].
  - lia.
  - destruct (Scroll.cancelled p attempts); cbn [Scroll.scroll_loop snd fst]; [lia |].
    destruct (Hsame attempts) as (h & Hh & Hnext); [lia |].
    rewrite Hnext. rewrite Hlast in Hh. injection Hh as <-.
    rewrite Z.eqb_refl.
    destruct (3 <=? S no_change)%nat eqn:Hthree; cbn [Scroll.scroll_loop snd fst].
    + rewrite iterations_scrolled. lia.
    + apply Nat.leb_gt in Hthree.
      etransitivity; [apply IH; [exact Hnext | lia |] |].
      * intros j Hj. apply Hsame. lia.
      * rewrite iterations_scrolled. lia.
Qed.

(** Three unchanged readings in a row, at iterations [j], [j+1] and [j+2],
    end the loop by iteration [j+2] at the latest. *)
Lemma scroll_loop_stops_at_three p remaining attempts last no_change done j :
  Scroll.scroll_height p attempts = Ok last ->
  (no_change < 3)%nat ->
  (attempts <= j)%nat ->
  Scroll.unchanged p j -> Scroll.unchanged p (S j) -> Scroll.unchanged p (S (S j)) ->
  (Scroll.iterations (snd (Scroll.scroll_loop p remaining attempts last no_change done))
   <= Scroll.iterations done + (j - attempts) + 3)%nat.
Proof.
  intros Hlast Hcount Hle H0 H1 H2.
  revert attempts last no_change done Hlast Hcount Hle.
  induction remaining as [| remaining IH];
    intros attempts last no_change done Hlast Hcount Hle.
  - cbn [Scroll.scroll_loop snd fst]. lia.
  - destruct (decide (attempts = j)) as [-> | Hne].
    + etransitivity; [apply scroll_loop_countdown; [exact Hlast | exact Hcount |] |].
      * intros i Hi.
        assert (i = j \/ i = S j \/ i = S (S j)) as [-> | [-> | ->]] by lia;
          assumption.
      * lia.
    + cbn [Scroll.scroll_loop snd fst].
      destruct (Scroll.cancelled p attempts); cbn [Scroll.scroll_loop snd fst]; [lia |].
      destruct (Scroll.scroll_height p (S attempts)) as [new_height | e] eqn:Hnew;
        cbn [Scroll.scroll_loop snd fst]; [| rewrite iterations_scrolled; lia].
      destruct (new_height =? last)%Z.
      * destruct (3 <=? S no_change)%nat eqn:Hthree; cbn [Scroll.scroll_loop snd fst].
        -- rewrite iterations_scrolled. lia.
        -- apply Nat.leb_gt in Hthree.
           etransitivity; [apply IH; [exact Hnew | lia | lia] |].
           rewrite iterations_scrolled. lia.
      * etransitivity; [apply IH; [exact Hnew | lia | lia] |].
        rewrite iterations_scrolled. lia.
Qed.

Lemma scroll_loop_not_returned p remaining attempts last no_change done :
  Scroll.never_cancelled p ->
  fst (Scroll.scroll_loop p remaining attempts last no_change done) <> Scroll.LoopReturned.
Proof.
  intros Hnever. revert attempts last no_change done.
  induction remaining as [| remaining IH]; intros attempts last no_change done; cbn [Scroll.scroll_loop snd fst].
  - discriminate.
  - rewrite Hnever.
    destruct (Scroll.scroll_height p (S attempts)) as [new_height | e]; cbn [Scroll.scroll_loop snd fst];
      [| discriminate].
    destruct (new_height =? last)%Z; [| apply IH].
    destruct (3 <=? S no_change)%nat; [discriminate | apply IH].
Qed.

Lemma scroll_loop_scrolls_down_only p remaining attempts last no_change done :
  scroll_down_only done ->
  scroll_down_only (snd (Scroll.scroll_loop p remaining attempts last no_change done)).
Proof.
  unfold scroll_down_only.
  revert attempts last no_change done.
  induction remaining as [| remaining IH]; intros attempts last no_change done Hdone;
    cbn [Scroll.scroll_loop snd fst]; [assumption |].
  assert (Forall (fun ev => ev = ScrollToBottom \/ exists ms, ev = Sleep ms)
            (done ++ [ScrollToBottom; Sleep 2000])) as Hmore.
  { apply Forall_app; split; [assumption |].
    constructor; [left; reflexivity |].
    constructor; [right; eexists; reflexivity | constructor]. }
  destruct (Scroll.cancelled p attempts); cbn [Scroll.scroll_loop snd fst]; [assumption |].
  destruct (Scroll.scroll_height p (S attempts)) as [new_height | e]; cbn [Scroll.scroll_loop snd fst];
    [| assumption].
  destruct (new_height =? last)%Z; [| apply IH; assumption].
  destruct (3 <=? S no_change)%nat; [assumption | apply IH; assumption].
Qed.

Lemma at_top_after_scrolling at_top done rest :
  scroll_down_only done ->
  at_top_when_extracting at_top (done ++ ScrollToTop :: rest)
  = at_top_when_extracting true rest.
Proof.
  intros Hdone. revert at_top.
  induction Hdone as [| ev done [-> | [ms ->]] _ IH]; intros at_top; cbn [Scroll.scroll_loop snd fst];
    [reflexivity | apply IH ..].
Qed.

Lemma at_top_without_extraction at_top done :
  scroll_down_only done -> at_top_when_extracting at_top done = true.
Proof.
  intros Hdone. revert at_top.
  induction Hdone as [| ev done [-> | [ms ->]] _ IH]; intros at_top; simpl;
    [reflexivity | apply IH ..].
Qed.

End ScrollFacts.

Section EnumerationFacts.
Context {elem : Type}.
Implicit Types (page : Enumerate.list_page elem).

Lemma elapsed_app (t1 t2 : trace) : elapsed (t1 ++ t2) = (elapsed t1 + elapsed t2)%Z.
Proof.
  unfold elapsed. induction t1 as [| ev t1 IH]; simpl; [reflexivity |].
  rewrite IH. lia.
Qed.

Lemma first_matching_only_queries page sels :
  Forall (fun ev => exists s, ev = FindElements s)
         (snd (Enumerate.first_matching page sels)).
Proof.
  induction sels as [| s sels IH]; simpl; [constructor |].
  destruct (Enumerate.find_elements page s) as [[| e es] | err];
    try (destruct (Enumerate.first_matching page sels) as [found queried]; simpl in *);
    constructor; eauto.
Qed.

Lemma candidate_elements_only_queries page :
  Forall (fun ev => exists s, ev = FindElements s)
         (snd (Enumerate.candidate_elements page)).
Proof.
  unfold Enumerate.candidate_elements.
  pose proof (first_matching_only_queries page Enumerate.selectors) as Hq.
  destruct (Enumerate.first_matching page Enumerate.selectors) as [[| e es] queried];
    cbn [snd] in *; [| assumption].
  unfold Enumerate.rows_fallback.
  destruct (Enumerate.find_elements page Enumerate.rows_selector); cbn [snd];
    (apply Forall_app; split; [assumption | constructor; eauto]).
Qed.

(** With the flag never seen set, the viewport is back at the top when the
    first extraction query is made. *)
Lemma extraction_starts_at_top job_id (p : Scroll.page) page :
  Scroll.never_cancelled p ->
  at_top_when_extracting true (snd (Enumerate.get_candidate_links job_id p page)) = true.
Proof.
  intros Hnever.
  unfold Enumerate.get_candidate_links, Scroll.scroll_to_load_all_candidates.
  destruct (Scroll.scroll_height p 0) as [h | e]; [| reflexivity].
  pose proof (scroll_loop_not_returned p Scroll.max_scroll_attempts 0 h 0 [] Hnever) as Hret.
  pose proof (scroll_loop_scrolls_down_only p Scroll.max_scroll_attempts 0 h 0 []
                (List.Forall_nil _)) as Hdown.
  destruct (Scroll.scroll_loop p Scroll.max_scroll_attempts 0 h 0 []) as [[n | | e] done];
    cbn [fst snd] in *; [| congruence |].
  - destruct (Enumerate.candidate_elements page) as [elements queried] eqn:Helements.
    destruct (Enumerate.process_elements page elements) as [dict excluded].
    cbn [snd at_top_when_extracting].
    rewrite <- app_assoc. cbn [app]. rewrite at_top_after_scrolling by assumption.
    cbn [at_top_when_extracting app].
    pose proof (candidate_elements_only_queries page) as Hq.
    rewrite Helements in Hq. cbn [snd] in Hq.
    destruct Hq as [| ev queried [s ->] _]; reflexivity.
  - cbn [snd at_top_when_extracting].
    apply at_top_without_extraction. assumption.
Qed.

(** C6. Identifier extraction adopts exactly one selector: when the
    selectors before [selector] in the fixed priority order match nothing
    (or their query fails) and [selector] matches, its elements are all the
    candidate elements; no later selector and no row fallback is queried,
    and nothing is merged in from them. *)
Theorem first_matching_selector_supplies_all_elements page tried selector later es :
  Enumerate.selectors = tried ++ selector :: later ->
  Forall (Enumerate.yields_nothing page) tried ->
  Enumerate.find_elements page selector = Ok es ->
  es <> [] ->
  Enumerate.candidate_elements page = (es, map FindElements (tried ++ [selector])).
Proof.
  intros Hsplit Htried Hsel Hes.
  unfold Enumerate.candidate_elements. rewrite Hsplit. clear Hsplit.
  assert (Enumerate.first_matching page (tried ++ selector :: later)
          = (es, map FindElements (tried ++ [selector]))) as ->.
  { induction Htried as [| s tried Hs _ IH]; cbn [app Enumerate.first_matching map].
    - rewrite Hsel. destruct es; [congruence | reflexivity].
    - destruct Hs as [-> | [e ->]]; rewrite IH; reflexivity. }
  destruct es; [congruence | reflexivity].
Qed.

End EnumerationFacts.

Lemma first_matching_selector_supplies_all_elements_witness :
  Enumerate.candidate_elements third_selector_page
  = ([7; 8]%nat,
     [FindElements "a[href*='/candidate/']"; FindElements "a[href*='/applicant/']";
      FindElements ".candidate-link"]).
Proof.
  apply (first_matching_selector_supplies_all_elements third_selector_page
           ["a[href*='/candidate/']"; "a[href*='/applicant/']"] ".candidate-link"
           (drop 3 Enumerate.selectors) [7; 8]%nat).
  - reflexivity.
  - repeat constructor.
  - reflexivity.
  - discriminate.
Defined.

(** C4. The scroll loop terminates for every page, after at most 50
    iterations; it stops as soon as the height has been unchanged for three
    iterations in a row (at the third of them); for a page whose height
    stops changing after [k] scrolls that is within [k + 3] iterations; and
    when the cancellation flag is not seen set inside the loop, the viewport
    is back at the top when extraction begins. *)
Theorem scroll_loop_terminates_and_restores_top
    {elem : Type} (job_id : string) (p : Scroll.page) (page : Enumerate.list_page elem) :
  let scrolled := snd (Scroll.scroll_to_load_all_candidates p) in
  (Scroll.iterations scrolled <= Scroll.max_scroll_attempts)%nat /\
  (forall j, Scroll.unchanged p j -> Scroll.unchanged p (S j) ->
             Scroll.unchanged p (S (S j)) ->
             (Scroll.iterations scrolled <= j + 3)%nat) /\
  (forall k, Scroll.stable_after p k -> (Scroll.iterations scrolled <= k + 3)%nat) /\
  (Scroll.never_cancelled p ->
   at_top_when_extracting true (snd (Enumerate.get_candidate_links job_id p page)) = true).
Proof.
  assert (forall j, Scroll.unchanged p j -> Scroll.unchanged p (S j) ->
                    Scroll.unchanged p (S (S j)) ->
                    (Scroll.iterations (snd (Scroll.scroll_to_load_all_candidates p))
                     <= j + 3)%nat) as Hthree.
  { intros j H0 H1 H2. unfold Scroll.scroll_to_load_all_candidates.
    destruct (Scroll.scroll_height p 0) as [h | e] eqn:Hh; [| cbn; lia].
    pose proof (scroll_loop_stops_at_three p Scroll.max_scroll_attempts 0 h 0 [] j
                  Hh ltac:(lia) ltac:(lia) H0 H1 H2) as Hle.
    destruct (Scroll.scroll_loop p Scroll.max_scroll_attempts 0 h 0 []) as [[n | | e] done];
      cbn [snd] in *; [rewrite iterations_app | ..]; cbn in *; lia. }
  cbv zeta. repeat split.
  - unfold Scroll.scroll_to_load_all_candidates.
    destruct (Scroll.scroll_height p 0) as [h | e]; [| cbn; lia].
    pose proof (scroll_loop_bounded p Scroll.max_scroll_attempts 0 h 0 []) as Hle.
    destruct (Scroll.scroll_loop p Scroll.max_scroll_attempts 0 h 0 []) as [[n | | e] done];
      cbn [snd] in *; [rewrite iterations_app | ..]; cbn in *; lia.
  - exact Hthree.
  - intros k Hstable. apply Hthree; apply Hstable; lia.
  - apply extraction_starts_at_top.
Qed.

Lemma settling_page_stable : Scroll.stable_after settling_page 2.
Proof.
  intros j Hj. exists 1200%Z. unfold settling_page; cbn [Scroll.scroll_height].
  rewrite !Nat.min_r by lia. split; reflexivity.
Qed.

Lemma scroll_loop_terminates_and_restores_top_witness :
  (Scroll.iterations (snd (Scroll.scroll_to_load_all_candidates settling_page)) <= 2 + 3)%nat /\
  at_top_when_extracting true
    (snd (Enumerate.get_candidate_links "10545457" settling_page empty_list_page)) = true.
Proof.
  destruct (scroll_loop_terminates_and_restores_top "10545457" settling_page empty_list_page)
    as (_ & _ & Hstable & Htop).
  split.
  - apply Hstable. exact settling_page_stable.
  - apply Htop. intros j. reflexivity.
Defined.

(** C4, as stated, fails: with the flag set during the first scroll the
    loop returns at once, nothing scrolls back to the top, and extraction
    begins with the viewport at the bottom of the page. *)
Lemma scroll_not_restored_when_cancelled :
  snd (Enumerate.get_candidate_links "10545457" cancelled_while_scrolling empty_list_page)
  = Sleep 3000 :: ScrollToBottom :: Sleep 2000
      :: map FindElements (Enumerate.selectors ++ [Enumerate.rows_selector])
  /\ at_top_when_extracting true
       (snd (Enumerate.get_candidate_links "10545457" cancelled_while_scrolling
               empty_list_page)) = false.
Proof. split; vm_compute; reflexivity. Qed.

(** ** Not-hired detection *)

Section DomFacts.
Context {elem : Type} (d : Dom.driver elem).
Implicit Types (x element : elem).

Lemma some_tag_says_not_hired_ok workflow_tags b :
  Dom.some_tag_says_not_hired d workflow_tags = Ok b ->
  existsb (Dom.says_not_hired d) workflow_tags = b.
Proof.
  revert b. induction workflow_tags as [| tag rest IH]; intros b; simpl.
  - congruence.
  - unfold Dom.says_not_hired at 1.
    destruct (Dom.text d tag) as [tag_text | e]; simpl; [| discriminate].
    destruct (Str.contains "not hired" (Str.lower tag_text)); simpl.
    + congruence.
    + apply IH.
Qed.

Lemma some_tag_says_not_hired_total workflow_tags :
  forallb (fun tag => Dom.is_ok (Dom.text d tag)) workflow_tags = true ->
  Dom.some_tag_says_not_hired d workflow_tags
  = Ok (existsb (Dom.says_not_hired d) workflow_tags).
Proof.
  induction workflow_tags as [| tag rest IH]; simpl; [reflexivity |].
  unfold Dom.says_not_hired at 1.
  destruct (Dom.text d tag) as [tag_text | e]; simpl; [| discriminate].
  intros Hrest.
  destruct (Str.contains "not hired" (Str.lower tag_text)); simpl;
    [reflexivity | apply IH, Hrest].
Qed.

Lemma inspect_level_returns_true x :
  Dom.inspect_level d x = Ok Dom.ReturnTrue -> Dom.level_marker d x = true.
Proof.
  unfold Dom.inspect_level, Dom.level_marker, Dom.marked_subtree, Dom.tagged_subtree.
  destruct (Dom.find_elements_css d x Dom.sel_not_hired) as [found | e]; simpl;
    [| discriminate].
  destruct (Dom.nonempty found); [reflexivity |]. simpl.
  destruct (Dom.find_elements_css d x Dom.sel_workflow_tags) as [tags | e]; simpl;
    [| discriminate].
  destruct (Dom.some_tag_says_not_hired d tags) as [[] | e] eqn:Htags; simpl;
    try discriminate.
  - intros _. apply some_tag_says_not_hired_ok. exact Htags.
  - destruct (Dom.parent d x); discriminate.
Qed.

Lemma inspect_level_moves_up x up :
  Dom.inspect_level d x = Ok (Dom.MoveTo up) -> Dom.parent d x = Ok up.
Proof.
  unfold Dom.inspect_level.
  destruct (Dom.find_elements_css d x Dom.sel_not_hired) as [found | e]; simpl;
    [| discriminate].
  destruct (Dom.nonempty found); [discriminate |].
  destruct (Dom.find_elements_css d x Dom.sel_workflow_tags) as [tags | e]; simpl;
    [| discriminate].
  destruct (Dom.some_tag_says_not_hired d tags) as [[] | e]; simpl; try discriminate.
  destruct (Dom.parent d x); simpl; congruence.
Qed.

Lemma inspect_level_error_free x :
  Dom.level_ok d x = true ->
  Dom.inspect_level d x
  = if Dom.level_marker d x then Ok Dom.ReturnTrue
    else match Dom.parent d x with
         | Ok up => Ok (Dom.MoveTo up)
         | Raise e => Raise e
         end.
Proof.
  unfold Dom.level_ok, Dom.inspect_level, Dom.level_marker, Dom.marked_subtree,
    Dom.tagged_subtree.
  destruct (Dom.find_elements_css d x Dom.sel_not_hired) as [found | e]; simpl;
    [| discriminate].
  destruct (Dom.find_elements_css d x Dom.sel_workflow_tags) as [tags | e]; simpl;
    [| discriminate].
  intros Htexts.
  destruct (Dom.nonempty found); simpl; [reflexivity |].
  rewrite (some_tag_says_not_hired_total _ Htexts). simpl.
  destruct (existsb (Dom.says_not_hired d) tags); [reflexivity |].
  destruct (Dom.parent d x); reflexivity.
Qed.

Lemma climb_sees_marker levels x :
  Dom.climb d levels x = true -> Dom.levels_marker d levels x = true.
Proof.
  revert x. induction levels as [| levels IH]; intros x; simpl; [discriminate |].
  destruct (Dom.inspect_level d x) as [[| up] | e] eqn:Hlevel; [| | discriminate].
  - intros _. rewrite (inspect_level_returns_true _ Hlevel). reflexivity.
  - intros Hup. rewrite (inspect_level_moves_up _ _ Hlevel).
    rewrite (IH _ Hup). apply orb_true_r.
Qed.

Lemma quick_check_sees_marker element :
  Dom.quick_check d element = Ok true ->
  Dom.own_marker d element || Dom.parent_marker d element = true.
Proof.
  unfold Dom.quick_check, Dom.own_marker, Dom.parent_marker, Dom.quick_check_parent.
  destruct (Dom.get_attribute_class d element) as [class | e]; simpl; [| discriminate].
  destruct (Str.contains "is-workflow-not-hired" (Dom.or_empty class)
            || Str.contains "not-hired" (Str.lower (Dom.or_empty class)));
    [reflexivity |]. simpl.
  destruct (Dom.parent d element) as [up | e]; simpl; [| discriminate].
  destruct (Dom.get_attribute_class d up) as [up_class | e]; simpl; [| discriminate].
  destruct (Str.contains "is-workflow-not-hired" (Dom.or_empty up_class));
    [reflexivity |]. simpl.
  destruct (Dom.find_elements_css d up Dom.sel_not_hired_quick) as [found | e]; simpl;
    congruence.
Qed.

(** C5. [is_candidate_not_hired] inspects the element's own class, its
    parent's class and the parent's descendants, and then the descendants of
    the element, of its parent and of its grandparent (levels 0 to 2), and
    excludes on the first marker it sees.  An element is excluded only if
    one of these inspections succeeded and showed a marker, so an inspection
    error never excludes; and when no inspection raises, it is excluded
    exactly when one of them shows a marker. *)
Theorem not_hired_exactly_when_marker_seen element :
  (Dom.is_candidate_not_hired d element = true -> Dom.marker_seen d element = true) /\
  (Dom.error_free d element = true ->
   Dom.is_candidate_not_hired d element = Dom.marker_seen d element).
Proof.
  split.
  - unfold Dom.is_candidate_not_hired, Dom.marker_seen.
    destruct (Dom.quick_check d element) as [[] | e] eqn:Hquick.
    + intros _. rewrite (quick_check_sees_marker _ Hquick). reflexivity.
    + intros Hclimb. rewrite (climb_sees_marker _ _ Hclimb). apply orb_true_r.
    + intros Hclimb. rewrite (climb_sees_marker _ _ Hclimb). apply orb_true_r.
  - unfold Dom.error_free, Dom.is_candidate_not_hired, Dom.marker_seen.
    unfold Dom.quick_check, Dom.own_marker, Dom.parent_marker, Dom.quick_check_parent.
    intros Hfree.
    apply andb_prop in Hfree as [Hfree Hup].
    apply andb_prop in Hfree as [Hclass Hlevel0].
    destruct (Dom.get_attribute_class d element) as [class | e]; [| discriminate].
    cbn [rbind try_except].
    destruct (Str.contains "is-workflow-not-hired" (Dom.or_empty class)
              || Str.contains "not-hired" (Str.lower (Dom.or_empty class)));
      [reflexivity |].
    cbn [orb].
    destruct (Dom.parent d element) as [up | e] eqn:Hparent; [| discriminate].
    cbn [rbind try_except any_exception].
    apply andb_prop in Hup as [Hup Hup2].
    apply andb_prop in Hup as [Hup Hlevel1].
    apply andb_prop in Hup as [Hup_class Hup_quick].
    destruct (Dom.get_attribute_class d up) as [up_class | e]; [| discriminate].
    destruct (Dom.find_elements_css d up Dom.sel_not_hired_quick) as [found | e];
      [| discriminate].
    cbn [rbind try_except any_exception].
    assert (Dom.climb d 3 element = Dom.levels_marker d 3 element) as Hclimb.
    { cbn [Dom.climb Dom.levels_marker].
      rewrite (inspect_level_error_free _ Hlevel0), Hparent.
      destruct (Dom.level_marker d element); [reflexivity |]. cbn [orb].
      rewrite (inspect_level_error_free _ Hlevel1).
      destruct (Dom.level_marker d up); [reflexivity |]. cbn [orb].
      destruct (Dom.parent d up) as [up2 | e]; [| discriminate].
      rewrite (inspect_level_error_free _ Hup2).
      destruct (Dom.level_marker d up2); [reflexivity |].
      destruct (Dom.parent d up2); reflexivity. }
    destruct (Str.contains "is-workflow-not-hired" (Dom.or_empty up_class));
      [reflexivity |].
    cbn [rbind orb].
    destruct (Dom.nonempty found); [reflexivity | exact Hclimb].
Qed.

End DomFacts.

Lemma not_hired_exactly_when_marker_seen_witness :
  Dom.is_candidate_not_hired (Tree.driver shared_list) ann_in_list
  = Dom.marker_seen (Tree.driver shared_list) ann_in_list.
Proof.
  apply (not_hired_exactly_when_marker_seen (Tree.driver shared_list) ann_in_list).
  vm_compute. reflexivity.
Defined.

(** C5, as stated, fails in both directions.  In [marked_row_table] the
    grandparent of the link (level 2 of its chain) carries the marker class
    and the link is not excluded: the class of the grandparent itself is
    never read.  In [shared_list] no element of the chain of the first link
    carries the marker and the link is excluded: the search below the
    grandparent finds the tag of another candidate. *)
Lemma not_hired_misses_marked_grandparent :
  (Tree.carries_marker marked_row_table ann 2 /\
   Dom.is_candidate_not_hired (Tree.driver marked_row_table) ann = false) /\
  ((forall level, ~ Tree.carries_marker shared_list ann_in_list level) /\
   Dom.is_candidate_not_hired (Tree.driver shared_list) ann_in_list = true).
Proof.
  split; split.
  - eexists. split; [cbn; lia |]. split; vm_compute; reflexivity.
  - vm_compute. reflexivity.
  - intros level (n & Hlevel & Hresolve & Hclass).
    cbn in Hlevel.
    assert (level = 0 \/ level = 1 \/ level = 2)%nat as [-> | [-> | ->]] by lia;
      vm_compute in Hresolve; injection Hresolve as <-;
      vm_compute in Hclass; discriminate.
  - vm_compute. reflexivity.
Qed.

(** ** Deduplication and normalisation *)

Section DedupFacts.
Context {elem : Type} (page : Enumerate.list_page elem).
Implicit Types (dict : Enumerate.candidate_dict) (element : elem).
Local Abbreviation settled := (settled_on page).

Lemma strip_prefix_some p s rest :
  Re.strip_prefix p s = Some rest -> s = p +:+ rest.
Proof.
  revert s. induction p as [| a p IH]; intros s; simpl.
  - intros [= ->]. reflexivity.
  - destruct s as [| b s]; [discriminate |].
    destruct (Ascii.eqb a b) eqn:Hab; [| discriminate].
    apply Ascii.eqb_eq in Hab as ->. intros H. rewrite (IH _ H). reflexivity.
Qed.

Lemma process_element_unfold dict excluded element :
  Enumerate.process_element page (dict, excluded) element
  = match Enumerate.candidate_of page element with
    | None => (dict, excluded)
    | Some (candidate_id, href) =>
        if Enumerate.in_dict candidate_id dict then (dict, excluded)
        else if Dom.is_candidate_not_hired (Enumerate.dom page) element
        then (dict, S excluded)
        else (dict ++ [(candidate_id, href)], excluded)
    end.
Proof.
  unfold Enumerate.process_element, Enumerate.candidate_of.
  destruct (Dom.get_attribute_href (Enumerate.dom page) element) as [[href |] | e];
    try reflexivity.
  destruct (Str.is_empty href
            || negb (Str.contains "candidate" href)
               && negb (Str.contains "applicant" href)); [reflexivity |].
  destruct (Re.search_candidate href); reflexivity.
Qed.

Lemma candidate_of_search element candidate_id href :
  Enumerate.candidate_of page element = Some (candidate_id, href) ->
  Re.search_candidate href = Some candidate_id.
Proof.
  unfold Enumerate.candidate_of.
  destruct (Dom.get_attribute_href (Enumerate.dom page) element) as [[h |] | e];
    try discriminate.
  destruct (Str.is_empty h || _); [discriminate |].
  destruct (Re.search_candidate h) eqn:Hs; [| discriminate].
  intros [= <- <-]. exact Hs.
Qed.

Lemma in_dict_spec candidate_id dict :
  Enumerate.in_dict candidate_id dict = true <-> candidate_id ∈ Enumerate.dict_keys dict.
Proof. unfold Enumerate.in_dict. apply bool_decide_eq_true. Qed.

Lemma process_element_invariant dict excluded element :
  NoDup (Enumerate.dict_keys dict) -> keyed_by_href dict ->
  let dict' := fst (Enumerate.process_element page (dict, excluded) element) in
  NoDup (Enumerate.dict_keys dict') /\ keyed_by_href dict'.
Proof.
  intros Hnodup Hkeyed. rewrite process_element_unfold.
  destruct (Enumerate.candidate_of page element) as [[candidate_id href] |] eqn:Hcand;
    [| split; assumption].
  destruct (Enumerate.in_dict candidate_id dict) eqn:Hin; [split; assumption |].
  destruct (Dom.is_candidate_not_hired (Enumerate.dom page) element);
    [split; assumption |].
  cbn [fst]. split.
  - unfold Enumerate.dict_keys. rewrite fmap_app. apply NoDup_app.
    split; [exact Hnodup |]. split; [| apply NoDup_singleton].
    intros x Hx Hx'. apply list_elem_of_singleton in Hx'. cbn in Hx'. subst x.
    apply in_dict_spec in Hx. congruence.
  - intros cid h Hmem. apply elem_of_app in Hmem as [Hmem | Hmem].
    + apply Hkeyed. exact Hmem.
    + apply list_elem_of_singleton in Hmem. injection Hmem as -> ->.
      apply (candidate_of_search _ _ _ Hcand).
Qed.

Lemma process_elements_invariant dict excluded elements :
  NoDup (Enumerate.dict_keys dict) -> keyed_by_href dict ->
  let dict' := fst (foldl (Enumerate.process_element page) (dict, excluded) elements) in
  NoDup (Enumerate.dict_keys dict') /\ keyed_by_href dict'.
Proof.
  revert dict excluded.
  induction elements as [| element elements IH]; intros dict excluded Hnodup Hkeyed;
    cbn [foldl]; [split; assumption |].
  destruct (process_element_invariant dict excluded element Hnodup Hkeyed) as [Hn Hk].
  destruct (Enumerate.process_element page (dict, excluded) element) as [dict1 excluded1].
  apply IH; assumption.
Qed.

Lemma process_elements_keyed elements :
  NoDup (Enumerate.dict_keys (fst (Enumerate.process_elements page elements))) /\
  keyed_by_href (fst (Enumerate.process_elements page elements)).
Proof.
  apply process_elements_invariant.
  - constructor.
  - intros cid h Hin. inversion Hin.
Qed.

Lemma keys_grow dict excluded element :
  Enumerate.dict_keys dict
  ⊆ Enumerate.dict_keys (fst (Enumerate.process_element page (dict, excluded) element)).
Proof.
  rewrite process_element_unfold.
  destruct (Enumerate.candidate_of page element) as [[candidate_id href] |]; [| done].
  destruct (Enumerate.in_dict candidate_id dict); [done |].
  destruct (Dom.is_candidate_not_hired (Enumerate.dom page) element); [done |].
  cbn [fst]. unfold Enumerate.dict_keys. rewrite fmap_app.
  intros x Hx. apply elem_of_app. left. exact Hx.
Qed.

Lemma settled_after_processing dict excluded element :
  settled (fst (Enumerate.process_element page (dict, excluded) element)) element.
Proof.
  intros n. rewrite !process_element_unfold.
  destruct (Enumerate.candidate_of page element) as [[candidate_id href] |] eqn:Hcand;
    [| reflexivity].
  destruct (Enumerate.in_dict candidate_id dict) eqn:Hin; cbn [fst].
  - rewrite Hin. reflexivity.
  - destruct (Dom.is_candidate_not_hired (Enumerate.dom page) element) eqn:Hhired;
      cbn [fst].
    + rewrite Hin. reflexivity.
    + assert (Enumerate.in_dict candidate_id (dict ++ [(candidate_id, href)]) = true)
        as ->; [| reflexivity].
      apply in_dict_spec. unfold Enumerate.dict_keys. rewrite fmap_app.
      apply elem_of_app. right. apply list_elem_of_singleton. reflexivity.
Qed.

Lemma settled_mono dict dict' element :
  settled dict element ->
  Enumerate.dict_keys dict ⊆ Enumerate.dict_keys dict' ->
  settled dict' element.
Proof.
  intros Hsettled Hsub n. specialize (Hsettled n).
  rewrite process_element_unfold in *.
  destruct (Enumerate.candidate_of page element) as [[candidate_id href] |];
    [| reflexivity].
  destruct (Enumerate.in_dict candidate_id dict') eqn:Hin'; [reflexivity |].
  destruct (Enumerate.in_dict candidate_id dict) eqn:Hin.
  - apply in_dict_spec in Hin. apply Hsub in Hin. apply in_dict_spec in Hin. congruence.
  - destruct (Dom.is_candidate_not_hired (Enumerate.dom page) element);
      [reflexivity |].
    cbn [fst] in Hsettled. apply (f_equal List.length) in Hsettled.
    rewrite List.length_app in Hsettled. cbn in Hsettled. lia.
Qed.

Lemma all_settled_after_processing elements dict excluded :
  let final := fst (foldl (Enumerate.process_element page) (dict, excluded) elements) in
  Enumerate.dict_keys dict ⊆ Enumerate.dict_keys final /\
  forall element, element ∈ elements -> settled final element.
Proof.
  revert dict excluded.
  induction elements as [| element elements IH]; intros dict excluded; cbn [foldl].
  - split; [done |]. intros element Hin. inversion Hin.
  - pose proof (keys_grow dict excluded element) as Hgrow.
    pose proof (settled_after_processing dict excluded element) as Hsettled.
    destruct (Enumerate.process_element page (dict, excluded) element)
      as [dict1 excluded1].
    cbn [fst] in *.
    destruct (IH dict1 excluded1) as [Hsub Hall]. split.
    + etransitivity; eassumption.
    + intros x Hx. apply elem_of_cons in Hx as [-> | Hx].
      * eapply settled_mono; eassumption.
      * apply Hall. exact Hx.
Qed.

Lemma settled_elements_change_nothing elements (acc : Enumerate.candidate_dict * nat) :
  (forall element, element ∈ elements -> settled (fst acc) element) ->
  fst (foldl (Enumerate.process_element page) acc elements) = fst acc.
Proof.
  destruct acc as [dict excluded]. cbn [fst]. revert excluded.
  induction elements as [| element elements IH]; intros excluded Hall; cbn [foldl];
    [reflexivity |].
  pose proof (Hall element ltac:(apply elem_of_cons; left; reflexivity) excluded) as Hfst.
  destruct (Enumerate.process_element page (dict, excluded) element)
    as [dict1 excluded1].
  cbn [fst] in Hfst. subst dict1.
  apply IH. intros x Hx. apply Hall. apply elem_of_cons. right. exact Hx.
Qed.

Lemma survivor_is_recorded elements dict excluded element candidate_id href :
  element ∈ elements ->
  Enumerate.candidate_of page element = Some (candidate_id, href) ->
  Dom.is_candidate_not_hired (Enumerate.dom page) element = false ->
  candidate_id ∈ Enumerate.dict_keys
    (fst (foldl (Enumerate.process_element page) (dict, excluded) elements)).
Proof.
  intros Hin Hcand Hhired.
  destruct (all_settled_after_processing elements dict excluded) as [_ Hall].
  specialize (Hall element Hin 0%nat).
  rewrite process_element_unfold, Hcand, Hhired in Hall.
  destruct (Enumerate.in_dict candidate_id _) eqn:Hdict.
  - apply in_dict_spec. exact Hdict.
  - cbn [fst] in Hall. apply (f_equal List.length) in Hall.
    rewrite List.length_app in Hall. cbn in Hall. lia.
Qed.

(** C7. Deduplication is idempotent: the dictionary holds one entry per
    candidate id, feeding every element a second time changes nothing, and
    a candidate link that is valid and not marked not-hired is recorded (so
    exactly once).  Normalisation maps an entry whose href starts with
    [http] to [{base}/job/{jobId}/candidate/{candidateId}/profile] for the
    candidate id it is recorded under; any other href is kept as it is. *)
Theorem deduplication_idempotent_and_http_links_canonical
    (job_id : string) (elements : list elem) :
  let dict := fst (Enumerate.process_elements page elements) in
  NoDup (Enumerate.dict_keys dict) /\
  fst (Enumerate.process_elements page (elements ++ elements)) = dict /\
  (forall element candidate_id href,
     element ∈ elements ->
     Enumerate.candidate_of page element = Some (candidate_id, href) ->
     Dom.is_candidate_not_hired (Enumerate.dom page) element = false ->
     candidate_id ∈ Enumerate.dict_keys dict) /\
  (forall candidate_id href,
     (candidate_id, href) ∈ dict ->
     Enumerate.normalize_link job_id href
     = if Str.startswith href "http"
       then Enumerate.profile_url job_id candidate_id
       else href).
Proof.
  cbv zeta. unfold Enumerate.process_elements.
  assert (NoDup (Enumerate.dict_keys []) /\ keyed_by_href []) as [Hn0 Hk0].
  { split; [constructor |]. intros cid h Hin. inversion Hin. }
  destruct (process_elements_invariant [] 0%nat elements Hn0 Hk0) as [Hnodup Hkeyed].
  split; [exact Hnodup |]. split; [| split].
  - rewrite foldl_app.
    destruct (all_settled_after_processing elements [] 0%nat) as [_ Hall].
    apply settled_elements_change_nothing. exact Hall.
  - intros element candidate_id href. apply survivor_is_recorded.
  - intros candidate_id href Hin. unfold Enumerate.normalize_link.
    rewrite (Hkeyed _ _ Hin). reflexivity.
Qed.

End DedupFacts.

Lemma deduplication_idempotent_and_http_links_canonical_witness :
  "102" ∈ Enumerate.dict_keys
            (fst (Enumerate.process_elements five_links_page [1; 2; 2; 1]%nat)) /\
  Enumerate.normalize_link "10545457"
    "https://app.jazz.co/app/v2/job/10545457/candidate/102/scorecard"
  = Enumerate.profile_url "10545457" "102".
Proof.
  destruct (deduplication_idempotent_and_http_links_canonical five_links_page
              "10545457" [1; 2; 2; 1]%nat) as (_ & _ & Hrecorded & Hnormal).
  split.
  - apply (Hrecorded 2%nat "102"
             "https://app.jazz.co/app/v2/job/10545457/candidate/102/scorecard").
    + apply elem_of_cons. right. apply elem_of_cons. left. reflexivity.
    + vm_compute. reflexivity.
    + vm_compute. reflexivity.
  - apply (Hnormal "102"
             "https://app.jazz.co/app/v2/job/10545457/candidate/102/scorecard").
    vm_compute. apply elem_of_cons. right. apply elem_of_cons. left. reflexivity.
Defined.

(** C7, as stated, fails: a surviving candidate whose href does not
    start with [http] is returned as it is, not as a canonical profile
    URL. *)
Lemma non_http_link_is_not_canonical :
  Enumerate.links (fst (Enumerate.get_candidate_links "10545457" settling_page ftp_link_page))
  = ["ftp://files.example/candidate/5"] /\
  forall job_id candidate_id,
    "ftp://files.example/candidate/5" <> Enumerate.profile_url job_id candidate_id.
Proof.
  split; [vm_compute; reflexivity |].
  intros job_id candidate_id H.
  apply (f_equal (fun s => match s with String c _ => c | EmptyString => "000"%char end)) in H.
  vm_compute in H. discriminate.
Qed.

(** ** What an enumeration hands to the run *)

Section EnumerationResult.
Context {elem : Type} (job_id : string) (scroll : Scroll.page)
  (page : Enumerate.list_page elem).

(** Every link returned is tracked by the ids stored with it, and there are
    as many links as ids; an enumeration cut short by an exception returns
    no link. *)
Lemma get_candidate_links_tracked :
  let found := fst (Enumerate.get_candidate_links job_id scroll page) in
  match Enumerate.candidate_ids found with
  | Some ids =>
      Forall (Enumerate.tracked job_id ids) (Enumerate.links found) /\
      List.length (Enumerate.links found) = size ids
  | None => Enumerate.links found = []
  end.
Proof.
  cbv zeta. unfold Enumerate.get_candidate_links.
  destruct (Scroll.scroll_to_load_all_candidates scroll) as [[[] | e] scrolled];
    [| reflexivity].
  destruct (Enumerate.candidate_elements page) as [elements queried].
  pose proof (process_elements_keyed page elements) as [Hnodup Hkeyed].
  revert Hnodup Hkeyed.
  destruct (Enumerate.process_elements page elements) as [dict excluded].
  intros Hnodup Hkeyed.
  cbn [fst Enumerate.candidate_ids Enumerate.links] in *.
  split.
  - apply Forall_forall. intros link Hlink.
    apply list_elem_of_fmap in Hlink as (href & -> & Hhref).
    apply list_elem_of_fmap in Hhref as ([candidate_id href'] & -> & Hentry).
    cbn [snd]. intros Hhttp. unfold Enumerate.normalize_link in *.
    pose proof (Hkeyed _ _ Hentry) as Hsearch.
    destruct (Str.startswith href' "http") eqn:Hstart; [| congruence].
    rewrite Hsearch. exists candidate_id.
    destruct (search_candidate_digits _ _ Hsearch) as [Hdigits Hnonempty].
    repeat split; try assumption.
    apply elem_of_list_to_set. apply list_elem_of_fmap.
    exists (candidate_id, href'). split; [reflexivity | exact Hentry].
  - unfold Enumerate.dict_values, Enumerate.dict_keys in *.
    rewrite !length_fmap. rewrite size_list_to_set by exact Hnodup.
    rewrite length_fmap. reflexivity.
Qed.

End EnumerationResult.

(** ** The run *)

Section StepFacts.
Context (R : relation downloader) `{!PreOrder R}.

Lemma respects_ret {A} (a : A) : Run.respects R (Run.ret a).
Proof. intros st r st' [= <- <-]. reflexivity. Qed.

Lemma respects_raise {A} (e : exn) : Run.respects R (@Run.raise A e).
Proof. intros st r st' [= <- <-]. reflexivity. Qed.

Lemma respects_emit (evs : trace) : Run.respects R (Run.emit evs).
Proof. intros st r st' [= <- <-]. reflexivity. Qed.

Lemma respects_clock : Run.respects R Run.clock.
Proof. intros st r st' [= <- <-]. reflexivity. Qed.

Lemma respects_lift {A} (c : result A) : Run.respects R (Run.lift c).
Proof. intros st r st' [= <- <-]. reflexivity. Qed.

Lemma respects_update (f : downloader -> downloader) :
  (forall self_, R self_ (f self_)) -> Run.respects R (Run.update f).
Proof. intros Hf st r st' [= <- <-]. apply Hf. Qed.

Lemma respects_observe {A} (f : Z -> downloader -> (A * downloader) * trace) :
  (forall t self_, R self_ (snd (fst (f t self_)))) -> Run.respects R (Run.observe f).
Proof.
  intros Hf st r st'. unfold Run.observe.
  specialize (Hf (Run.now st) (Run.self st)).
  destruct (f (Run.now st) (Run.self st)) as [[a self'] t].
  intros [= <- <-]. exact Hf.
Qed.

Lemma respects_bind {A B} (c : Run.M A) (k : A -> Run.M B) :
  Run.respects R c -> (forall a, Run.respects R (k a)) -> Run.respects R (Run.bind c k).
Proof.
  intros Hc Hk st r st'. unfold Run.bind.
  destruct (c st) as [[a | e] st1] eqn:Hrun.
  - intros Hrest. etransitivity; [eapply Hc, Hrun | eapply Hk, Hrest].
  - intros [= <- <-]. eapply Hc, Hrun.
Qed.

Lemma respects_try_catch {A} (c : Run.M A) (h : exn -> Run.M A) :
  Run.respects R c -> (forall e, Run.respects R (h e)) ->
  Run.respects R (Run.try_catch c h).
Proof.
  intros Hc Hh st r st'. unfold Run.try_catch.
  destruct (c st) as [[a | e] st1] eqn:Hrun.
  - intros [= <- <-]. eapply Hc, Hrun.
  - intros Hrest. etransitivity; [eapply Hc, Hrun | eapply Hh, Hrest].
Qed.

End StepFacts.

Ltac respects_step :=
  lazymatch goal with
  | |- Run.respects _ (Run.bind _ _) =>
      apply respects_bind; try exact _; [| intros ?]
  | |- Run.respects _ (Run.try_catch _ _) =>
      apply respects_try_catch; try exact _; [| intros ?]
  | |- Run.respects _ (Run.ret _) => apply respects_ret; try exact _
  | |- Run.respects _ (Run.raise _) => apply respects_raise; try exact _
  | |- Run.respects _ (Run.emit _) => apply respects_emit; try exact _
  | |- Run.respects _ (Run.lift _) => apply respects_lift; try exact _
  | |- Run.respects _ Run.clock => apply respects_clock; try exact _
  | |- Run.respects _ (if ?b then _ else _) => destruct b
  | |- Run.respects _ (match ?x with _ => _ end) => destruct x
  end.

Section RunFacts.
Context {elem : Type} (cfg : Run.config) (w : Run.world elem).

Section AnyRelation.
Context (R : relation downloader) `{!PreOrder R}.

Lemma respects_get_and_settle url : Run.respects R (Run.get_and_settle w url).
Proof. unfold Run.get_and_settle, Run.get. repeat respects_step. Qed.

Lemma respects_check_login_required : Run.respects R (Run.check_login_required cfg w).
Proof. unfold Run.check_login_required. repeat respects_step. Qed.

Lemma respects_read_cancelled : Run.respects R (Run.read_cancelled w).
Proof. unfold Run.read_cancelled. repeat respects_step. Qed.

Lemma respects_wait_for_login : Run.respects R (Run.wait_for_login cfg w).
Proof.
  unfold Run.wait_for_login. apply respects_observe; try exact _.
  intros t self_. destruct (LoginWait.wait_for_login _). reflexivity.
Qed.

Lemma respects_navigate : Run.respects R (Run.navigate_to_candidate_list cfg w).
Proof.
  unfold Run.navigate_to_candidate_list.
  repeat first [ apply respects_get_and_settle
               | apply respects_check_login_required
               | apply respects_wait_for_login
               | respects_step ].
Qed.

End AnyRelation.

Lemma respects_get_candidate_links {A} (field : downloader -> A) :
  (forall ids self_, field (set_all_candidate_ids ids self_) = field self_) ->
  Run.respects (same field) (Run.get_candidate_links cfg w).
Proof.
  intros Hfield. unfold Run.get_candidate_links.
  apply respects_observe; try exact _.
  intros t self_.
  destruct (Enumerate.get_candidate_links _ _ _) as [found done].
  cbn [fst snd]. destruct (Enumerate.candidate_ids found); [| reflexivity].
  unfold same. symmetry. apply Hfield.
Qed.

Lemma setup_driver_opens st st' :
  Run.setup_driver cfg w st = (Ok tt, st') -> driver (Run.self st') = true.
Proof.
  unfold Run.setup_driver, Run.load_cookies, Run.get.
  cbv [Run.bind Run.lift Run.update Run.emit Run.clock Run.ret].
  destruct (Run.chrome_starts w); [| discriminate].
  destruct (Run.no_cookies cfg).
  - intros [= <-]. reflexivity.
  - destruct (Run.cookies cfg) as [[| c cs] |].
    + intros [= <-]. reflexivity.
    + cbn [Run.self Run.history].
      destruct (Run.driver_get w _ _); intros [= <-]. reflexivity.
    + intros [= <-]. reflexivity.
Qed.


Lemma bind_ok_inv {A B} (c : Run.M A) (k : A -> Run.M B) st b st' :
  Run.bind c k st = (Ok b, st') ->
  exists a st1, c st = (Ok a, st1) /\ k a st1 = (Ok b, st').
Proof.
  unfold Run.bind. destruct (c st) as [[a | e] st1]; [eauto | discriminate].
Qed.

Lemma respects_fetch {A} (field : downloader -> A) candidate_url :
  untouched_by_fetch field ->
  Run.respects (same field) (Run.download_resume_from_profile w candidate_url).
Proof.
  intros (Hfail & Hfile & Hdone). unfold Run.download_resume_from_profile.
  apply respects_observe; try exact _.
  intros t self_. unfold same, Fetch.download_resume_from_profile.
  destruct (Str.startswith candidate_url "http"); cbn [fst snd]; [| symmetry; apply Hfail].
  destruct (Fetch.located (Run.profile_at w t)) as [[] | e]; cbn [fst snd];
    try (symmetry; apply Hfail).
  unfold Fetch.trigger_and_verify.
  destruct (Fetch.scroll_into_view _); cbn [fst snd]; [| symmetry; apply Hfail].
  destruct (try_except _ _ _); cbn [fst snd]; [| symmetry; apply Hfail].
  destruct (Verify.verify_download _) as [verdict waited].
  destruct (Verify.verified verdict); cbn [fst snd].
  - rewrite Hdone, Hfile. reflexivity.
  - rewrite Hfail, Hfile. reflexivity.
Qed.

Lemma respects_candidate_loop {A} (field : downloader -> A) links i n :
  untouched_by_fetch field ->
  Run.respects (same field) (Run.candidate_loop cfg w links i n).
Proof.
  intros Hfield. revert i.
  induction links as [| candidate_url rest IH]; intros i; cbn [Run.candidate_loop].
  - apply respects_ret; exact _.
  - unfold Run.process_candidate, Run.after_fetch, Run.recover.
    repeat first [ apply IH
                 | apply respects_read_cancelled; exact _
                 | apply respects_navigate; exact _
                 | apply respects_fetch; exact Hfield
                 | apply respects_update; try exact _; intros ?; symmetry;
                   apply (proj1 Hfield)
                 | respects_step ].
Qed.

Lemma driver_untouched_by_fetch : untouched_by_fetch driver.
Proof. repeat split. Qed.

Lemma find_candidates_opens_driver links st :
  Run.find_candidates cfg w Run.initial_state = (Ok links, st) ->
  driver (Run.self st) = true.
Proof.
  unfold Run.find_candidates. intros Hrun.
  apply bind_ok_inv in Hrun as ([] & st0 & Hsetup & Hrun).
  rewrite <- (setup_driver_opens _ _ Hsetup). symmetry.
  revert Hrun. generalize st0 (Ok links) st. change (Run.respects (same driver)
    (Run.bind (Run.navigate_to_candidate_list cfg w)
       (fun _ => Run.bind (Run.get_candidate_links cfg w)
          (fun candidate_links =>
             if Run.is_nil candidate_links
             then Run.bind (Run.emit [Log NoCandidatesRetrying; Sleep 10000])
                    (fun _ => Run.bind (Run.navigate_to_candidate_list cfg w)
                       (fun _ => Run.get_candidate_links cfg w))
             else Run.ret candidate_links)))).
  repeat first [ apply respects_navigate; exact _
               | apply (respects_get_candidate_links driver); reflexivity
               | respects_step ].
Qed.

(** The loop over a list that continues another: the first part runs, and
    unless it was cancelled the second part starts where it ended. *)
Lemma candidate_loop_app done rest i n st :
  Run.candidate_loop cfg w (done ++ rest) i n st
  = match Run.candidate_loop cfg w done i n st with
    | (Ok Run.LoopCompleted, st') =>
        Run.candidate_loop cfg w rest (i + List.length done) n st'
    | ended => ended
    end.
Proof.
  revert i st. induction done as [| candidate_url done IH]; intros i st.
  - cbn [app Run.candidate_loop List.length]. unfold Run.ret.
    rewrite Nat.add_0_r. reflexivity.
  - cbn [app Run.candidate_loop List.length].
    unfold Run.bind at 1 3. unfold Run.read_cancelled at 1 2.
    cbv [Run.bind Run.clock Run.ret].
    destruct (Run.cancelled_at w (Run.now st)); [reflexivity |].
    cbv [Run.emit].
    destruct (Run.try_catch _ _ _) as [[[] | e] st1]; [| reflexivity].
    rewrite IH. replace (S i + List.length done)%nat with (i + S (List.length done))%nat by lia.
    reflexivity.
Qed.


Lemma fetch_ids self_ candidate_url profile :
  fetch_step candidate_url self_
    (snd (fst (Fetch.download_resume_from_profile self_ candidate_url profile))).
Proof.
  unfold fetch_step, Fetch.download_resume_from_profile.
  destruct (Str.startswith candidate_url "http") eqn:Hhttp; cbn [fst snd]; [| auto].
  destruct (Fetch.located profile) as [[] | e]; cbn [fst snd]; auto.
  unfold Fetch.trigger_and_verify.
  destruct (Fetch.scroll_into_view profile); cbn [fst snd]; auto.
  destruct (try_except _ _ _); cbn [fst snd]; auto.
  destruct (Verify.verify_download _) as [verdict waited].
  destruct (Verify.verified verdict); cbn [fst snd]; auto.
  split; [reflexivity |].
  destruct (Re.search_candidate (Fetch.profile_target candidate_url)) as [id |] eqn:Hid;
    cbn; eauto.
Qed.

Lemma iteration_ids candidate_url i n st r st' :
  Run.try_catch (Run.process_candidate cfg w candidate_url i n) (Run.recover cfg w i) st
  = (r, st') ->
  fetch_step candidate_url (Run.self st) (Run.self st').
Proof.
  assert (forall success, Run.respects (same both_id_sets)
                            (Run.after_fetch cfg w success i n)) as Hafter.
  { intros success. unfold Run.after_fetch.
    repeat first [ apply respects_navigate; exact _ | respects_step ]. }
  assert (forall e, Run.respects (same both_id_sets) (Run.recover cfg w i e)) as Hrecover.
  { intros e. unfold Run.recover.
    repeat first [ apply respects_navigate; exact _
                 | apply respects_update; try exact _; intros ?; reflexivity
                 | respects_step ]. }
  unfold Run.try_catch, Run.process_candidate, Run.bind,
    Run.download_resume_from_profile, Run.observe.
  pose proof (fetch_ids (Run.self st) candidate_url (Run.profile_at w (Run.now st)))
    as Hfetch.
  destruct (Fetch.download_resume_from_profile _ _ _) as [[success self1] fetched].
  cbn [fst snd] in Hfetch.
  set (st1 := Run.State self1 (Run.history st ++ fetched)).
  destruct (Run.after_fetch cfg w success i n st1) as [[[] | e] st2] eqn:Hrest.
  - intros [= <- <-]. apply Hafter in Hrest. unfold same, both_id_sets in Hrest.
    cbn [Run.self st1] in Hrest. injection Hrest as Hdl Hall.
    unfold fetch_step in *. rewrite <- Hdl, <- Hall. exact Hfetch.
  - intros Hhandled. apply Hafter in Hrest. apply Hrecover in Hhandled.
    unfold same, both_id_sets in Hrest, Hhandled. cbn [Run.self st1] in Hrest.
    injection Hrest as Hdl Hall. injection Hhandled as Hdl' Hall'.
    unfold fetch_step in *. rewrite <- Hdl', <- Hall', <- Hdl, <- Hall. exact Hfetch.
Qed.

Lemma size_add_one (id : string) (ids : gset string) :
  size ({[ id ]} ∪ ids) <= S (size ids).
Proof.
  rewrite size_union_alt, size_singleton.
  apply le_n_S, subseteq_size.
  intros x Hx. apply elem_of_difference in Hx. apply Hx.
Qed.

(** The loop keeps the found ids, adds at most one downloaded id per
    candidate and, for tracked links of a plain job identifier, only ids
    that were found. *)
Lemma candidate_loop_ids links i n st r st' :
  Run.candidate_loop cfg w links i n st = (r, st') ->
  all_candidate_ids (Run.self st') = all_candidate_ids (Run.self st) /\
  size (downloaded_candidate_ids (Run.self st'))
  <= size (downloaded_candidate_ids (Run.self st)) + List.length links /\
  (Forall (Enumerate.tracked (Run.job_id cfg) (all_candidate_ids (Run.self st))) links ->
   Enumerate.job_id_plain (Run.job_id cfg) = true ->
   downloaded_candidate_ids (Run.self st) ⊆ all_candidate_ids (Run.self st) ->
   downloaded_candidate_ids (Run.self st') ⊆ all_candidate_ids (Run.self st')).
Proof.
  revert i st. induction links as [| candidate_url links IH]; intros i st;
    cbn [Run.candidate_loop List.length].
  - intros [= <- <-]. repeat split; [lia | auto].
  - unfold Run.bind at 1. unfold Run.read_cancelled.
    cbv [Run.bind Run.clock Run.ret].
    destruct (Run.cancelled_at w (Run.now st)).
    + cbv [Run.emit]. intros [= <- <-]. cbn [Run.self].
      repeat split; [lia | auto].
    + cbv [Run.emit].
      set (st_ := Run.State (Run.self st) _).
      destruct (Run.try_catch _ _ st_) as [r1 st1] eqn:Hiter.
      apply iteration_ids in Hiter as [Hall Hdl]. cbn [Run.self st_] in Hall, Hdl.
      assert (size (downloaded_candidate_ids (Run.self st1))
              <= S (size (downloaded_candidate_ids (Run.self st)))) as Hsize.
      { destruct Hdl as [-> | (id & _ & _ & ->)]; [lia | apply size_add_one]. }
      assert (Forall (Enumerate.tracked (Run.job_id cfg)
                        (all_candidate_ids (Run.self st))) (candidate_url :: links) ->
              Enumerate.job_id_plain (Run.job_id cfg) = true ->
              downloaded_candidate_ids (Run.self st) ⊆ all_candidate_ids (Run.self st) ->
              downloaded_candidate_ids (Run.self st1) ⊆ all_candidate_ids (Run.self st1))
        as Hsub.
      { intros Htracked Hplain Hbefore. rewrite Hall.
        destruct Hdl as [-> | (id & Hhttp & Hid & ->)]; [exact Hbefore |].
        apply Forall_cons in Htracked as [Hurl _].
        destruct (Hurl Hhttp) as (cid & Hcid & Hdigits & Hnonempty & ->).
        unfold Fetch.profile_target in Hid.
        rewrite profile_url_ends_with_profile in Hid.
        rewrite (search_candidate_profile_url _ _ Hplain Hdigits Hnonempty) in Hid.
        injection Hid as <-.
        intros x [Hx | Hx]%elem_of_union; [| apply Hbefore, Hx].
        apply elem_of_singleton in Hx. subst x. exact Hcid. }
      destruct r1 as [[] | e].
      * intros Hrest. apply IH in Hrest as (Hall' & Hsize' & Hsub').
        split; [congruence |]. split; [lia |].
        intros Htracked Hplain Hbefore. apply Hsub'; [| exact Hplain | auto].
        rewrite Hall. apply Forall_cons in Htracked as [_ Hlinks]. exact Hlinks.
      * intros [= <- <-]. repeat split; [exact Hall | lia | exact Hsub].
Qed.

Lemma get_candidate_links_post st r st' :
  Run.get_candidate_links cfg w st = (r, st') ->
  exists links,
    r = Ok links /\
    Forall (Enumerate.tracked (Run.job_id cfg) (all_candidate_ids (Run.self st'))) links /\
    List.length links <= size (all_candidate_ids (Run.self st')).
Proof.
  unfold Run.get_candidate_links, Run.observe.
  pose proof (get_candidate_links_tracked (Run.job_id cfg) (Run.scroll_view w (Run.now st))
                (Run.list_page_at w (Run.extraction_time w (Run.now st)))) as Hpost.
  cbv zeta in Hpost.
  destruct (Enumerate.get_candidate_links _ _ _) as [found done].
  cbn [fst] in Hpost. intros [= <- <-]. exists (Enumerate.links found).
  split; [reflexivity |]. cbn [Run.self].
  destruct (Enumerate.candidate_ids found) as [ids |].
  - destruct Hpost as [Htracked Hlength].
    cbn [all_candidate_ids set_all_candidate_ids]. split; [exact Htracked | lia].
  - rewrite Hpost. split; [constructor | cbn; lia].
Qed.

Lemma respects_setup_driver {A} (field : downloader -> A) :
  (forall open self_, field (set_driver open self_) = field self_) ->
  Run.respects (same field) (Run.setup_driver cfg w).
Proof.
  intros Hfield. unfold Run.setup_driver, Run.load_cookies, Run.get.
  repeat first [ apply respects_update; try exact _; intros ?; symmetry; apply Hfield
               | respects_step ].
Qed.

Lemma find_candidates_post links st :
  Run.find_candidates cfg w Run.initial_state = (Ok links, st) ->
  Forall (Enumerate.tracked (Run.job_id cfg) (all_candidate_ids (Run.self st))) links /\
  List.length links <= size (all_candidate_ids (Run.self st)) /\
  downloaded_candidate_ids (Run.self st) = ∅.
Proof.
  unfold Run.find_candidates. intros Hrun.
  apply bind_ok_inv in Hrun as ([] & st0 & Hsetup & Hrun).
  apply bind_ok_inv in Hrun as ([] & st1 & Hnav & Hrun).
  apply bind_ok_inv in Hrun as (first & st2 & Hfirst & Hrun).
  assert (downloaded_candidate_ids (Run.self st2) = ∅) as Hempty.
  { transitivity (downloaded_candidate_ids (Run.self st1)).
    { symmetry. apply (respects_get_candidate_links downloaded_candidate_ids
                         (fun _ _ => eq_refl) _ _ _ Hfirst). }
    transitivity (downloaded_candidate_ids (Run.self st0)).
    { symmetry. apply (respects_navigate (same downloaded_candidate_ids) _ _ _ Hnav). }
    symmetry. apply (respects_setup_driver downloaded_candidate_ids
                       (fun _ _ => eq_refl) _ _ _ Hsetup). }
  destruct (Run.is_nil first) eqn:Hnil.
  - apply bind_ok_inv in Hrun as ([] & st3 & Hlog & Hrun).
    apply bind_ok_inv in Hrun as ([] & st4 & Hrenav & Hsecond).
    injection Hlog as <-.
    destruct (get_candidate_links_post _ _ _ Hsecond) as (links' & [= <-] & Htracked & Hlen).
    repeat split; [exact Htracked | exact Hlen |].
    transitivity (downloaded_candidate_ids (Run.self st4)).
    { symmetry. apply (respects_get_candidate_links downloaded_candidate_ids
                         (fun _ _ => eq_refl) _ _ _ Hsecond). }
    rewrite <- Hempty. symmetry.
    apply (respects_navigate (same downloaded_candidate_ids) _ _ _ Hrenav).
  - injection Hrun as <- <-.
    destruct (get_candidate_links_post _ _ _ Hfirst) as (links' & [= <-] & Htracked & Hlen).
    repeat split; assumption.
Qed.


(** C8. In headless mode with no cookies, when the candidate list asks
    for a login the run fails at once with the credentials-required error:
    the only wait is the five seconds after the navigation, nothing waits
    for an interactive login, no candidate is enumerated or processed, and
    the browser is closed before the error reaches the caller. *)
Theorem headless_without_cookies_fails_fast :
  Run.use_headless cfg = true ->
  Run.no_cookies cfg = true ->
  Run.chrome_starts w = Ok tt ->
  Run.driver_get w 0 (Run.candidate_list_url cfg) = Ok tt ->
  Login.check_login_required (Run.job_id cfg) (Run.login_page_at w 5000) = true ->
  Run.download_all_resumes cfg w Run.initial_state
  = (Raise Run.credentials_required,
     Run.State (set_driver true new_downloader)
       [DriverStart; DriverGet (Run.candidate_list_url cfg); Sleep 5000;
        Log LoginRequiredHeadless; Log ErrorInDownloadProcess; DriverQuit]).
Proof.
  intros Hheadless Hcookies Hchrome Hget Hlogin.
  unfold Run.download_all_resumes, Run.run_body, Run.find_candidates,
    Run.setup_driver, Run.navigate_to_candidate_list, Run.get_and_settle, Run.get,
    Run.check_login_required.
  rewrite Hcookies, Hheadless.
  cbv [Run.try_catch Run.bind Run.lift Run.update Run.emit Run.clock Run.ret Run.raise
       Run.initial_state Run.self Run.history Run.now elapsed foldr duration app
       Z.add andb].
  rewrite Hchrome, Hget, Hlogin.
  reflexivity.
Qed.

End RunFacts.

Lemma headless_without_cookies_fails_fast_witness :
  Run.download_all_resumes headless_without_cookies login_wall Run.initial_state
  = (Raise Run.credentials_required,
     Run.State (set_driver true new_downloader)
       [DriverStart; DriverGet (Run.candidate_list_url headless_without_cookies);
        Sleep 5000; Log LoginRequiredHeadless; Log ErrorInDownloadProcess; DriverQuit]).
Proof.
  apply (headless_without_cookies_fails_fast headless_without_cookies login_wall);
    reflexivity.
Defined.




(** The scenario of the specification: the flag set after candidate 1 of 5
    leaves one download counted and one id recorded. *)
Lemma cancelled_after_first_of_five_keeps_one_download :
  downloaded_count (Run.self (five_after after_first_candidate 1)) = 1%nat /\
  failed_count (Run.self (five_after after_first_candidate 1)) = 0%nat /\
  elements (downloaded_candidate_ids (Run.self (five_after after_first_candidate 1)))
  = ["101"].
Proof. repeat split; vm_compute; reflexivity. Qed.



(** ** Download verification *)

(** C2 does not hold of the code.  A download that leaves only an empty
    [resume.pdf], in the default download directory, is reported as
    verified: the last check moves any recent PDF into the output directory
    without looking at its size, which the two checks before it do. *)
Theorem zero_byte_pdf_in_downloads_is_verified :
  Verify.only_zero_byte_files zero_byte_in_downloads /\
  fst (Verify.verify_download zero_byte_in_downloads)
  = Verify.Verdict true (Some "resume.pdf") /\
  Verify.outcome_of zero_byte_in_downloads = Verify.Verified.
Proof.
  split; [| split; vm_compute; reflexivity].
  unfold Verify.only_zero_byte_files. split; [| split].
  - intros c f Hf. vm_compute in Hf. inversion Hf.
  - intros f Hf. vm_compute in Hf.
    apply list_elem_of_singleton in Hf. subst f. reflexivity.
  - right. eexists. vm_compute. apply list_elem_of_singleton. reflexivity.
Qed.

(** The snapshot is taken when [verify_download] starts, after the click:
    a file that is complete by then counts as old, and the download is
    reported as failed. *)
Lemma download_finished_before_snapshot_is_missed :
  fst (Verify.verify_download finished_before_snapshot) = Verify.Verdict false None /\
  fst (fst (Fetch.download_resume_from_profile new_downloader
              "https://app.jazz.co/app/v2/job/10545457/candidate/101/profile"
              {| Fetch.located := Ok true;
                 Fetch.scroll_into_view := Ok tt;
                 Fetch.click := Ok tt;
                 Fetch.js_click := Ok tt;
                 Fetch.files := finished_before_snapshot |})) = false.
Proof. split; vm_compute; reflexivity. Qed.

(** ** Further properties *)

(** The flag is also polled while the run waits for an interactive login:
    when it is found set at the top of iteration [j], the wait ends at once,
    without a further login check, and reports failure. *)
Lemma wait_loop_stops_when_cancelled (v : LoginWait.view) (ahead remaining iteration : nat) :
  (ahead < remaining)%nat ->
  (forall i, (iteration <= i < iteration + ahead)%nat ->
             LoginWait.cancelled v i = false /\ LoginWait.login_required v i = true) ->
  LoginWait.cancelled v (iteration + ahead) = true ->
  LoginWait.wait_loop v remaining iteration
  = (false, repeat (Sleep 3000) ahead ++ [Log CancelledDuringLoginWait]).
Proof.
  revert remaining iteration.
  induction ahead as [| ahead IH]; intros remaining iteration Hlt Hbefore Hflag;
    (destruct remaining as [| remaining]; [lia |]); cbn [LoginWait.wait_loop].
  - rewrite Nat.add_0_r in Hflag. rewrite Hflag. reflexivity.
  - destruct (Hbefore iteration ltac:(lia)) as [-> ->]. cbn [negb].
    rewrite (IH remaining (S iteration)); [reflexivity | lia | |].
    + intros i Hi. apply Hbefore. lia.
    + rewrite <- Hflag. f_equal. lia.
Qed.

Theorem wait_for_login_stops_when_cancelled (v : LoginWait.view) (j : nat) :
  (j < LoginWait.max_iterations)%nat ->
  (forall i, (i < j)%nat ->
             LoginWait.cancelled v i = false /\ LoginWait.login_required v i = true) ->
  LoginWait.cancelled v j = true ->
  LoginWait.wait_for_login v
  = (false, repeat (Sleep 3000) j ++ [Log CancelledDuringLoginWait]).
Proof.
  intros Hlt Hbefore Hflag. unfold LoginWait.wait_for_login.
  apply wait_loop_stops_when_cancelled; [exact Hlt | |].
  - intros i Hi. apply Hbefore. lia.
  - exact Hflag.
Qed.

Lemma wait_for_login_stops_when_cancelled_witness :
  LoginWait.wait_for_login cancelled_at_third_poll
  = (false, [Sleep 3000; Sleep 3000; Log CancelledDuringLoginWait]).
Proof.
  apply (wait_for_login_stops_when_cancelled cancelled_at_third_poll 2).
  - unfold LoginWait.max_iterations. lia.
  - intros i Hi. destruct i as [| [| i]]; [split; reflexivity .. | lia].
  - reflexivity.
Defined.

(** A new file of nonzero size seen at one of the polls is a verified
    download, and the path of a new nonzero-size file is recorded. *)
Lemma poll_finds_new_file (v : Verify.view) (initial : list Verify.entry)
    (left call c : nat) (f : Verify.entry) :
  (call <= c < call + left)%nat ->
  f ∈ Verify.new_files initial (Verify.get_downloaded_files (Verify.output_dir v c)) ->
  (0 < Verify.st_size f)%Z ->
  exists g, fst (Verify.poll v initial left call) = Some g /\ (0 < Verify.st_size g)%Z.
Proof.
  revert call. induction left as [| left IH]; intros call Hc Hf Hsize; [lia |].
  cbn [Verify.poll].
  destruct (Verify.first_nonempty
              (Verify.new_files initial
                 (Verify.get_downloaded_files (Verify.output_dir v call))))
    as [g |] eqn:Hfirst.
  - exists g. split; [reflexivity |].
    apply List.find_some in Hfirst as [_ Hg]. apply Z.ltb_lt. exact Hg.
  - destruct (decide (c = call)) as [-> | Hne].
    + apply list_elem_of_In in Hf.
      pose proof (List.find_none _ _ Hfirst f Hf) as Hnone. cbn in Hnone.
      apply Z.ltb_ge in Hnone. lia.
    + destruct (IH (S call) ltac:(lia) Hf Hsize) as (g & Hg & Hgsize).
      destruct (Verify.poll v initial left (S call)) as [found slept].
      cbn [fst] in *. eauto.
Qed.



(** A numeric job identifier is plain. *)
Lemma no_match_in_digits (s tail : string) :
  Str.all_digits s = true ->
  Re.search_candidate (s +:+ tail) = Re.search_candidate tail.
Proof.
  induction s as [| c s IH]; [reflexivity |].
  cbn [Str.all_digits]. intros [Hc Hs]%andb_prop.
  change (String c s +:+ tail) with (String c (s +:+ tail)).
  cbn [Re.search_candidate]. unfold Re.match_candidate_here at 1.
  change (Re.strip_prefix "/candidate/" (String c (s +:+ tail)))
    with (if Ascii.eqb "/" c
          then Re.strip_prefix "candidate/" (s +:+ tail)
          else None).
  destruct (Ascii.eqb "/" c) eqn:Hslash; [| apply IH, Hs].
  apply Ascii.eqb_eq in Hslash. subst c. discriminate.
Qed.

Theorem numeric_job_id_is_plain (job_id : string) :
  Str.all_digits job_id = true -> Enumerate.job_id_plain job_id = true.
Proof.
  intros Hdigits. unfold Enumerate.job_id_plain.
  change ("/" +:+ job_id +:+ "/candidate/") with (String "/" (job_id +:+ "/candidate/")).
  cbn [Re.search_candidate].
  assert (Re.match_candidate_here (String "/" (job_id +:+ "/candidate/")) = None) as ->.
  { destruct job_id as [| c job_id]; [reflexivity |].
    cbn [Str.all_digits] in Hdigits. apply andb_prop in Hdigits as [Hc _].
    unfold Re.match_candidate_here.
    change (Re.strip_prefix "/candidate/"
              (String "/" (String c job_id +:+ "/candidate/")))
      with (if Ascii.eqb "c" c
            then Re.strip_prefix "andidate/" (job_id +:+ "/candidate/")
            else None).
    destruct (Ascii.eqb "c" c) eqn:Hcc; [| reflexivity].
    apply Ascii.eqb_eq in Hcc. subst c. discriminate. }
  rewrite (no_match_in_digits _ _ Hdigits). reflexivity.
Qed.

Lemma numeric_job_id_is_plain_witness : Enumerate.job_id_plain "10545457" = true.
Proof. apply (numeric_job_id_is_plain "10545457"). reflexivity. Defined.



(** The end-to-end scenario of three discovered candidates, one of them
    not hired: two links are returned, both resumes download, and the run
    ends with its summary and the release of the browser. *)
Lemma three_found_one_not_hired_summary :
  let outcome := Run.download_all_resumes job_10545457 one_of_three_not_hired
                   Run.initial_state in
  fst outcome = Ok tt /\
  List.skipn (List.length (Run.history (snd outcome)) - 2) (Run.history (snd outcome))
  = [Log (Summary 2 2 2 2 0); DriverQuit] /\
  Run.download_status one_of_three_not_hired outcome = Run.COMPLETED.
Proof. cbv zeta. repeat split; vm_compute; reflexivity. Qed.

(** ** Whole runs: the session, the exceptions, the counters *)

Section StateStepFacts.
Context (R : relation Run.state) `{!PreOrder R}.

Lemma steps_ret {A} (a : A) : steps R (Run.ret a).
Proof. intros st r st' [= <- <-]. reflexivity. Qed.

Lemma steps_raise {A} (e : exn) : steps R (@Run.raise A e).
Proof. intros st r st' [= <- <-]. reflexivity. Qed.

Lemma steps_clock : steps R Run.clock.
Proof. intros st r st' [= <- <-]. reflexivity. Qed.

Lemma steps_lift {A} (c : result A) : steps R (Run.lift c).
Proof. intros st r st' [= <- <-]. reflexivity. Qed.

Lemma steps_bind {A B} (c : Run.M A) (k : A -> Run.M B) :
  steps R c -> (forall a, steps R (k a)) -> steps R (Run.bind c k).
Proof.
  intros Hc Hk st r st'. unfold Run.bind.
  destruct (c st) as [[a | e] st1] eqn:Hrun.
  - intros Hrest. etransitivity; [eapply Hc, Hrun | eapply Hk, Hrest].
  - intros [= <- <-]. eapply Hc, Hrun.
Qed.

Lemma steps_try_catch {A} (c : Run.M A) (h : exn -> Run.M A) :
  steps R c -> (forall e, steps R (h e)) -> steps R (Run.try_catch c h).
Proof.
  intros Hc Hh st r st'. unfold Run.try_catch.
  destruct (c st) as [[a | e] st1] eqn:Hrun.
  - intros [= <- <-]. eapply Hc, Hrun.
  - intros Hrest. etransitivity; [eapply Hc, Hrun | eapply Hh, Hrest].
Qed.

End StateStepFacts.

Section SessionFacts.

Lemma session_emit (evs : trace) :
  Forall inside_session evs -> steps session_kept (Run.emit evs).
Proof.
  intros Hevs st r st' [= <- <-]. split; [reflexivity |].
  exists evs. split; [reflexivity | exact Hevs].
Qed.

Lemma session_update (f : downloader -> downloader) :
  (forall self_, driver (f self_) = driver self_) -> steps session_kept (Run.update f).
Proof.
  intros Hf st r st' [= <- <-]. split; [apply Hf |].
  exists []. cbn. rewrite app_nil_r. split; [reflexivity | constructor].
Qed.

Lemma session_observe {A} (f : Z -> downloader -> (A * downloader) * trace) :
  (forall t self_, driver (snd (fst (f t self_))) = driver self_ /\
                   Forall inside_session (snd (f t self_))) ->
  steps session_kept (Run.observe f).
Proof.
  intros Hf st r st'. unfold Run.observe.
  specialize (Hf (Run.now st) (Run.self st)).
  destruct (f (Run.now st) (Run.self st)) as [[a self'] t].
  intros [= <- <-]. destruct Hf as [Hd Ht]. split; [exact Hd |].
  exists t. split; [reflexivity | exact Ht].
Qed.

End SessionFacts.

Ltac inside := split; discriminate.

Ltac session_step :=
  lazymatch goal with
  | |- steps _ (Run.bind _ _) => apply steps_bind; try exact _; [| intros ?]
  | |- steps _ (Run.try_catch _ _) => apply steps_try_catch; try exact _; [| intros ?]
  | |- steps _ (Run.ret _) => apply steps_ret; try exact _
  | |- steps _ (Run.raise _) => apply steps_raise; try exact _
  | |- steps _ (Run.lift _) => apply steps_lift; try exact _
  | |- steps _ Run.clock => apply steps_clock; try exact _
  | |- steps session_kept (Run.emit _) =>
      apply session_emit; repeat (constructor; [inside |]); try constructor
  | |- steps _ (if ?b then _ else _) => destruct b
  | |- steps _ (match ?x with _ => _ end) => destruct x
  end.

Section TraceFacts.

Lemma wait_loop_inside (v : LoginWait.view) remaining iteration :
  Forall inside_session (snd (LoginWait.wait_loop v remaining iteration)).
Proof.
  revert iteration. induction remaining as [| remaining IH]; intros iteration;
    cbn [LoginWait.wait_loop].
  - repeat constructor; discriminate.
  - destruct (LoginWait.cancelled v iteration); [repeat constructor; discriminate |].
    destruct (negb (LoginWait.login_required v iteration));
      [repeat constructor; discriminate |].
    specialize (IH (S iteration)).
    destruct (LoginWait.wait_loop v remaining (S iteration)) as [r t].
    cbn [snd] in *. constructor; [inside | exact IH].
Qed.

Lemma scroll_inside (p : Scroll.page) :
  Forall inside_session (snd (Scroll.scroll_to_load_all_candidates p)).
Proof.
  assert (forall t, scroll_down_only t -> Forall inside_session t) as Hdown.
  { intros t Ht. eapply Forall_impl; [exact Ht |].
    intros ev [-> | [ms ->]]; inside. }
  unfold Scroll.scroll_to_load_all_candidates.
  destruct (Scroll.scroll_height p 0) as [h | e]; [| constructor].
  pose proof (scroll_loop_scrolls_down_only p Scroll.max_scroll_attempts 0 h 0 []
                (List.Forall_nil _)) as Hloop.
  apply Hdown in Hloop.
  destruct (Scroll.scroll_loop p Scroll.max_scroll_attempts 0 h 0 []) as [[n | | e] done];
    cbn [snd] in *; try assumption.
  apply Forall_app. split; [assumption |]. repeat constructor; discriminate.
Qed.

Lemma enumeration_inside {elem} job_id (p : Scroll.page) (page : Enumerate.list_page elem) :
  Forall inside_session (snd (Enumerate.get_candidate_links job_id p page)).
Proof.
  unfold Enumerate.get_candidate_links.
  pose proof (scroll_inside p) as Hscroll.
  destruct (Scroll.scroll_to_load_all_candidates p) as [[[] | e] scrolled]; cbn [snd] in *.
  - pose proof (candidate_elements_only_queries page) as Hq.
    destruct (Enumerate.candidate_elements page) as [elements queried].
    destruct (Enumerate.process_elements page elements) as [dict excluded].
    cbn [snd] in *. constructor; [inside |].
    apply Forall_app. split; [assumption |].
    eapply Forall_impl; [exact Hq |]. intros ev [s ->]. inside.
  - constructor; [inside | assumption].
Qed.

Lemma poll_inside (v : Verify.view) initial left call :
  Forall inside_session (snd (Verify.poll v initial left call)).
Proof.
  revert call. induction left as [| left IH]; intros call; cbn [Verify.poll];
    [constructor |].
  destruct (Verify.first_nonempty _); [constructor |].
  specialize (IH (S call)).
  destruct (Verify.poll v initial left (S call)) as [found slept]. cbn [snd] in *.
  constructor; [inside | exact IH].
Qed.

Lemma verify_inside (v : Verify.view) :
  Forall inside_session (snd (Verify.verify_download v)).
Proof.
  unfold Verify.verify_download.
  pose proof (poll_inside v (Verify.get_downloaded_files (Verify.output_dir v 0))
                (Verify.polls v) 1) as Hpoll.
  destruct (Verify.poll v _ (Verify.polls v) 1) as [[new_file |] slept]; cbn [snd] in *;
    [assumption |].
  destruct (Verify.count_check v _); cbn [snd]; [assumption |].
  unfold Verify.downloads_fallback.
  destruct (Verify.check_chrome_downloads_folder v) as [| target rest]; cbn [snd].
  - rewrite app_nil_r. assumption.
  - destruct (Verify.move v (Verify.name target)); cbn [snd].
    + apply Forall_app. split; [assumption |]. repeat constructor; discriminate.
    + rewrite app_nil_r. assumption.
Qed.

Lemma fetch_inside self_ candidate_url (p : Fetch.profile) :
  driver (snd (fst (Fetch.download_resume_from_profile self_ candidate_url p)))
  = driver self_ /\
  Forall inside_session (snd (Fetch.download_resume_from_profile self_ candidate_url p)).
Proof.
  unfold Fetch.download_resume_from_profile.
  destruct (Str.startswith candidate_url "http"); cbn [fst snd];
    [| split; [reflexivity | constructor]].
  destruct (Fetch.located p) as [[] | e]; cbn [fst snd];
    try (split; [reflexivity | repeat constructor; discriminate]).
  unfold Fetch.trigger_and_verify.
  destruct (Fetch.scroll_into_view p); cbn [fst snd];
    [| split; [reflexivity | repeat constructor; discriminate]].
  destruct (try_except _ _ _); cbn [fst snd];
    [| split; [reflexivity | repeat constructor; discriminate]].
  pose proof (verify_inside (Fetch.files p)) as Hverify.
  destruct (Verify.verify_download (Fetch.files p)) as [verdict waited].
  cbn [snd] in Hverify.
  destruct (Verify.verified verdict); cbn [fst snd];
    (split; [reflexivity |]); repeat (constructor; [inside |]); assumption.
Qed.

End TraceFacts.

Section SessionRun.
Context {elem : Type} (cfg : Run.config) (w : Run.world elem).

Lemma session_get url : steps session_kept (Run.get w url).
Proof. unfold Run.get. repeat session_step. Qed.

Lemma session_get_and_settle url : steps session_kept (Run.get_and_settle w url).
Proof. unfold Run.get_and_settle. repeat first [apply session_get | session_step]. Qed.

Lemma session_check_login_required : steps session_kept (Run.check_login_required cfg w).
Proof. unfold Run.check_login_required. repeat session_step. Qed.

Lemma session_read_cancelled : steps session_kept (Run.read_cancelled w).
Proof. unfold Run.read_cancelled. repeat session_step. Qed.

Lemma session_wait_for_login : steps session_kept (Run.wait_for_login cfg w).
Proof.
  unfold Run.wait_for_login. apply session_observe. intros t self_.
  pose proof (wait_loop_inside (Run.login_wait_view cfg w t) LoginWait.max_iterations 0) as H.
  unfold LoginWait.wait_for_login.
  destruct (LoginWait.wait_loop _ _ _) as [r waited]. split; [reflexivity | exact H].
Qed.

Lemma session_navigate : steps session_kept (Run.navigate_to_candidate_list cfg w).
Proof.
  unfold Run.navigate_to_candidate_list.
  repeat first [ apply session_get_and_settle
               | apply session_check_login_required
               | apply session_wait_for_login
               | session_step ].
Qed.

Lemma session_get_candidate_links : steps session_kept (Run.get_candidate_links cfg w).
Proof.
  unfold Run.get_candidate_links. apply session_observe. intros t self_.
  pose proof (enumeration_inside (Run.job_id cfg) (Run.scroll_view w t)
                (Run.list_page_at w (Run.extraction_time w t))) as H.
  destruct (Enumerate.get_candidate_links _ _ _) as [found done]. cbn [fst snd] in *.
  split; [| exact H]. destruct (Enumerate.candidate_ids found); reflexivity.
Qed.

Lemma session_fetch candidate_url :
  steps session_kept (Run.download_resume_from_profile w candidate_url).
Proof.
  unfold Run.download_resume_from_profile. apply session_observe. intros t self_.
  apply fetch_inside.
Qed.

Lemma session_candidate_loop links i n :
  steps session_kept (Run.candidate_loop cfg w links i n).
Proof.
  revert i. induction links as [| candidate_url rest IH]; intros i; cbn [Run.candidate_loop].
  - apply steps_ret; exact _.
  - unfold Run.process_candidate, Run.after_fetch, Run.recover.
    repeat first [ apply IH
                 | apply session_read_cancelled
                 | apply session_navigate
                 | apply session_fetch
                 | apply session_update; reflexivity
                 | session_step ].
Qed.

Lemma session_load_cookies : steps session_kept (Run.load_cookies cfg w).
Proof.
  unfold Run.load_cookies.
  assert (forall cs, Forall inside_session (Run.cookie_events cs)) as Hcookies.
  { intros cs. unfold Run.cookie_events. induction cs as [| c cs IH]; cbn; [constructor |].
    destruct (Run.cookie_name c), (Run.cookie_value c); try assumption.
    constructor; [inside | assumption]. }
  destruct (Run.cookies cfg) as [[| c cs] |]; try (apply steps_ret; exact _).
  apply steps_bind; try exact _; [apply session_get | intros _].
  apply session_emit. constructor; [inside | apply Hcookies].
Qed.

Lemma session_after_setup :
  steps session_kept
    (Run.bind (Run.navigate_to_candidate_list cfg w)
       (fun _ => Run.bind (Run.get_candidate_links cfg w)
          (fun candidate_links =>
             if Run.is_nil candidate_links
             then Run.bind (Run.emit [Log NoCandidatesRetrying; Sleep 10000])
                    (fun _ => Run.bind (Run.navigate_to_candidate_list cfg w)
                       (fun _ => Run.get_candidate_links cfg w))
             else Run.ret candidate_links))).
Proof.
  repeat first [ apply session_navigate | apply session_get_candidate_links | session_step ].
Qed.

End SessionRun.

Lemma bind_inv {A B} (c : Run.M A) (k : A -> Run.M B) st r st' :
  Run.bind c k st = (r, st') ->
  (exists a st1, c st = (Ok a, st1) /\ k a st1 = (r, st')) \/
  (exists e, c st = (Raise e, st') /\ r = Raise e).
Proof.
  unfold Run.bind. destruct (c st) as [[a | e] st1].
  - intros H. left. eauto.
  - intros [= <- <-]. right. eauto.
Qed.

Section SessionTop.
Context {elem : Type} (cfg : Run.config) (w : Run.world elem).

Lemma session_log_summary n : steps session_kept (Run.log_summary n).
Proof.
  intros st r st' H. unfold Run.log_summary in H.
  revert H. apply session_emit. repeat constructor; discriminate.
Qed.

Lemma session_after_find links :
  steps session_kept
    (if Run.is_nil links then Run.emit [Log NoCandidatesAfterRetry]
     else Run.bind (Run.candidate_loop cfg w links 1 (List.length links))
            (fun exit => match exit with
                         | Run.LoopCancelled => Run.ret tt
                         | Run.LoopCompleted => Run.log_summary (List.length links)
                         end)).
Proof.
  repeat first [ apply session_candidate_loop | apply session_log_summary | session_step ].
Qed.

(** What [setup_driver] does: nothing when Chrome does not start;
    otherwise the browser is open from then on. *)
Lemma setup_driver_session st r st' :
  Run.setup_driver cfg w st = (r, st') ->
  match Run.chrome_starts w with
  | Ok _ =>
      session_kept
        (Run.State (set_driver true (Run.self st)) (Run.history st ++ [DriverStart])) st'
  | Raise e => r = Raise e /\ st' = st
  end.
Proof.
  unfold Run.setup_driver. intros Hrun.
  apply bind_inv in Hrun as [(a & st1 & Hlift & Hrun) | (e & Hlift & ->)].
  - unfold Run.lift in Hlift. injection Hlift as Hchrome <-. rewrite Hchrome.
    apply bind_inv in Hrun as [(? & st2 & Hupd & Hrun) | (e & Hupd & ->)];
      [| discriminate].
    injection Hupd as _ <-.
    apply bind_inv in Hrun as [(? & st3 & Hemit & Hrun) | (e & Hemit & ->)];
      [| discriminate].
    injection Hemit as _ <-. cbn [Run.self Run.history] in Hrun.
    revert Hrun. generalize (Run.State (set_driver true (Run.self st))
                               (Run.history st ++ [DriverStart])).
    intros st2.
    assert (steps session_kept (if Run.no_cookies cfg then Run.ret tt
                                else Run.load_cookies cfg w)) as Hrest.
    { destruct (Run.no_cookies cfg); [apply steps_ret; exact _ | apply session_load_cookies]. }
    apply Hrest.
  - unfold Run.lift in Hlift. injection Hlift as Hchrome <-. rewrite Hchrome.
    split; reflexivity.
Qed.

(** What the [try] block does to the session. *)
Lemma run_body_session r st :
  Run.run_body cfg w Run.initial_state = (r, st) ->
  match Run.chrome_starts w with
  | Ok _ =>
      session_kept (Run.State (set_driver true new_downloader) [DriverStart]) st
  | Raise e => r = Raise e /\ st = Run.initial_state
  end.
Proof.
  unfold Run.run_body, Run.find_candidates. intros Hrun.
  apply bind_inv in Hrun as [(links & st2 & Hfind & Hrun) | (e & Hfind & ->)].
  - apply bind_inv in Hfind as [([] & st1 & Hsetup & Hfind) | (e & Hsetup & [=])].
    apply setup_driver_session in Hsetup.
    destruct (Run.chrome_starts w) as [[] | e].
    + etransitivity; [exact Hsetup |].
      etransitivity; [eapply session_after_setup, Hfind |].
      eapply session_after_find, Hrun.
    + destruct Hsetup as [[=] _].
  - apply bind_inv in Hfind as [([] & st1 & Hsetup & Hfind) | (e' & Hsetup & [= <-])].
    + apply setup_driver_session in Hsetup.
      destruct (Run.chrome_starts w) as [[] | e'].
      * etransitivity; [exact Hsetup |]. eapply session_after_setup, Hfind.
      * destruct Hsetup as [[=] _].
    + apply setup_driver_session in Hsetup.
      destruct (Run.chrome_starts w) as [[] | e'].
      * exact Hsetup.
      * exact Hsetup.
Qed.

(** The browser is opened at most once and, when it was opened, closed
    exactly once, as the last thing the run does: for every configuration
    and every environment, the history of [download_all_resumes] is
    [DriverStart], events that neither open nor close the browser, and
    [DriverQuit]; and when Chrome does not start, the exception reaches the
    caller with nothing opened and nothing closed. *)
Theorem browser_opened_and_closed_once :
  let '(r, st) := Run.download_all_resumes cfg w Run.initial_state in
  match Run.chrome_starts w with
  | Ok _ =>
      exists t, Run.history st = DriverStart :: t ++ [DriverQuit] /\
                Forall inside_session t
  | Raise e => r = Raise e /\ Run.history st = [Log ErrorInDownloadProcess]
  end.
Proof.
  unfold Run.download_all_resumes, Run.try_catch.
  destruct (Run.run_body cfg w Run.initial_state) as [[[] | e] st] eqn:Hrun.
  - apply run_body_session in Hrun.
    destruct (Run.chrome_starts w) as [[] | e'].
    + destruct Hrun as [Hdriver (t & Hhist & Ht)]. cbn [Run.self Run.history] in *.
      unfold Run.release. rewrite Hdriver. cbn [driver set_driver Run.history].
      exists t. rewrite Hhist. split; [reflexivity | exact Ht].
    + destruct Hrun as [[=] _].
  - apply run_body_session in Hrun.
    cbv [Run.bind Run.emit Run.raise].
    destruct (Run.chrome_starts w) as [[] | e'].
    + destruct Hrun as [Hdriver (t & Hhist & Ht)]. cbn [Run.self Run.history] in *.
      unfold Run.release. cbn [Run.self Run.history]. rewrite Hdriver.
      cbn [driver set_driver Run.history].
      exists (t ++ [Log ErrorInDownloadProcess]). rewrite Hhist. split.
      * cbn [app]. rewrite <- app_assoc. reflexivity.
      * apply Forall_app. split; [exact Ht |]. repeat constructor; discriminate.
    + destruct Hrun as [[= <-] ->]. split; reflexivity.
Qed.

End SessionTop.

Section RaiseFacts.
Context (P : exn -> Prop).

Lemma raises_ret {A} (a : A) : raises_within P (Run.ret a).
Proof. intros st e st' [=]. Qed.

Lemma raises_emit evs : raises_within P (Run.emit evs).
Proof. intros st e st' [=]. Qed.

Lemma raises_update f : raises_within P (Run.update f).
Proof. intros st e st' [=]. Qed.

Lemma raises_clock : raises_within P Run.clock.
Proof. intros st e st' [=]. Qed.

Lemma raises_observe {A} (f : Z -> downloader -> (A * downloader) * trace) :
  raises_within P (Run.observe f).
Proof.
  intros st e st'. unfold Run.observe.
  destruct (f (Run.now st) (Run.self st)) as [[a self'] t]. intros [=].
Qed.

Lemma raises_raise {A} (e : exn) : P e -> raises_within P (@Run.raise A e).
Proof. intros He st e' st' [= <- <-]. exact He. Qed.

Lemma raises_lift {A} (c : result A) :
  (forall e, c = Raise e -> P e) -> raises_within P (Run.lift c).
Proof. intros Hc st e st' [= -> <-]. apply Hc. reflexivity. Qed.

Lemma raises_bind {A B} (c : Run.M A) (k : A -> Run.M B) :
  raises_within P c -> (forall a, raises_within P (k a)) ->
  raises_within P (Run.bind c k).
Proof.
  intros Hc Hk st e st'. unfold Run.bind.
  destruct (c st) as [[a | e'] st1] eqn:Hrun.
  - apply Hk.
  - intros [= <- <-]. eapply Hc, Hrun.
Qed.

Lemma raises_try_catch {A} (c : Run.M A) (h : exn -> Run.M A) :
  (forall e, raises_within P (h e)) -> raises_within P (Run.try_catch c h).
Proof.
  intros Hh st e st'. unfold Run.try_catch.
  destruct (c st) as [[a | e'] st1]; [intros [=] | apply Hh].
Qed.

End RaiseFacts.

Ltac raises_step :=
  lazymatch goal with
  | |- raises_within _ (Run.bind _ _) => apply raises_bind; [| intros ?]
  | |- raises_within _ (Run.try_catch _ _) => apply raises_try_catch; intros ?
  | |- raises_within _ (Run.ret _) => apply raises_ret
  | |- raises_within _ (Run.emit _) => apply raises_emit
  | |- raises_within _ (Run.update _) => apply raises_update
  | |- raises_within _ Run.clock => apply raises_clock
  | |- raises_within _ (Run.observe _) => apply raises_observe
  | |- raises_within _ (if ?b then _ else _) => destruct b
  | |- raises_within _ (match ?x with _ => _ end) => destruct x
  end.

Section LoginErrors.
Context {elem : Type} (cfg : Run.config) (w : Run.world elem).
Hypothesis driver_get_succeeds : forall t url, Run.driver_get w t url = Ok tt.
Hypothesis chrome_starts : Run.chrome_starts w = Ok tt.

Local Abbreviation login_error := (fun e : exn => e ∈ login_errors).

Lemma raises_get url : raises_within login_error (Run.get w url).
Proof.
  unfold Run.get. repeat raises_step.
  apply raises_lift. intros e He. rewrite driver_get_succeeds in He. discriminate.
Qed.

Lemma raises_navigate : raises_within login_error (Run.navigate_to_candidate_list cfg w).
Proof.
  unfold Run.navigate_to_candidate_list, Run.get_and_settle, Run.check_login_required,
    Run.wait_for_login.
  repeat first [ apply raises_get
               | apply raises_raise; unfold login_errors;
                 repeat (apply elem_of_cons; first [left; reflexivity | right])
               | raises_step ].
Qed.

Lemma raises_candidate_loop links i n :
  raises_within login_error (Run.candidate_loop cfg w links i n).
Proof.
  revert i. induction links as [| candidate_url rest IH]; intros i; cbn [Run.candidate_loop].
  - apply raises_ret.
  - unfold Run.read_cancelled, Run.recover.
    repeat first [ apply IH | apply raises_navigate | raises_step ].
Qed.

Lemma raises_run_body : raises_within login_error (Run.run_body cfg w).
Proof.
  unfold Run.run_body, Run.find_candidates, Run.setup_driver, Run.load_cookies,
    Run.get_candidate_links.
  repeat first [ apply raises_candidate_loop | apply raises_navigate | apply raises_get
               | apply raises_lift; intros e He; rewrite chrome_starts in He; discriminate
               | raises_step ].
  intros st e st'. unfold Run.log_summary. intros [=].
Qed.


End LoginErrors.


(** ** The counters *)

Section CounterFacts.

Lemma verify_records_what_it_verifies (v : Verify.view) :
  let verdict := fst (Verify.verify_download v) in
  (Verify.verified verdict = true /\ exists f, Verify.recorded verdict = Some f) \/
  (Verify.verified verdict = false /\ Verify.recorded verdict = None).
Proof.
  cbv zeta. unfold Verify.verify_download.
  destruct (Verify.poll v _ (Verify.polls v) 1) as [[new_file |] slept]; cbn [fst];
    [left; cbn; eauto |].
  destruct (Verify.count_check v _); cbn [fst]; [left; cbn; eauto |].
  unfold Verify.downloads_fallback.
  destruct (Verify.check_chrome_downloads_folder v) as [| target rest]; cbn [fst];
    [right; split; reflexivity |].
  destruct (Verify.move v (Verify.name target)); cbn [fst];
    [left; cbn; eauto | right; split; reflexivity].
Qed.

(** One fetch counts the candidate once, as a download or as a failure,
    and records a file exactly when it counts a download. *)
Lemma fetch_counters self_ candidate_url (p : Fetch.profile) :
  let success := fst (fst (Fetch.download_resume_from_profile self_ candidate_url p)) in
  let after := snd (fst (Fetch.download_resume_from_profile self_ candidate_url p)) in
  counted after = S (counted self_) /\
  downloaded_count after
  = (downloaded_count self_ + if success then 1 else 0)%nat /\
  (files_match_count self_ -> files_match_count after).
Proof.
  cbv zeta. unfold Fetch.download_resume_from_profile, counted, files_match_count.
  assert (forall d, downloaded_count (count_failure d) + failed_count (count_failure d)
                    = S (downloaded_count d + failed_count d)
                    /\ downloaded_count (count_failure d) = (downloaded_count d + 0)%nat
                    /\ (List.length (downloaded_files d) = downloaded_count d
                        /\ size (downloaded_candidate_ids d) <= downloaded_count d ->
                        List.length (downloaded_files (count_failure d))
                        = downloaded_count (count_failure d)
                        /\ size (downloaded_candidate_ids (count_failure d))
                           <= downloaded_count (count_failure d))) as Hfail.
  { intros d. cbn. repeat split; try lia; apply H. }
  destruct (Str.startswith candidate_url "http"); cbn [fst snd]; [| apply Hfail].
  destruct (Fetch.located p) as [[] | e]; cbn [fst snd]; try apply Hfail.
  unfold Fetch.trigger_and_verify.
  destruct (Fetch.scroll_into_view p); cbn [fst snd]; [| apply Hfail].
  destruct (try_except _ _ _); cbn [fst snd]; [| apply Hfail].
  pose proof (verify_records_what_it_verifies (Fetch.files p)) as Hverify. cbv zeta in Hverify.
  destruct (Verify.verify_download (Fetch.files p)) as [verdict waited].
  cbn [fst] in Hverify.
  destruct Hverify as [[-> [f ->]] | [-> ->]]; cbn [fst snd].
  - cbn. rewrite List.length_app. cbn. repeat split; try lia.
    destruct (Re.search_candidate _) as [id |].
    + pose proof (size_add_one id (downloaded_candidate_ids self_)). lia.
    + lia.
  - cbn. rewrite app_nil_r. repeat split; lia.
Qed.

End CounterFacts.

Section AnyRelationRun.
Context {elem : Type} (cfg : Run.config) (w : Run.world elem).
Context (R : relation downloader) `{!PreOrder R}.
Hypothesis R_fetch : forall candidate_url,
  Run.respects R (Run.download_resume_from_profile w candidate_url).
Hypothesis R_failure : forall self_, R self_ (count_failure self_).
Hypothesis R_driver : forall self_, R self_ (set_driver true self_).
Hypothesis R_ids : forall ids self_, R self_ (set_all_candidate_ids ids self_).

Lemma respects_candidate_loop_any links i n :
  Run.respects R (Run.candidate_loop cfg w links i n).
Proof.
  revert i. induction links as [| candidate_url rest IH]; intros i; cbn [Run.candidate_loop].
  - apply respects_ret; exact _.
  - unfold Run.process_candidate, Run.after_fetch, Run.recover.
    repeat first [ apply IH
                 | apply respects_read_cancelled; exact _
                 | apply respects_navigate; exact _
                 | apply R_fetch
                 | apply respects_update, R_failure
                 | respects_step ].
Qed.

Lemma respects_get_candidate_links_any : Run.respects R (Run.get_candidate_links cfg w).
Proof.
  unfold Run.get_candidate_links. apply respects_observe; try exact _.
  intros t self_. destruct (Enumerate.get_candidate_links _ _ _) as [found done].
  cbn [fst snd]. destruct (Enumerate.candidate_ids found); [apply R_ids | reflexivity].
Qed.

Lemma respects_find_candidates_any : Run.respects R (Run.find_candidates cfg w).
Proof.
  unfold Run.find_candidates, Run.setup_driver, Run.load_cookies, Run.get.
  repeat first [ apply respects_navigate; exact _
               | apply respects_get_candidate_links_any
               | apply respects_update, R_driver
               | respects_step ].
Qed.

Lemma respects_download_all_resumes_any : Run.respects R (Run.download_all_resumes cfg w).
Proof.
  assert (Run.respects R (Run.run_body cfg w)) as Hbody.
  { unfold Run.run_body.
    repeat first [ apply respects_find_candidates_any
                 | apply respects_candidate_loop_any
                 | respects_step ].
    intros st r st'. unfold Run.log_summary. intros [= <- <-]. reflexivity. }
  intros st r st'. unfold Run.download_all_resumes.
  destruct (Run.try_catch _ _ st) as [r1 st1] eqn:Hrun. intros [= <- <-].
  assert (R (Run.self st) (Run.self st1)) as Hstep.
  { revert Hrun. apply respects_try_catch; [exact _ | exact Hbody |].
    intros e. repeat respects_step. }
  unfold Run.release. destruct (driver (Run.self st1)); exact Hstep.
Qed.

End AnyRelationRun.

Section CounterRun.
Context {elem : Type} (cfg : Run.config) (w : Run.world elem).

(** The figures of the summary agree with each other whatever happens
    during the run: [downloaded_count] is the number of files recorded in
    [downloaded_files], and the number of distinct downloaded candidate ids
    does not exceed it. *)
Theorem downloads_counted_match_files_recorded :
  files_match_count
    (Run.self (snd (Run.download_all_resumes cfg w Run.initial_state))).
Proof.
  destruct (Run.download_all_resumes cfg w Run.initial_state) as [r st] eqn:Hrun.
  cbn [snd].
  apply (respects_download_all_resumes_any cfg w (keeps files_match_count)) in Hrun.
  - apply Hrun. split; cbn; [reflexivity | rewrite size_empty; lia].
  - intros candidate_url. apply respects_observe.
    intros t self_.
    exact (proj2 (proj2 (fetch_counters self_ candidate_url (Run.profile_at w t)))).
  - intros self_ H. exact H.
  - intros self_ H. exact H.
  - intros ids self_ H. exact H.
Qed.

Lemma iteration_counts candidate_url i n st r st' :
  Run.try_catch (Run.process_candidate cfg w candidate_url i n) (Run.recover cfg w i) st
  = (r, st') ->
  r = Ok tt /\
  downloaded_count (Run.self st) <= downloaded_count (Run.self st')
    <= S (downloaded_count (Run.self st)) /\
  S (counted (Run.self st)) <= counted (Run.self st')
    <= counted (Run.self st) + (if (i <? n)%nat then 2 else 1).
Proof.
  assert (forall {A} (field : downloader -> A) success,
             Run.respects (same field) (Run.after_fetch cfg w success i n)) as Hafter.
  { intros A field success. unfold Run.after_fetch.
    repeat first [ apply respects_navigate; exact _ | respects_step ]. }
  unfold Run.try_catch, Run.process_candidate, Run.bind,
    Run.download_resume_from_profile, Run.observe.
  pose proof (fetch_counters (Run.self st) candidate_url (Run.profile_at w (Run.now st)))
    as Hfetch. cbv zeta in Hfetch.
  destruct (Fetch.download_resume_from_profile _ _ _) as [[success self1] fetched].
  cbn [fst snd] in Hfetch. destruct Hfetch as (Hcounted & Hdownloaded & _).
  set (st1 := Run.State self1 (Run.history st ++ fetched)).
  destruct (Run.after_fetch cfg w success i n st1) as [[[] | e] st2] eqn:Hrest.
  - intros [= <- <-].
    pose proof (Hafter _ counted _ _ _ _ Hrest) as Hc.
    pose proof (Hafter _ downloaded_count _ _ _ _ Hrest) as Hd.
    unfold same in Hc, Hd. cbn [Run.self st1] in Hc, Hd.
    split; [reflexivity |]. destruct success, (i <? n)%nat; lia.
  - pose proof (Hafter _ counted _ _ _ _ Hrest) as Hc.
    pose proof (Hafter _ downloaded_count _ _ _ _ Hrest) as Hd.
    unfold same in Hc, Hd. cbn [Run.self st1] in Hc, Hd.
    assert ((i <? n)%nat = true) as ->.
    { destruct (i <? n)%nat eqn:Hlt; [reflexivity |].
      unfold Run.after_fetch in Hrest. rewrite Hlt in Hrest.
      cbv [Run.bind Run.emit Run.ret] in Hrest. discriminate. }
    unfold Run.recover. cbv [Run.bind Run.emit Run.update Run.try_catch Run.ret].
    cbn [Run.self Run.history].
    set (st3 := Run.State (count_failure (Run.self st2)) _).
    destruct (Run.navigate_to_candidate_list cfg w st3) as [[[] | e'] st4] eqn:Hnav;
      intros [= <- <-];
      pose proof (respects_navigate cfg w (same counted) _ _ _ Hnav) as Hc';
      pose proof (respects_navigate cfg w (same downloaded_count) _ _ _ Hnav) as Hd';
      unfold same in Hc', Hd'; cbn [Run.self st3] in Hc', Hd';
      unfold counted in *; cbn [downloaded_count failed_count count_failure] in *;
      (split; [reflexivity |]); destruct success; lia.
Qed.

Lemma candidate_loop_counts links i n st r st' :
  Run.candidate_loop cfg w links i n st = (r, st') ->
  downloaded_count (Run.self st) <= downloaded_count (Run.self st')
    <= downloaded_count (Run.self st) + List.length links /\
  counted (Run.self st')
    <= counted (Run.self st) + List.length links + Nat.min (List.length links) (n - i) /\
  (r = Ok Run.LoopCompleted ->
   counted (Run.self st) + List.length links <= counted (Run.self st')).
Proof.
  revert i st. induction links as [| candidate_url links IH]; intros i st;
    cbn [Run.candidate_loop List.length].
  - intros [= <- <-]. lia.
  - unfold Run.bind at 1. unfold Run.read_cancelled.
    cbv [Run.bind Run.clock Run.ret].
    destruct (Run.cancelled_at w (Run.now st)).
    + cbv [Run.emit]. intros [= <- <-]. cbn [Run.self].
      split; [lia |]. split; [lia |]. discriminate.
    + cbv [Run.emit].
      set (st_ := Run.State (Run.self st) _).
      destruct (Run.try_catch _ _ st_) as [r1 st1] eqn:Hiter.
      apply iteration_counts in Hiter as (-> & Hd & Hc). cbn [Run.self st_] in Hd, Hc.
      intros Hrest. apply IH in Hrest as (Hd' & Hc' & Hdone).
      split; [lia |]. split.
      * destruct (i <? n)%nat eqn:Hlt;
          [apply Nat.ltb_lt in Hlt | apply Nat.ltb_ge in Hlt]; lia.
      * intros Hr. specialize (Hdone Hr). lia.
Qed.

(** When the loop has gone through all [n] candidates, every candidate
    has been counted, as a download or as a failure, and none more than
    twice: a candidate whose resume was fetched, successfully or not, is
    counted a second time, as failed, when the return to the candidate list
    raises; this cannot happen for the last one.  At most [n] downloads are
    counted. *)
Theorem every_candidate_is_counted links st0 st :
  Run.find_candidates cfg w Run.initial_state = (Ok links, st0) ->
  Run.candidate_loop cfg w links 1 (List.length links) st0 = (Ok Run.LoopCompleted, st) ->
  List.length links
    <= downloaded_count (Run.self st) + failed_count (Run.self st)
    <= 2 * List.length links - 1 /\
  downloaded_count (Run.self st) <= List.length links.
Proof.
  intros Hfind Hloop.
  assert (downloaded_count (Run.self st0) = 0 /\ failed_count (Run.self st0) = 0)
    as [Hd0 Hf0].
  { split.
    - symmetry. apply (respects_find_candidates_any cfg w (same downloaded_count)
                         ltac:(reflexivity) ltac:(reflexivity)  _ _ _ Hfind).
    - symmetry. apply (respects_find_candidates_any cfg w (same failed_count)
                         ltac:(reflexivity) ltac:(reflexivity) _ _ _ Hfind). }
  apply candidate_loop_counts in Hloop as (Hd & Hc & Hdone).
  specialize (Hdone eq_refl). unfold counted in *. lia.
Qed.

End CounterRun.

Lemma every_candidate_is_counted_witness :
  5 <= downloaded_count (Run.self (five_after never 5))
       + failed_count (Run.self (five_after never 5)) <= 2 * 5 - 1 /\
  downloaded_count (Run.self (five_after never 5)) <= 5.
Proof.
  apply (every_candidate_is_counted job_10545457 (five_candidates never)
           five_links (five_found never) (five_after never 5));
    vm_compute; reflexivity.
Defined.

(** ** Waiting for a login *)

Lemma wait_loop_succeeds_iff (v : LoginWait.view) remaining iteration :
  fst (LoginWait.wait_loop v remaining iteration) = true <->
  exists j, (j < remaining)%nat /\
    LoginWait.login_required v (iteration + j) = false /\
    forall i, (i <= j)%nat -> LoginWait.cancelled v (iteration + i) = false.
Proof.
  revert iteration. induction remaining as [| remaining IH]; intros iteration;
    cbn [LoginWait.wait_loop].
  - split; [discriminate | intros (j & Hj & _); lia].
  - destruct (LoginWait.cancelled v iteration) eqn:Hflag; cbn [fst].
    + split; [discriminate |]. intros (j & _ & _ & Hnone).
      specialize (Hnone 0%nat ltac:(lia)). rewrite Nat.add_0_r in Hnone. congruence.
    + destruct (LoginWait.login_required v iteration) eqn:Hlogin; cbn [negb fst].
      * specialize (IH (S iteration)).
        destruct (LoginWait.wait_loop v remaining (S iteration)) as [r t]. cbn [fst] in *.
        rewrite IH. split.
        -- intros (j & Hj & Hdone & Hnone). exists (S j).
           split; [lia |]. split.
           ++ rewrite <- Hdone. f_equal. lia.
           ++ intros [| i] Hi; [rewrite Nat.add_0_r; exact Hflag |].
              rewrite <- (Hnone i ltac:(lia)). f_equal. lia.
        -- intros ([| j] & Hj & Hdone & Hnone).
           ++ rewrite Nat.add_0_r in Hdone. congruence.
           ++ exists j. split; [lia |]. split.
              ** rewrite <- Hdone. f_equal. lia.
              ** intros i Hi. rewrite <- (Hnone (S i) ltac:(lia)). f_equal. lia.
      * split; [| reflexivity]. intros _. exists 0%nat.
        split; [lia |]. split.
        -- rewrite Nat.add_0_r. exact Hlogin.
        -- intros i Hi. assert (i = 0%nat) as -> by lia.
           rewrite Nat.add_0_r. exact Hflag.
Qed.

Lemma wait_loop_elapsed (v : LoginWait.view) remaining iteration :
  (0 <= elapsed (snd (LoginWait.wait_loop v remaining iteration))
   <= 3000 * Z.of_nat remaining + 3000)%Z.
Proof.
  revert iteration. induction remaining as [| remaining IH]; intros iteration;
    cbn [LoginWait.wait_loop].
  - cbn [snd elapsed foldr duration]. lia.
  - unfold LoginWait.check_interval.
    destruct (LoginWait.cancelled v iteration);
      [cbn [snd elapsed foldr duration]; lia |].
    destruct (negb (LoginWait.login_required v iteration));
      [cbn [snd elapsed foldr duration]; lia |].
    specialize (IH (S iteration)).
    destruct (LoginWait.wait_loop v remaining (S iteration)) as [r t].
    cbn [snd] in *. cbn [elapsed foldr duration]. fold (elapsed t). lia.
Qed.

(** [wait_for_login] reports success exactly when one of the 200 login
    checks, made every three seconds, finds the login complete and the
    cancellation flag has not been found set by then; whatever happens, it
    returns within 603 seconds of sleeping. *)
Theorem wait_for_login_succeeds_iff_login_seen_in_time (v : LoginWait.view) :
  (fst (LoginWait.wait_for_login v) = true <->
   exists j, (j < 200)%nat /\ LoginWait.login_required v j = false /\
             forall i, (i <= j)%nat -> LoginWait.cancelled v i = false) /\
  (elapsed (snd (LoginWait.wait_for_login v)) <= 603000)%Z.
Proof.
  unfold LoginWait.wait_for_login. split.
  - apply (wait_loop_succeeds_iff v LoginWait.max_iterations 0).
  - pose proof (wait_loop_elapsed v LoginWait.max_iterations 0) as H.
    unfold LoginWait.max_iterations in *. lia.
Qed.

(** ** Links and found ids *)

Section LinkCount.
Context {elem : Type} (cfg : Run.config) (w : Run.world elem).

Lemma get_candidate_links_count st r st' :
  Run.get_candidate_links cfg w st = (r, st') ->
  exists links,
    r = Ok links /\
    (List.length links = size (all_candidate_ids (Run.self st')) \/
     links = [] /\ all_candidate_ids (Run.self st') = all_candidate_ids (Run.self st)).
Proof.
  unfold Run.get_candidate_links, Run.observe.
  pose proof (get_candidate_links_tracked (Run.job_id cfg) (Run.scroll_view w (Run.now st))
                (Run.list_page_at w (Run.extraction_time w (Run.now st)))) as Hpost.
  cbv zeta in Hpost.
  destruct (Enumerate.get_candidate_links _ _ _) as [found done].
  cbn [fst] in Hpost. intros [= <- <-]. exists (Enumerate.links found).
  split; [reflexivity |]. cbn [Run.self].
  destruct (Enumerate.candidate_ids found) as [ids |].
  - left. apply Hpost.
  - right. split; [exact Hpost | reflexivity].
Qed.

(** The list of links the run goes through holds exactly one link per
    candidate id recorded as found: the two figures of the line
    "Total Candidates Found: n (m unique IDs)" are always equal. *)
Theorem one_link_per_found_id links st :
  Run.find_candidates cfg w Run.initial_state = (Ok links, st) ->
  List.length links = size (all_candidate_ids (Run.self st)).
Proof.
  unfold Run.find_candidates. intros Hrun.
  apply bind_ok_inv in Hrun as ([] & st0 & Hsetup & Hrun).
  apply bind_ok_inv in Hrun as ([] & st1 & Hnav & Hrun).
  apply bind_ok_inv in Hrun as (first & st2 & Hfirst & Hrun).
  assert (all_candidate_ids (Run.self st1) = ∅) as Hempty.
  { transitivity (all_candidate_ids (Run.self st0)).
    { symmetry. apply (respects_navigate cfg w (same all_candidate_ids) _ _ _ Hnav). }
    symmetry. apply (respects_setup_driver cfg w all_candidate_ids
                       (fun _ _ => eq_refl) _ _ _ Hsetup). }
  assert (List.length first = size (all_candidate_ids (Run.self st2))) as Hcount.
  { destruct (get_candidate_links_count _ _ _ Hfirst) as (l & [= <-] & [H | [-> H]]);
      [exact H |]. rewrite H, Hempty, size_empty. reflexivity. }
  destruct (Run.is_nil first) eqn:Hnil.
  - apply bind_ok_inv in Hrun as ([] & st3 & Hlog & Hrun).
    apply bind_ok_inv in Hrun as ([] & st4 & Hrenav & Hsecond).
    injection Hlog as <-.
    destruct (get_candidate_links_count _ _ _ Hsecond) as (l & [= <-] & [H | [-> H]]);
      [exact H |].
    rewrite H.
    rewrite <- (respects_navigate cfg w (same all_candidate_ids) _ _ _ Hrenav).
    cbn [Run.self]. rewrite <- Hcount. destruct first; [reflexivity | discriminate].
  - injection Hrun as <- <-. exact Hcount.
Qed.

End LinkCount.

Lemma one_link_per_found_id_witness :
  List.length five_links = size (all_candidate_ids (Run.self (five_found never))).
Proof.
  apply (one_link_per_found_id job_10545457 (five_candidates never)).
  vm_compute. reflexivity.
Defined.

(** ** Verification when nothing arrives *)

Lemma new_files_of_same_listing (files : list Verify.entry) :
  Verify.new_files files files = [].
Proof.
  unfold Verify.new_files.
  assert (forall l, (forall f, f ∈ l -> Verify.name f ∈ map Verify.name files) ->
                    List.filter (fun f => negb (bool_decide
                      (Verify.name f ∈ map Verify.name files))) l = []) as H.
  { induction l as [| f l IH]; intros Hl; [reflexivity |]. cbn [List.filter].
    rewrite bool_decide_eq_true_2 by (apply Hl; apply elem_of_cons; left; reflexivity).
    cbn [negb]. apply IH. intros g Hg. apply Hl. apply elem_of_cons. right. exact Hg. }
  apply H. intros f Hf. apply list_elem_of_fmap. exists f. split; [reflexivity | exact Hf].
Qed.

Lemma poll_same_listing (v : Verify.view) left call :
  (forall c, Verify.output_dir v c = Verify.output_dir v 0) ->
  Verify.poll v (Verify.get_downloaded_files (Verify.output_dir v 0)) left call
  = (None, repeat (Sleep Verify.check_interval) left).
Proof.
  intros Hsame. revert call. induction left as [| left IH]; intros call;
    cbn [Verify.poll repeat]; [reflexivity |].
  rewrite (Hsame call), new_files_of_same_listing. cbn [Verify.first_nonempty List.find].
  rewrite IH. reflexivity.
Qed.

(** No false positive without evidence: when the listing of the output
    directory does not change while [verify_download] runs and the default
    download directory holds no recent PDF, the verification fails after
    all its polls and records no file. *)
Theorem unchanged_directory_is_not_verified (v : Verify.view) :
  (forall c, Verify.output_dir v c = Verify.output_dir v 0) ->
  NoDup (map Verify.name (Verify.get_downloaded_files (Verify.output_dir v 0))) ->
  Verify.check_chrome_downloads_folder v = [] ->
  Verify.verify_download v
  = (Verify.Verdict false None, repeat (Sleep 500) (Verify.polls v)).
Proof.
  intros Hsame Hnodup Hchrome. unfold Verify.verify_download.
  rewrite (poll_same_listing v (Verify.polls v) 1 Hsame).
  unfold Verify.count_check. rewrite (Hsame (S (Verify.polls v))).
  rewrite size_list_to_set by exact Hnodup. rewrite length_map.
  rewrite Nat.ltb_irrefl.
  unfold Verify.downloads_fallback. rewrite Hchrome. rewrite app_nil_r. reflexivity.
Qed.

Lemma unchanged_directory_is_not_verified_witness :
  Verify.verify_download nothing_arrives
  = (Verify.Verdict false None, repeat (Sleep 500) 20).
Proof.
  apply (unchanged_directory_is_not_verified nothing_arrives).
  - reflexivity.
  - constructor.
  - reflexivity.
Defined.

(** * The REST scripts *)

(** ** File names *)

Section TextFacts.
Implicit Types (cs : list ascii) (s : string) (c : ascii).

Lemma among_spec cs c : Text.among cs c = true <-> c ∈ cs.
Proof.
  unfold Text.among. rewrite existsb_exists. split.
  - intros (x & Hx & Heq). apply Ascii.eqb_eq in Heq. subst x.
    apply list_elem_of_In. exact Hx.
  - intros Hc. exists c. split; [apply list_elem_of_In, Hc | apply Ascii.eqb_refl].
Qed.

Lemma chars_replace_char old new s c :
  c ∈ Text.chars (Text.replace_char old new s) ->
  c = new \/ (c ∈ Text.chars s /\ c <> old).
Proof.
  induction s as [| a s IH]; cbn [Text.replace_char Text.chars list_ascii_of_string].
  - intros H. inversion H.
  - intros [-> | H]%elem_of_cons.
    + destruct (Ascii.eqb a old) eqn:Heq; [left; reflexivity |].
      right. split; [apply elem_of_cons; left; reflexivity |].
      apply Ascii.eqb_neq. exact Heq.
    + destruct (IH H) as [-> | [Hin Hne]]; [left; reflexivity |].
      right. split; [apply elem_of_cons; right; exact Hin | exact Hne].
Qed.

Lemma replace_char_absent old new s :
  old ∉ Text.chars s -> Text.replace_char old new s = s.
Proof.
  induction s as [| a s IH]; cbn [Text.replace_char Text.chars list_ascii_of_string];
    [reflexivity |].
  intros Hnot. apply not_elem_of_cons in Hnot as [Hne Hnot].
  rewrite (IH Hnot).
  destruct (Ascii.eqb a old) eqn:Heq; [| reflexivity].
  apply Ascii.eqb_eq in Heq. congruence.
Qed.

Lemma chars_lstrip cs s c : c ∈ Text.chars (Text.lstrip cs s) -> c ∈ Text.chars s.
Proof.
  induction s as [| a s IH]; cbn [Text.lstrip]; [auto |].
  destruct (Text.among cs a); [| auto].
  intros H. cbn [Text.chars list_ascii_of_string]. apply elem_of_cons. right. apply IH, H.
Qed.

Lemma chars_rstrip cs s c : c ∈ Text.chars (Text.rstrip cs s) -> c ∈ Text.chars s.
Proof.
  induction s as [| a s IH]; cbn [Text.rstrip]; [auto |].
  destruct (Str.is_empty (Text.rstrip cs s) && Text.among cs a).
  - intros H. inversion H.
  - cbn [Text.chars list_ascii_of_string]. intros [-> | H]%elem_of_cons.
    + apply elem_of_cons. left. reflexivity.
    + apply elem_of_cons. right. apply IH, H.
Qed.

Lemma lstrip_starts_clean cs s c rest :
  Text.lstrip cs s = String c rest -> Text.among cs c = false.
Proof.
  induction s as [| a s IH]; cbn [Text.lstrip]; [discriminate |].
  destruct (Text.among cs a) eqn:Ha; [exact IH |].
  intros [= <- <-]. exact Ha.
Qed.

Lemma lstrip_clean cs s :
  (forall c rest, s = String c rest -> Text.among cs c = false) -> Text.lstrip cs s = s.
Proof.
  destruct s as [| a s]; [reflexivity |]. intros H. cbn [Text.lstrip].
  rewrite (H a s eq_refl). reflexivity.
Qed.

Lemma rstrip_keeps_start cs s c rest :
  Text.rstrip cs s = String c rest -> exists rest', s = String c rest'.
Proof.
  destruct s as [| a s]; cbn [Text.rstrip]; [discriminate |].
  destruct (Str.is_empty (Text.rstrip cs s) && Text.among cs a); [discriminate |].
  intros [= <- <-]. eauto.
Qed.

Lemma rstrip_idempotent cs s : Text.rstrip cs (Text.rstrip cs s) = Text.rstrip cs s.
Proof.
  induction s as [| a s IH]; cbn [Text.rstrip]; [reflexivity |].
  destruct (Str.is_empty (Text.rstrip cs s) && Text.among cs a) eqn:Hdrop;
    [reflexivity |].
  cbn [Text.rstrip]. rewrite IH, Hdrop. reflexivity.
Qed.

Lemma rstrip_ends_clean cs s front c :
  Text.rstrip cs s = front +:+ String c EmptyString -> Text.among cs c = false.
Proof.
  revert front. induction s as [| a s IH]; intros front; cbn [Text.rstrip].
  - destruct front; discriminate.
  - destruct (Str.is_empty (Text.rstrip cs s)) eqn:Hempty; cbn [andb].
    + destruct (Text.among cs a) eqn:Ha; [destruct front; discriminate |].
      destruct (Text.rstrip cs s); [| discriminate].
      destruct front as [| b front]; cbn.
      * intros [= <-]. exact Ha.
      * intros [= _ H]. destruct front; discriminate.
    + destruct front as [| b front].
      * cbn. intros [= _ H]. rewrite H in Hempty. discriminate.
      * change (String b front +:+ String c "") with (String b (front +:+ String c "")).
        intros [= _ H]. apply (IH _ H).
Qed.

Lemma strip_idempotent cs s : Text.strip cs (Text.strip cs s) = Text.strip cs s.
Proof.
  unfold Text.strip.
  rewrite (lstrip_clean cs (Text.rstrip cs (Text.lstrip cs s))).
  - apply rstrip_idempotent.
  - intros c rest H. apply rstrip_keeps_start in H as [rest' H].
    apply lstrip_starts_clean in H. exact H.
Qed.

End TextFacts.

Section FilenameFacts.

Lemma replaced_chars (l : list ascii) (s : string) c :
  c ∈ Text.chars (foldl (fun name char => Text.replace_char char "_" name) s l) ->
  c = "_"%char \/ (c ∈ Text.chars s /\ c ∉ l).
Proof.
  revert s. induction l as [| old l IH]; intros s; cbn [foldl].
  - intros H. right. split; [exact H | apply not_elem_of_nil].
  - intros H. apply IH in H as [-> | [H Hl]]; [left; reflexivity |].
    apply chars_replace_char in H as [-> | [H Hne]]; [left; reflexivity |].
    right. split; [exact H |]. apply not_elem_of_cons. split; assumption.
Qed.

Lemma replaced_nothing (l : list ascii) (s : string) :
  (forall c, c ∈ Text.chars s -> c ∉ l) ->
  foldl (fun name char => Text.replace_char char "_" name) s l = s.
Proof.
  induction l as [| old l IH]; intros Hs; cbn [foldl]; [reflexivity |].
  rewrite replace_char_absent.
  - apply IH. intros c Hc Hl. apply (Hs c Hc). apply elem_of_cons. right. exact Hl.
  - intros Hold. apply (Hs old Hold). apply elem_of_cons. left. reflexivity.
Qed.

Lemma sanitized_chars (filename : string) c :
  c ∈ Text.chars (Filename.sanitize_filename filename) -> c ∉ Filename.invalid_chars.
Proof.
  unfold Filename.sanitize_filename, Text.strip.
  intros H. apply chars_rstrip, chars_lstrip, replaced_chars in H as [-> | [_ H]];
    [| exact H].
  unfold Filename.invalid_chars. intros Hin.
  repeat (apply elem_of_cons in Hin as [Hin | Hin]; [discriminate |]).
  inversion Hin.
Qed.

(** Whatever the name it is given, [sanitize_filename] returns a name
    without any of the nine invalid characters, so without a path separator,
    that neither starts nor ends with a space or a dot (so it is neither
    [.] nor [..]). *)
Theorem sanitize_filename_is_safe (filename : string) :
  Filename.safe (Filename.sanitize_filename filename).
Proof.
  split; [apply sanitized_chars |].
  assert (forall c, Text.among [" "; "."]%char c = false ->
                    c <> " "%char /\ c <> "."%char) as Hclean.
  { intros c Hc. split; intros ->; discriminate. }
  unfold Filename.sanitize_filename. cbv zeta. split.
  - intros c rest H. apply Hclean. unfold Text.strip in H.
    apply rstrip_keeps_start in H as [rest' H].
    apply lstrip_starts_clean in H. exact H.
  - intros front c H. apply Hclean. unfold Text.strip in H.
    apply rstrip_ends_clean in H. exact H.
Qed.

(** Sanitizing twice is sanitizing once. *)
Theorem sanitize_filename_idempotent (filename : string) :
  Filename.sanitize_filename (Filename.sanitize_filename filename)
  = Filename.sanitize_filename filename.
Proof.
  pose proof (sanitized_chars filename) as Hchars.
  unfold Filename.sanitize_filename in *. cbv zeta in *.
  rewrite replaced_nothing by exact Hchars.
  apply strip_idempotent.
Qed.

End FilenameFacts.

(** ** The API client *)

Section RateLimitFacts.
Implicit Types (times old : list Z) (st : Rest.state).

Lemma recent_elem now_ times t :
  t ∈ Rest.recent now_ times <-> t ∈ times /\ (now_ - t < Rest.RATE_LIMIT_WINDOW)%Z.
Proof.
  unfold Rest.recent. rewrite !list_elem_of_In, List.filter_In, Z.ltb_lt.
  reflexivity.
Qed.

Lemma recent_length now_ times :
  (List.length (Rest.recent now_ times) <= List.length times)%nat.
Proof. apply List.filter_length_le. Qed.

Lemma recent_all now_ times :
  (forall t, t ∈ times -> (now_ - t < Rest.RATE_LIMIT_WINDOW)%Z) ->
  Rest.recent now_ times = times.
Proof.
  induction times as [| a times IH]; intros Hall; [reflexivity |].
  unfold Rest.recent in *. cbn [List.filter].
  assert ((now_ - a <? Rest.RATE_LIMIT_WINDOW)%Z = true) as ->.
  { apply Z.ltb_lt, Hall. apply elem_of_cons. left. reflexivity. }
  f_equal. apply IH. intros t Ht. apply Hall. apply elem_of_cons. right. exact Ht.
Qed.

(** On a record in ascending order, dropping the old calls drops a
    prefix. *)
Lemma recent_drops_prefix now_ times :
  StronglySorted Z.le times ->
  exists dropped,
    times = dropped ++ Rest.recent now_ times /\
    forall t, t ∈ dropped -> (t + Rest.RATE_LIMIT_WINDOW <= now_)%Z.
Proof.
  induction 1 as [| a times Hsorted IH Hle].
  - exists []. split; [reflexivity |]. intros t Ht. inversion Ht.
  - destruct (now_ - a <? Rest.RATE_LIMIT_WINDOW)%Z eqn:Ha.
    + exists []. split; [| intros t Ht; inversion Ht].
      cbn [app]. symmetry. apply recent_all.
      apply Z.ltb_lt in Ha. intros t [-> | Ht]%elem_of_cons; [exact Ha |].
      rewrite Forall_forall in Hle. specialize (Hle t Ht). lia.
    + destruct IH as (dropped & Heq & Hold). exists (a :: dropped). split.
      * unfold Rest.recent in *. cbn [List.filter app]. rewrite Ha. f_equal. exact Heq.
      * apply Z.ltb_ge in Ha. intros t [-> | Ht]%elem_of_cons; [lia | apply Hold, Ht].
Qed.

Lemma recent_sorted now_ times :
  StronglySorted Z.le times -> StronglySorted Z.le (Rest.recent now_ times).
Proof.
  induction 1 as [| a times Hsorted IH Hle]; [constructor |].
  unfold Rest.recent in *. cbn [List.filter].
  destruct (now_ - a <? Rest.RATE_LIMIT_WINDOW)%Z; [| exact IH].
  constructor; [exact IH |].
  apply Forall_forall. intros t Ht. rewrite Forall_forall in Hle. apply Hle.
  apply list_elem_of_In. apply list_elem_of_In in Ht. apply List.filter_In in Ht. apply Ht.
Qed.

Lemma sorted_snoc times x :
  StronglySorted Z.le times -> (forall t, t ∈ times -> (t <= x)%Z) ->
  StronglySorted Z.le (times ++ [x]).
Proof.
  induction 1 as [| a times Hsorted IH Hle]; intros Hall; cbn [app].
  - repeat constructor.
  - constructor.
    + apply IH. intros t Ht. apply Hall. apply elem_of_cons. right. exact Ht.
    + apply Forall_app. split; [exact Hle |].
      constructor; [| constructor]. apply Hall. apply elem_of_cons. left. reflexivity.
Qed.

(** Dropping the old calls at a later time keeps the record in step. *)
Lemma refresh old times requests now0 now_ :
  requests = old ++ times ->
  (forall t, t ∈ old -> (t + Rest.RATE_LIMIT_WINDOW <= now0)%Z) ->
  (now0 <= now_)%Z ->
  StronglySorted Z.le times ->
  exists old',
    requests = old' ++ Rest.recent now_ times /\
    (forall t, t ∈ old' -> (t + Rest.RATE_LIMIT_WINDOW <= now_)%Z).
Proof.
  intros -> Hold Hnow Hsorted.
  destruct (recent_drops_prefix now_ times Hsorted) as (dropped & Heq & Hdropped).
  exists (old ++ dropped). split.
  - rewrite <- app_assoc, <- Heq. reflexivity.
  - intros t [Ht | Ht]%elem_of_app; [specialize (Hold t Ht); lia | apply Hdropped, Ht].
Qed.

Lemma get_times_app h1 h2 :
  Rest.get_times (h1 ++ h2) = Rest.get_times h1 ++ Rest.get_times h2.
Proof. unfold Rest.get_times. apply omap_app. Qed.

Lemma backoffs_app h1 h2 :
  Rest.backoffs (h1 ++ h2) = Rest.backoffs h1 ++ Rest.backoffs h2.
Proof. unfold Rest.backoffs. apply omap_app. Qed.

Lemma gets_app h1 h2 : Rest.gets (h1 ++ h2) = (Rest.gets h1 + Rest.gets h2)%nat.
Proof. unfold Rest.gets. rewrite List.filter_app, List.length_app. reflexivity. Qed.

(** [_rate_limit] always returns; it adds at most one pause to the
    history, and no request. *)
Lemma rate_limit_returns st :
  exists times now_ waits,
    Rest.rate_limit st = (Rest.Returned tt, Rest.State times now_ (Rest.history st ++ waits)) /\
    (Rest.now st <= now_)%Z /\
    (waits = [] \/ exists ms, waits = [Rest.Waited ms]).
Proof.
  unfold Rest.rate_limit.
  cbv [Rest.bind Rest.time Rest.set_call_times Rest.get_call_times Rest.ret
       Rest.call_times Rest.now Rest.history].
  destruct st as [times now_ h].
  destruct (Rest.RATE_LIMIT_CALLS <=? List.length (Rest.recent now_ times))%nat eqn:Hfull.
  - destruct (Rest.recent now_ times) as [| oldest rest] eqn:Hrecent.
    + apply Nat.leb_le in Hfull. cbn in Hfull. unfold Rest.RATE_LIMIT_CALLS in Hfull. lia.
    + cbv zeta.
      destruct (0 <? Rest.RATE_LIMIT_WINDOW - (now_ - oldest) + 1000)%Z eqn:Hpos.
      * cbv [Rest.sleep Rest.bind Rest.time Rest.set_call_times Rest.call_times Rest.now
             Rest.history].
        eexists _, _, _. split; [reflexivity |].
        apply Z.ltb_lt in Hpos. split; [lia | right; eauto].
      * eexists _, _, []. rewrite app_nil_r. split; [reflexivity |]. split; [lia | left; reflexivity].
  - eexists _, _, []. rewrite app_nil_r. split; [reflexivity |]. split; [lia | left; reflexivity].
Qed.

(** [_rate_limit] keeps the record in step with the requests, the stamp it
    appends being the time the next request is sent at. *)
Lemma rate_limit_in_step st st' :
  Rest.rate_limit st = (Rest.Returned tt, st') ->
  Rest.in_step [] st -> Rest.in_step [Rest.now st'] st'.
Proof.
  intros Hrun (old & Hstep & Hold & Hsorted & Hle & Hlen).
  rewrite app_nil_r in Hstep.
  revert Hrun. unfold Rest.rate_limit.
  cbv [Rest.bind Rest.time Rest.set_call_times Rest.get_call_times Rest.ret].
  destruct st as [times now_ h].
  cbn [Rest.call_times Rest.now Rest.history] in *.
  destruct (refresh old times _ now_ now_ Hstep Hold ltac:(lia) Hsorted)
    as (old1 & Hstep1 & Hold1).
  pose proof (recent_sorted now_ times Hsorted) as Hsorted1.
  pose proof (recent_length now_ times) as Hlen1.
  assert (forall t, t ∈ Rest.recent now_ times -> (t <= now_)%Z) as Hle1.
  { intros t Ht. apply recent_elem in Ht as [Ht _]. apply Hle, Ht. }
  assert (forall times2 now2 old2 h2,
             Rest.get_times h2 = Rest.get_times h ->
             Rest.get_times h = old2 ++ times2 ->
             (forall t, t ∈ old2 -> (t + Rest.RATE_LIMIT_WINDOW <= now2)%Z) ->
             StronglySorted Z.le times2 ->
             (forall t, t ∈ times2 -> (t <= now2)%Z) ->
             (List.length times2 < Rest.RATE_LIMIT_CALLS)%nat ->
             Rest.in_step [now2] (Rest.State (times2 ++ [now2]) now2 h2)) as Hfinish.
  { intros times2 now2 old2 h2 Hh Hstep2 Hold2 Hsorted2 Hle2 Hlen2.
    exists old2. cbn [Rest.call_times Rest.now Rest.history].
    rewrite Hh, Hstep2, <- (app_assoc old2). split; [reflexivity |].
    split; [exact Hold2 |]. split; [apply sorted_snoc; assumption |]. split.
    - intros t [Ht | Ht]%elem_of_app; [apply Hle2, Ht |].
      apply list_elem_of_singleton in Ht. lia.
    - rewrite List.length_app. cbn. lia. }
  destruct (Rest.RATE_LIMIT_CALLS <=? List.length (Rest.recent now_ times))%nat eqn:Hfull.
  - destruct (Rest.recent now_ times) as [| oldest rest] eqn:Hrecent.
    + apply Nat.leb_le in Hfull. cbn in Hfull. unfold Rest.RATE_LIMIT_CALLS in Hfull. lia.
    + cbv zeta.
      assert (now_ - oldest < Rest.RATE_LIMIT_WINDOW)%Z as Hyoung.
      { assert (oldest ∈ Rest.recent now_ times) as Hin
          by (rewrite Hrecent; apply elem_of_cons; left; reflexivity).
        apply recent_elem in Hin. apply Hin. }
      assert ((0 <? Rest.RATE_LIMIT_WINDOW - (now_ - oldest) + 1000)%Z = true) as ->
        by (apply Z.ltb_lt; lia).
      cbv [Rest.sleep Rest.bind Rest.time Rest.set_call_times Rest.call_times Rest.now
           Rest.history].
      set (now2 := (now_ + (Rest.RATE_LIMIT_WINDOW - (now_ - oldest) + 1000))%Z).
      intros [= <-]. cbn [Rest.now].
      destruct (refresh old1 (oldest :: rest) _ now_ now2 Hstep1 Hold1
                  ltac:(unfold now2; lia) Hsorted1) as (old2 & Hstep2 & Hold2).
      apply (Hfinish (Rest.recent now2 (oldest :: rest)) now2 old2).
      * rewrite get_times_app. cbn. apply app_nil_r.
      * exact Hstep2.
      * exact Hold2.
      * apply recent_sorted. exact Hsorted1.
      * intros t Ht. apply recent_elem in Ht as [Ht _]. apply Hle1 in Ht.
        unfold now2. lia.
      * unfold Rest.recent at 1. cbn [List.filter].
        assert ((now2 - oldest <? Rest.RATE_LIMIT_WINDOW)%Z = false) as ->
          by (apply Z.ltb_ge; unfold now2; lia).
        pose proof (recent_length now2 rest) as Hrest. unfold Rest.recent in Hrest.
        cbn [List.length] in Hlen1. lia.
  - intros [= <-]. cbn [Rest.now].
    apply Nat.leb_gt in Hfull.
    apply (Hfinish _ now_ old1); try assumption. reflexivity.
Qed.

(** The request sent at the stamped time is within the limit. *)
Lemma stamped_request_within_limit st endpoint params :
  Rest.within_rate_limit (Rest.history st) ->
  Rest.in_step [Rest.now st] st ->
  Rest.within_rate_limit (Rest.history st ++ [Rest.Get (Rest.now st) endpoint params]).
Proof.
  intros Hlimit (old & Hstep & Hold & _ & _ & Hlen) k t t'.
  rewrite get_times_app. cbn [Rest.get_times omap app].
  change (omap _ (Rest.history st)) with (Rest.get_times (Rest.history st)).
  set (requests := Rest.get_times (Rest.history st)) in *.
  intros Hk Hk'.
  destruct (decide (k + Rest.RATE_LIMIT_CALLS < List.length requests)%nat) as [Hin | Hout].
  - rewrite lookup_app_l in Hk' by exact Hin.
    rewrite lookup_app_l in Hk by lia.
    apply (Hlimit k t t' Hk Hk').
  - assert (k + Rest.RATE_LIMIT_CALLS = List.length requests)%nat as Hlast.
    { apply lookup_lt_Some in Hk'. rewrite List.length_app in Hk'. cbn in Hk'. lia. }
    rewrite lookup_app_r in Hk' by lia.
    replace (k + Rest.RATE_LIMIT_CALLS - List.length requests)%nat with 0%nat in Hk' by lia.
    injection Hk' as <-.
    assert ((requests ++ [Rest.now st]) !! k = Some t) as Hk2 by exact Hk.
    rewrite Hstep in Hk2.
    assert (List.length old + List.length (Rest.call_times st)
            = S (List.length requests))%nat as Hsum.
    { rewrite <- List.length_app, <- Hstep, List.length_app. cbn. lia. }
    rewrite lookup_app_l in Hk2 by lia.
    apply Hold. eapply list_elem_of_lookup_2. exact Hk2.
Qed.

End RateLimitFacts.

Section MonadFacts.

Lemma bind_returned {A B} (c : Rest.M A) (k : A -> Rest.M B) st a st1 :
  c st = (Rest.Returned a, st1) -> Rest.bind c k st = k a st1.
Proof. unfold Rest.bind. intros ->. reflexivity. Qed.

Lemma bind_raised {A B} (c : Rest.M A) (k : A -> Rest.M B) st e st1 :
  c st = (Rest.Raised e, st1) -> Rest.bind c k st = (Rest.Raised e, st1).
Proof. unfold Rest.bind. intros ->. reflexivity. Qed.

Lemma try_catch_returned {A} (c : Rest.M A) (h : Rest.error -> Rest.M A) st a st1 :
  c st = (Rest.Returned a, st1) -> Rest.try_catch c h st = (Rest.Returned a, st1).
Proof. unfold Rest.try_catch. intros ->. reflexivity. Qed.

Lemma try_catch_raised {A} (c : Rest.M A) (h : Rest.error -> Rest.M A) st e st1 :
  c st = (Rest.Raised e, st1) -> Rest.try_catch c h st = h e st1.
Proof. unfold Rest.try_catch. intros ->. reflexivity. Qed.

End MonadFacts.

Section ClientFacts.
Context (api_key : string) (w : Rest.world).
Implicit Types (st : Rest.state) (endpoint : string) (params : gmap string string).

Lemma within_rate_limit_same_requests h h' :
  Rest.get_times h' = Rest.get_times h ->
  Rest.within_rate_limit h -> Rest.within_rate_limit h'.
Proof. unfold Rest.within_rate_limit. intros ->. auto. Qed.

(** Time passing, with pauses only, keeps the limit. *)
Lemma limited_later st now_ evs :
  Rest.limited st -> (Rest.now st <= now_)%Z -> Rest.get_times evs = [] ->
  Rest.limited (Rest.State (Rest.call_times st) now_ (Rest.history st ++ evs)).
Proof.
  intros [Hlimit (old & Hstep & Hold & Hsorted & Hle & Hlen)] Hnow Hevs. split.
  - eapply within_rate_limit_same_requests; [| exact Hlimit].
    cbn [Rest.history]. rewrite get_times_app, Hevs. apply app_nil_r.
  - exists old. cbn [Rest.call_times Rest.now Rest.history].
    rewrite get_times_app, Hevs, app_nil_r. split; [exact Hstep |].
    split; [intros t Ht; specialize (Hold t Ht); lia |].
    split; [exact Hsorted |].
    split; [intros t Ht; specialize (Hle t Ht); lia | exact Hlen].
Qed.

(** What one attempt does before its outcome is looked at: the limiter
    returns, the request is sent, nothing else is sent and no backoff is
    taken. *)
Lemma rate_limit_then_send st endpoint params :
  exists st1 st2,
    Rest.rate_limit st = (Rest.Returned tt, st1) /\
    Rest.send w endpoint params st1
    = (Rest.respond w (Rest.gets (Rest.history st)) endpoint params, st2) /\
    Rest.gets (Rest.history st2) = S (Rest.gets (Rest.history st)) /\
    Rest.backoffs (Rest.history st2) = Rest.backoffs (Rest.history st).
Proof.
  destruct (rate_limit_returns st) as (times & now1 & waits & Hrun & Hnow & Hwaits).
  set (st1 := Rest.State times now1 (Rest.history st ++ waits)) in *.
  assert (Rest.gets waits = 0%nat /\ Rest.backoffs waits = []) as (Hgets & Hbackoffs).
  { destruct Hwaits as [-> | [ms ->]]; split; reflexivity. }
  assert (Rest.gets (Rest.history st1) = Rest.gets (Rest.history st)) as Hgets1.
  { cbn [Rest.history st1]. rewrite gets_app, Hgets. lia. }
  eexists st1, _. split; [exact Hrun |].
  unfold Rest.send. rewrite Hgets1. split; [reflexivity |].
  cbn [Rest.history st1]. rewrite !gets_app, !backoffs_app, Hgets, Hbackoffs.
  split; [cbn; lia | cbn; rewrite !app_nil_r; reflexivity].
Qed.

Lemma rate_limit_then_send_limited st st1 endpoint params :
  (forall n, 0 <= Rest.latency w n)%Z ->
  Rest.limited st ->
  Rest.rate_limit st = (Rest.Returned tt, st1) ->
  Rest.limited (snd (Rest.send w endpoint params st1)).
Proof.
  intros Hlatency [Hlimit Hstep] Hrun.
  pose proof (rate_limit_in_step _ _ Hrun Hstep) as Hstep1.
  destruct (rate_limit_returns st) as (times & now1 & waits & Hrun' & Hnow & Hwaits).
  rewrite Hrun in Hrun'. injection Hrun' as ->.
  assert (Rest.get_times waits = []) as Htimes.
  { destruct Hwaits as [-> | [ms ->]]; reflexivity. }
  set (st1 := Rest.State times now1 (Rest.history st ++ waits)) in *.
  assert (Rest.within_rate_limit (Rest.history st1)) as Hlimit1.
  { eapply within_rate_limit_same_requests; [| exact Hlimit].
    cbn [Rest.history st1]. rewrite get_times_app, Htimes. apply app_nil_r. }
  unfold Rest.send. cbn [snd]. split.
  - cbn [Rest.history]. apply stamped_request_within_limit; assumption.
  - destruct Hstep1 as (old & Hstep1 & Hold & Hsorted & Hle & Hlen).
    exists old. cbn [Rest.call_times Rest.now Rest.history].
    pose proof (Hlatency (Rest.gets (Rest.history st1))) as Hlat.
    rewrite get_times_app, app_nil_r. cbn [Rest.get_times omap app].
    split; [exact Hstep1 |].
    split; [intros t Ht; specialize (Hold t Ht); lia |].
    split; [exact Hsorted |].
    split; [intros t Ht; specialize (Hle t Ht); lia | exact Hlen].
Qed.

Lemma attempts_limited endpoint params max_retries remaining attempt st :
  (forall n, 0 <= Rest.latency w n)%Z ->
  Rest.limited st ->
  Rest.limited (snd (Rest.attempts w endpoint params max_retries remaining attempt st)).
Proof.
  intros Hlatency. revert attempt st.
  induction remaining as [| remaining IH]; intros attempt st Hlimited;
    cbn [Rest.attempts]; [exact Hlimited |].
  destruct (rate_limit_returns st) as (times & now1 & waits & Hrun & _ & _).
  rewrite (bind_returned _ _ _ _ _ Hrun).
  pose proof (rate_limit_then_send_limited _ _ endpoint params Hlatency Hlimited Hrun)
    as Hsent.
  unfold Rest.try_catch. unfold Rest.bind at 1.
  destruct (Rest.send w endpoint params _) as [[response | e] st2]; cbn [snd] in *;
    [exact Hsent |].
  destruct (Rest.is_request_exception e); [| exact Hsent].
  destruct (Z.of_nat attempt <? max_retries - 1)%Z; [| exact Hsent].
  unfold Rest.bind, Rest.sleep. apply IH.
  apply limited_later; [exact Hsent | | reflexivity].
  pose proof (Z.pow_nonneg 2 (Z.of_nat attempt)). lia.
Qed.

Lemma page_body_state endpoint params page all_results st :
  snd (Rest.page_body api_key w endpoint params page all_results st)
  = snd (Rest.make_request api_key w (Rest.page_endpoint endpoint page) params 3 st).
Proof.
  unfold Rest.page_body, Rest.try_catch. cbv zeta. unfold Rest.bind at 1.
  destruct (Rest.make_request api_key w _ params 3 st) as [[response | e] st1];
    cbn [snd]; [| destruct (Rest.is_request_exception e); reflexivity].
  destruct (negb (Json.truthy (Rest.results_of response))); [reflexivity |].
  unfold Rest.bind, Rest.lift.
  destruct (Rest.iterate (Rest.results_of response)) as [items | e]; cbn [snd].
  - destruct (List.length items <? 100)%nat; reflexivity.
  - destruct (Rest.is_request_exception e); reflexivity.
Qed.

Lemma pages_limited fuel endpoint params page all_results st :
  (forall n, 0 <= Rest.latency w n)%Z ->
  Rest.limited st ->
  Rest.limited (snd (Rest.pages api_key w fuel endpoint params page all_results st)).
Proof.
  intros Hlatency. revert page all_results st.
  induction fuel as [| fuel IH]; intros page all_results st Hlimited;
    cbn [Rest.pages]; [exact Hlimited |].
  pose proof (page_body_state endpoint params page all_results st) as Hstate.
  assert (Rest.limited (snd (Rest.page_body api_key w endpoint params page all_results st)))
    as Hbody.
  { rewrite Hstate. unfold Rest.make_request. apply attempts_limited; assumption. }
  unfold Rest.bind.
  destruct (Rest.page_body api_key w endpoint params page all_results st)
    as [[[done | more] | e] st1]; cbn [snd] in *; try exact Hbody.
  apply IH, Hbody.
Qed.

Lemma limited_initial t : Rest.limited (Rest.initial_state t).
Proof.
  split.
  - intros k a b Hk. inversion Hk.
  - exists []. cbn. repeat split; try constructor; try lia; intros x Hx; inversion Hx.
Qed.

(** The limiter does what it is for: when no more than 80 requests per
    minute have gone out so far and the record of calls is in step with
    them, this still holds after [_make_request], however many attempts it
    takes. *)
Theorem make_request_keeps_rate_limit endpoint params max_retries st :
  (forall n, 0 <= Rest.latency w n)%Z ->
  Rest.limited st ->
  Rest.limited (snd (Rest.make_request api_key w endpoint params max_retries st)).
Proof. intros Hlatency Hlimited. apply attempts_limited; assumption. Qed.

(** A new client that pages through an endpoint never sends more than 80
    requests within 60 seconds, however many pages and retries there
    are. *)
Theorem paginated_requests_stay_within_rate_limit fuel endpoint params t :
  (forall n, 0 <= Rest.latency w n)%Z ->
  Rest.within_rate_limit
    (Rest.history
       (snd (Rest.paginate_request api_key w fuel endpoint params (Rest.initial_state t)))).
Proof.
  intros Hlatency. unfold Rest.paginate_request.
  apply (pages_limited fuel endpoint params 1 [] _ Hlatency (limited_initial t)).
Qed.

(** The attempts of [_make_request]: after [k] failures that are retried,
    the outcome of the next attempt settles the call. *)
Lemma attempts_settle endpoint params max_retries k :
  forall remaining attempt st,
    (k < remaining)%nat ->
    (forall i, (i < k)%nat -> (Z.of_nat (attempt + i) < max_retries - 1)%Z) ->
    (forall i, (i < k)%nat ->
       exists e, Rest.respond w (Rest.gets (Rest.history st) + i) endpoint params
                 = Rest.Raised e /\ Rest.is_request_exception e = true) ->
    match Rest.respond w (Rest.gets (Rest.history st) + k) endpoint params with
    | Rest.Returned _ => True
    | Rest.Raised e =>
        Rest.is_request_exception e = false \/ (max_retries - 1 <= Z.of_nat (attempt + k))%Z
    end ->
    exists st',
      Rest.attempts w endpoint params max_retries remaining attempt st
      = (match Rest.respond w (Rest.gets (Rest.history st) + k) endpoint params with
         | Rest.Returned response => Rest.Returned (Some response)
         | Rest.Raised e => Rest.Raised e
         end, st') /\
      Rest.gets (Rest.history st') = (Rest.gets (Rest.history st) + k + 1)%nat /\
      Rest.backoffs (Rest.history st')
      = Rest.backoffs (Rest.history st)
        ++ map (fun i => 1000 * 2 ^ Z.of_nat (attempt + i))%Z (seq 0 k).
Proof.
  induction k as [| k IH]; intros remaining attempt st Hk Hretry Hfail Hsettle;
    (destruct remaining as [| remaining]; [lia |]); cbn [Rest.attempts].
  - destruct (rate_limit_then_send st endpoint params)
      as (st1 & st2 & Hrun & Hsend & Hgets & Hbackoffs).
    rewrite (bind_returned _ _ _ _ _ Hrun).
    rewrite Nat.add_0_r in *.
    destruct (Rest.respond w (Rest.gets (Rest.history st)) endpoint params)
      as [response | e] eqn:Hreply.
    + exists st2. rewrite (try_catch_returned _ _ _ (Some response) st2).
      * split; [reflexivity |]. split; [lia |]. cbn. rewrite app_nil_r. exact Hbackoffs.
      * rewrite (bind_returned _ _ _ _ _ Hsend). reflexivity.
    + exists st2. rewrite (try_catch_raised _ _ _ e st2).
      * split; [| split; [lia | cbn; rewrite app_nil_r; exact Hbackoffs]].
        destruct (Rest.is_request_exception e) eqn:Hclass; [| reflexivity].
        destruct Hsettle as [Hsettle | Hsettle]; [discriminate |].
        assert ((Z.of_nat attempt <? max_retries - 1)%Z = false) as ->
          by (apply Z.ltb_ge; lia).
        reflexivity.
      * rewrite (bind_raised _ _ _ _ _ Hsend). reflexivity.
  - destruct (rate_limit_then_send st endpoint params)
      as (st1 & st2 & Hrun & Hsend & Hgets & Hbackoffs).
    rewrite (bind_returned _ _ _ _ _ Hrun).
    destruct (Hfail 0%nat ltac:(lia)) as (e & Hreply & Hclass).
    rewrite Nat.add_0_r in Hreply. rewrite Hreply in Hsend.
    rewrite (try_catch_raised _ _ _ e st2)
      by (rewrite (bind_raised _ _ _ _ _ Hsend); reflexivity).
    rewrite Hclass.
    assert ((Z.of_nat attempt <? max_retries - 1)%Z = true) as ->.
    { apply Z.ltb_lt. specialize (Hretry 0%nat ltac:(lia)).
      rewrite Nat.add_0_r in Hretry. exact Hretry. }
    unfold Rest.bind at 1. unfold Rest.sleep at 1.
    set (st3 := Rest.State _ _ _).
    assert (Rest.gets (Rest.history st3) = S (Rest.gets (Rest.history st))) as Hgets3.
    { unfold st3. cbn [Rest.history]. rewrite gets_app, Hgets. cbn. lia. }
    assert (Rest.backoffs (Rest.history st3)
            = Rest.backoffs (Rest.history st) ++ [(1000 * 2 ^ Z.of_nat attempt)%Z])
      as Hbackoffs3.
    { unfold st3. cbn [Rest.history]. rewrite backoffs_app, Hbackoffs. reflexivity. }
    destruct (IH remaining (S attempt) st3) as (st' & Hrest & Hgets' & Hbackoffs').
    + lia.
    + intros i Hi. specialize (Hretry (S i) ltac:(lia)).
      replace (S attempt + i)%nat with (attempt + S i)%nat by lia. exact Hretry.
    + intros i Hi. rewrite Hgets3.
      replace (S (Rest.gets (Rest.history st)) + i)%nat
        with (Rest.gets (Rest.history st) + S i)%nat by lia.
      apply Hfail. lia.
    + rewrite Hgets3.
      replace (S (Rest.gets (Rest.history st)) + k)%nat
        with (Rest.gets (Rest.history st) + S k)%nat by lia.
      replace (S attempt + k)%nat with (attempt + S k)%nat by lia. exact Hsettle.
    + exists st'. rewrite Hrest, Hgets', Hbackoffs', Hgets3, Hbackoffs3.
      replace (S (Rest.gets (Rest.history st)) + k)%nat
        with (Rest.gets (Rest.history st) + S k)%nat by lia.
      split; [reflexivity |]. split; [lia |].
      rewrite <- app_assoc. f_equal. cbn [seq map app].
      rewrite Nat.add_0_r. f_equal.
      rewrite <- seq_shift, map_map. apply map_ext. intros i.
      replace (S attempt + i)%nat with (attempt + S i)%nat by lia. reflexivity.
Qed.

(** [_make_request] retries an attempt that fails with a
    [RequestException] (a [Timeout] included) as long as it is not the last
    of its [max_retries] attempts, sleeping 1, 2, 4, ... seconds in between;
    the first attempt that succeeds, that fails with another exception, or
    that is the last one settles the call: its response is returned, its
    exception raised.  With [k] retried failures before it, [k + 1] requests
    are sent. *)
Theorem make_request_retries_with_backoff endpoint params max_retries st k :
  let sent := <["apikey" := api_key]> params in
  let first := Rest.gets (Rest.history st) in
  (Z.of_nat k < max_retries)%Z ->
  (forall i, (i < k)%nat ->
     exists e, Rest.respond w (first + i) endpoint sent = Rest.Raised e /\
               Rest.is_request_exception e = true) ->
  match Rest.respond w (first + k) endpoint sent with
  | Rest.Returned _ => True
  | Rest.Raised e => Rest.is_request_exception e = false \/ Z.of_nat k = (max_retries - 1)%Z
  end ->
  exists st',
    Rest.make_request api_key w endpoint params max_retries st
    = (match Rest.respond w (first + k) endpoint sent with
       | Rest.Returned response => Rest.Returned (Some response)
       | Rest.Raised e => Rest.Raised e
       end, st') /\
    Rest.gets (Rest.history st') = (first + k + 1)%nat /\
    Rest.backoffs (Rest.history st')
    = Rest.backoffs (Rest.history st) ++ map (fun i => 1000 * 2 ^ Z.of_nat i)%Z (seq 0 k).
Proof.
  cbv zeta. intros Hk Hfail Hsettle. unfold Rest.make_request.
  apply (attempts_settle endpoint (<["apikey" := api_key]> params) max_retries k
           (Z.to_nat max_retries) 0 st).
  - lia.
  - intros i Hi. cbn [Nat.add]. lia.
  - exact Hfail.
  - destruct (Rest.respond w _ endpoint _); [exact I |].
    destruct Hsettle as [H | H]; [left; exact H | right; cbn [Nat.add]; lia].
Qed.

(** With no attempt allowed, [_make_request] sends nothing and returns
    [None]. *)
Lemma make_request_without_attempts endpoint params max_retries st :
  (max_retries <= 0)%Z ->
  Rest.make_request api_key w endpoint params max_retries st = (Rest.Returned None, st).
Proof.
  intros Hnone. unfold Rest.make_request.
  replace (Z.to_nat max_retries) with 0%nat by lia. reflexivity.
Qed.

(** A page of a hundred items or more is collected and the next page
    asked for. *)
Lemma page_body_full endpoint params page all_results st items :
  Rest.respond w (Rest.gets (Rest.history st)) (Rest.page_endpoint endpoint page)
    (<["apikey" := api_key]> params) = Rest.Returned (JList items) ->
  (100 <= List.length items)%nat ->
  exists st1,
    Rest.page_body api_key w endpoint params page all_results st
    = (Rest.Returned (Rest.NextPage (all_results ++ items)), st1) /\
    Rest.gets (Rest.history st1) = S (Rest.gets (Rest.history st)).
Proof.
  intros Hreply Hfull.
  destruct (make_request_retries_with_backoff (Rest.page_endpoint endpoint page) params 3 st 0)
    as (st1 & Hrequest & Hgets & _); cbv zeta.
  - lia.
  - intros i Hi. lia.
  - rewrite Nat.add_0_r, Hreply. exact I.
  - rewrite Nat.add_0_r, Hreply in Hrequest.
    exists st1. split; [| lia].
    unfold Rest.page_body. cbv zeta.
    apply try_catch_returned. rewrite (bind_returned _ _ _ _ _ Hrequest).
    cbn [Rest.results_of Json.truthy].
    destruct items as [| item items]; [cbn in Hfull; lia |].
    cbn [Run.is_nil negb Rest.iterate]. unfold Rest.bind, Rest.lift.
    assert ((List.length (item :: items) <? 100)%nat = false) as ->
      by (apply Nat.ltb_ge; exact Hfull).
    reflexivity.
Qed.

Lemma pages_through_full endpoint params (full : list (list json)) :
  forall fuel page all_results st,
    (forall i items, full !! i = Some items ->
       Rest.respond w (Rest.gets (Rest.history st) + i)
         (Rest.page_endpoint endpoint (page + N.of_nat i))
         (<["apikey" := api_key]> params) = Rest.Returned (JList items) /\
       (100 <= List.length items)%nat) ->
    exists st1,
      Rest.gets (Rest.history st1) = (Rest.gets (Rest.history st) + List.length full)%nat /\
      Rest.pages api_key w (List.length full + fuel) endpoint params page all_results st
      = Rest.pages api_key w fuel endpoint params (page + N.of_nat (List.length full))
          (all_results ++ List.concat full) st1.
Proof.
  induction full as [| items full IH]; intros fuel page all_results st Hpages.
  - exists st. cbn [List.length List.concat Nat.add]. rewrite N.add_0_r, app_nil_r, Nat.add_0_r.
    split; reflexivity.
  - destruct (Hpages 0%nat items eq_refl) as [Hreply Hfull].
    rewrite Nat.add_0_r, N.add_0_r in Hreply.
    destruct (page_body_full endpoint params page all_results st items Hreply Hfull)
      as (st1 & Hbody & Hgets).
    destruct (IH fuel (page + 1)%N (all_results ++ items) st1) as (st2 & Hgets2 & Hrest).
    { intros i more Hi. rewrite Hgets.
      replace (S (Rest.gets (Rest.history st)) + i)%nat
        with (Rest.gets (Rest.history st) + S i)%nat by lia.
      replace (page + 1 + N.of_nat i)%N with (page + N.of_nat (S i))%N by lia.
      apply Hpages. exact Hi. }
    exists st2. split; [cbn [List.length]; lia |].
    cbn [List.length Nat.add Rest.pages].
    rewrite (bind_returned _ _ _ _ _ Hbody). rewrite Hrest.
    cbn [List.concat]. rewrite <- app_assoc.
    replace (page + 1 + N.of_nat (List.length full))%N
      with (page + N.of_nat (S (List.length full)))%N by lia.
    reflexivity.
Qed.

(** [_paginate_request] asks for the endpoint itself, then for
    [endpoint/page/2], [endpoint/page/3], ...; as long as a page holds a
    hundred items or more it goes on, and the first page with fewer ends the
    call, which returns the items of all these pages in order. *)
Theorem paginate_collects_pages_up_to_first_short_one
    fuel endpoint params st (full : list (list json)) (short : list json) :
  let sent := <["apikey" := api_key]> params in
  let first := Rest.gets (Rest.history st) in
  (forall i items, full !! i = Some items ->
     Rest.respond w (first + i) (Rest.page_endpoint endpoint (1 + N.of_nat i)) sent
     = Rest.Returned (JList items) /\ (100 <= List.length items)%nat) ->
  Rest.respond w (first + List.length full)
    (Rest.page_endpoint endpoint (1 + N.of_nat (List.length full))) sent
  = Rest.Returned (JList short) ->
  (List.length short < 100)%nat ->
  (List.length full < fuel)%nat ->
  fst (Rest.paginate_request api_key w fuel endpoint params st)
  = Rest.Returned (Some (List.concat full ++ short)).
Proof.
  cbv zeta. intros Hpages Hlast Hshort Hfuel. unfold Rest.paginate_request.
  destruct (pages_through_full endpoint params full (fuel - List.length full) 1 [] st Hpages)
    as (st1 & Hgets & Hrun).
  replace (List.length full + (fuel - List.length full))%nat with fuel in Hrun by lia.
  rewrite Hrun. cbn [app].
  destruct (fuel - List.length full)%nat as [| fuel'] eqn:Hleft; [lia |].
  cbn [Rest.pages].
  rewrite <- Hgets in Hlast.
  destruct (make_request_retries_with_backoff
              (Rest.page_endpoint endpoint (1 + N.of_nat (List.length full))) params 3 st1 0)
    as (st2 & Hrequest & _); cbv zeta.
  - lia.
  - intros i Hi. lia.
  - rewrite Nat.add_0_r, Hlast. exact I.
  - rewrite Nat.add_0_r, Hlast in Hrequest.
    assert (Rest.page_body api_key w endpoint params (1 + N.of_nat (List.length full))
              (List.concat full) st1
            = (Rest.Returned (Rest.Break (List.concat full ++ short)), st2)) as Hbody.
    { unfold Rest.page_body. cbv zeta.
      apply try_catch_returned. rewrite (bind_returned _ _ _ _ _ Hrequest).
      cbn [Rest.results_of Json.truthy].
      destruct short as [| item short].
      - cbn [Run.is_nil negb]. rewrite app_nil_r. reflexivity.
      - cbn [Run.is_nil negb Rest.iterate]. unfold Rest.bind, Rest.lift.
        assert ((List.length (item :: short) <? 100)%nat = true) as ->
          by (apply Nat.ltb_lt; exact Hshort).
        reflexivity. }
    rewrite (bind_returned _ _ _ _ _ Hbody). reflexivity.
Qed.

(** A page that cannot be fetched ends the call like an empty page: when
    the three attempts at it fail with a [RequestException], the items of
    the pages before it are returned, and no exception tells the caller
    that the result is incomplete. *)
Theorem paginate_returns_partial_result_on_failure
    fuel endpoint params st (full : list (list json)) :
  let sent := <["apikey" := api_key]> params in
  let first := Rest.gets (Rest.history st) in
  (forall i items, full !! i = Some items ->
     Rest.respond w (first + i) (Rest.page_endpoint endpoint (1 + N.of_nat i)) sent
     = Rest.Returned (JList items) /\ (100 <= List.length items)%nat) ->
  (forall j, (j < 3)%nat ->
     exists e,
       Rest.respond w (first + List.length full + j)
         (Rest.page_endpoint endpoint (1 + N.of_nat (List.length full))) sent
       = Rest.Raised e /\ Rest.is_request_exception e = true) ->
  (List.length full < fuel)%nat ->
  fst (Rest.paginate_request api_key w fuel endpoint params st)
  = Rest.Returned (Some (List.concat full)).
Proof.
  cbv zeta. intros Hpages Hfail Hfuel. unfold Rest.paginate_request.
  destruct (pages_through_full endpoint params full (fuel - List.length full) 1 [] st Hpages)
    as (st1 & Hgets & Hrun).
  replace (List.length full + (fuel - List.length full))%nat with fuel in Hrun by lia.
  rewrite Hrun. cbn [app].
  destruct (fuel - List.length full)%nat as [| fuel'] eqn:Hleft; [lia |].
  cbn [Rest.pages].
  rewrite <- Hgets in Hfail.
  destruct (Hfail 2%nat ltac:(lia)) as (e & Hlast & Hclass).
  destruct (make_request_retries_with_backoff
              (Rest.page_endpoint endpoint (1 + N.of_nat (List.length full))) params 3 st1 2)
    as (st2 & Hrequest & _); cbv zeta.
  - lia.
  - intros i Hi. apply Hfail. lia.
  - rewrite Hlast. right. reflexivity.
  - rewrite Hlast in Hrequest.
    assert (Rest.page_body api_key w endpoint params (1 + N.of_nat (List.length full))
              (List.concat full) st1
            = (Rest.Returned (Rest.Break (List.concat full)), st2)) as Hbody.
    { unfold Rest.page_body. cbv zeta.
      rewrite (try_catch_raised _ _ _ e st2)
        by (rewrite (bind_raised _ _ _ _ _ Hrequest); reflexivity).
      rewrite Hclass. reflexivity. }
    rewrite (bind_returned _ _ _ _ _ Hbody). reflexivity.
Qed.

End ClientFacts.

Lemma make_request_keeps_rate_limit_witness :
  Rest.limited
    (snd (Rest.make_request "key" flaky_server "/jobs" ∅ 3 (Rest.initial_state 0))).
Proof.
  apply (make_request_keeps_rate_limit "key" flaky_server "/jobs" ∅ 3 (Rest.initial_state 0)).
  - intros n. cbn. lia.
  - apply limited_initial.
Defined.

Lemma paginated_requests_stay_within_rate_limit_witness :
  Rest.within_rate_limit
    (Rest.history
       (snd (Rest.paginate_request "key" endless_server 90 "/jobs" ∅ (Rest.initial_state 0)))).
Proof.
  apply (paginated_requests_stay_within_rate_limit "key" endless_server 90 "/jobs" ∅ 0).
  intros n. cbn. lia.
Defined.

(** Against a server that answers at once, the first 80 requests go out
    at time 0 and the 81st after a pause of 61 seconds. *)
Lemma eighty_first_request_waits :
  let h := Rest.history
             (snd (Rest.paginate_request "key" endless_server 90 "/jobs" ∅
                     (Rest.initial_state 0))) in
  Rest.get_times h !! 79%nat = Some 0%Z /\
  Rest.get_times h !! 80%nat = Some 61000%Z /\
  List.filter (fun ev => negb (Rest.is_get ev)) h = [Rest.Waited 61000].
Proof. cbv zeta. repeat split; vm_compute; reflexivity. Qed.

Lemma make_request_retries_with_backoff_witness :
  exists st',
    Rest.make_request "key" flaky_server "/jobs/job_1" ∅ 3 (Rest.initial_state 0)
    = (Rest.Returned (Some (JDict [("id", JStr "job_1")])), st') /\
    Rest.gets (Rest.history st') = 3%nat /\
    Rest.backoffs (Rest.history st') = [1000; 2000]%Z.
Proof.
  apply (make_request_retries_with_backoff "key" flaky_server "/jobs/job_1" ∅ 3
           (Rest.initial_state 0) 2).
  - lia.
  - intros [| [| i]] Hi; [eexists; split; reflexivity .. | lia].
  - exact I.
Defined.

Lemma paginate_collects_pages_up_to_first_short_one_witness :
  fst (Rest.get_applicants_for_job "key" applicants_server 5 "10545457"
         (Rest.initial_state 0))
  = Rest.Returned (Some (full_page 1 ++ [JInt 2; JInt 3])).
Proof.
  apply (paginate_collects_pages_up_to_first_short_one "key" applicants_server 5
           "/applicants2jobs" {[ "job_id" := "10545457" ]} (Rest.initial_state 0)
           [full_page 1] [JInt 2; JInt 3]).
  - intros [| i] items Hi; [| destruct i; discriminate].
    injection Hi as <-. split; [reflexivity | cbn; lia].
  - reflexivity.
  - cbn. lia.
  - cbn. lia.
Defined.

Lemma paginate_returns_partial_result_on_failure_witness :
  fst (Rest.get_applicants_for_job "key" second_page_times_out 5 "10545457"
         (Rest.initial_state 0))
  = Rest.Returned (Some (full_page 1)).
Proof.
  apply (paginate_returns_partial_result_on_failure "key" second_page_times_out 5
           "/applicants2jobs" {[ "job_id" := "10545457" ]} (Rest.initial_state 0)
           [full_page 1]).
  - intros [| i] items Hi; [| destruct i; discriminate].
    injection Hi as <-. split; [reflexivity | cbn; lia].
  - intros j Hj. exists Rest.Timeout. split; reflexivity.
  - cbn. lia.
Defined.
